(** * Elevator control system: a shallow embedding of the C sources

    The development follows the layout of the repository:

    - [CStr]       the functions of the C library that the sources call,
    - [Utils]      the shared helpers for floor labels,
    - [Shm]        the shared-memory record of [elevator.h],
    - [Safety]     the safety monitor ([safety.c]),
    - [Car]        the car process ([car.c]),
    - [Internal]   the in-car button tool,
    - [Controller] the dispatcher ([controller.c]),
    - [Framing]    the length-prefixed messages of the shared helpers,
    - [Call]       the hall-call client ([call.c]),
    - [System]     the processes attached to one car's record,
    - [Spec]       the statements of the specification, in its words,
    - [Dispatcher] the dispatcher's car sessions ([controller.c]),
    - [CarNet]     the messages that a car sends ([car.c]),
    - [Sessions]   a car and the dispatcher together,
    - [Shape]      shapes of data that the statements speak of.

    C strings are lists of characters.  A [char] array or a heap string is
    the list of its initialised characters; reading at or past the end of
    the list yields the terminator, so a string literal is written without
    its final NUL and a fixed-size array holds exactly as many characters as
    its declaration says.  Pointers are never null in the model. *)

From Stdlib Require Import String Ascii ZArith List Bool Lia.
From Stdlib Require Import Numbers.DecimalString.
Import ListNotations.

Open Scope Z_scope.

(* ================================================================== *)
(** ** The C string library, as far as the sources use it             *)
(* ================================================================== *)

Module CStr.

Definition NUL : ascii := Ascii.zero.

(** The newline character. *)
Definition LF : ascii := ascii_of_nat 10.

(** A string literal. *)
Definition lit (s : string) : list ascii := list_ascii_of_string s.

Definition is_nul (c : ascii) : bool := Ascii.eqb c NUL.

(** The characters before the first terminator. *)
Fixpoint cstr (b : list ascii) : list ascii :=
  match b with
  | [] => []
  | c :: r => if is_nul c then [] else c :: cstr r
  end.

Definition strlen (b : list ascii) : nat := length (cstr b).

Definition uchar (c : ascii) : Z := Z.of_nat (nat_of_ascii c).

(** [strncmp a b n]: characters are compared as [unsigned char]. *)
Fixpoint strncmp (a b : list ascii) (n : nat) : Z :=
  match n with
  | O => 0
  | S n' =>
      let ca := hd NUL a in
      let cb := hd NUL b in
      if Ascii.eqb ca cb
      then if is_nul ca then 0 else strncmp (tl a) (tl b) n'
      else uchar ca - uchar cb
  end.

(** [strcmp] is [strncmp] with a bound that covers both arguments. *)
Definition strcmp (a b : list ascii) : Z :=
  strncmp a b (S (Nat.max (length a) (length b))).

(** [strncpy(dest, src, n)] fills exactly [n] characters of [dest]: the
    string in [src], cut at [n] characters, padded with terminators. *)
Definition strncpy (src : list ascii) (n : nat) : list ascii :=
  let s := firstn n (cstr src) in
  s ++ repeat NUL (n - length s).

(** The idiom [strncpy(dest, src, size - 1); dest[size - 1] = '\0'] on a
    destination array of [size] characters. *)
Definition safe_copy (src : list ascii) (dest_size : nat) : list ascii :=
  strncpy src (dest_size - 1) ++ [NUL].

Definition isspace (c : ascii) : bool :=
  let n := nat_of_ascii c in
  (Nat.eqb n 32 || (Nat.leb 9 n && Nat.leb n 13))%bool.

Definition isdigit (c : ascii) : bool :=
  let n := nat_of_ascii c in (Nat.leb 48 n && Nat.leb n 57)%bool.

Definition digit_val (c : ascii) : Z := uchar c - 48.

Fixpoint skip_spaces (s : list ascii) : list ascii :=
  match s with
  | [] => []
  | c :: r => if isspace c then skip_spaces r else s
  end.

Fixpoint scan_digits (acc : Z) (s : list ascii) : Z * list ascii :=
  match s with
  | [] => (acc, [])
  | c :: r =>
      if isdigit c then scan_digits (acc * 10 + digit_val c) r else (acc, s)
  end.

Definition LONG_MAX : Z := 2 ^ 63 - 1.
Definition LONG_MIN : Z := - 2 ^ 63.

Definition clamp_long (v : Z) : Z :=
  if v >? LONG_MAX then LONG_MAX else if v <? LONG_MIN then LONG_MIN else v.

(** [strtol(nptr, &endptr, 10)] on the characters of a C string: the
    value and what [endptr] points at.  White space is skipped, one sign
    is accepted, then decimal digits; without a digit nothing is
    consumed. *)
Definition strtol (nptr : list ascii) : Z * list ascii :=
  let s := skip_spaces nptr in
  let '(neg, s) :=
    match s with
    | c :: r =>
        if Ascii.eqb c "-" then (true, r)
        else if Ascii.eqb c "+" then (false, r)
        else (false, s)
    | [] => (false, s)
    end in
  match s with
  | c :: _ =>
      if isdigit c
      then let '(v, rest) := scan_digits 0 s in
           (clamp_long (if neg then - v else v), rest)
      else (0, nptr)
  | [] => (0, nptr)
  end.

(** The conversion [%d]. *)
Definition print_d (n : Z) : list ascii :=
  list_ascii_of_string (NilEmpty.string_of_int (Z.to_int n)).

(** The conversion [%Ns] of [sscanf]: white space is skipped, then at most
    [width] characters that are not white space are read; the conversion
    fails at the end of the input. *)
Fixpoint scan_word (width : nat) (s : list ascii) : list ascii * list ascii :=
  match width, s with
  | S w, c :: r =>
      if isspace c then ([], s)
      else let '(word, rest) := scan_word w r in (c :: word, rest)
  | _, _ => ([], s)
  end.

Definition scanf_s (width : nat) (s : list ascii)
  : option (list ascii * list ascii) :=
  match skip_spaces s with
  | [] => None
  | s' => Some (scan_word width s')
  end.

(** A literal run of ordinary characters in a [sscanf] format. *)
Fixpoint scanf_lit (l s : list ascii) : option (list ascii) :=
  match l with
  | [] => Some s
  | c :: l' =>
      match s with
      | d :: s' => if Ascii.eqb c d then scanf_lit l' s' else None
      | [] => None
      end
  end.

End CStr.
Import CStr.

(* ================================================================== *)
(** ** Shared helpers: floor labels                                   *)
(* ================================================================== *)

Module Utils.

Definition MAX_FLOOR_LEN : nat := 4.
Definition MAX_STATUS_LEN : nat := 8.
Definition MAX_CAR_NAME_LEN : nat := 32.

Record floor_info : Type := mk_floor_info {
  ok : bool;
  numeric : Z;
  is_basement : bool
}.

Definition invalid_floor : floor_info := mk_floor_info false 0 false.

Definition parse_floor (floor_str : list ascii) : floor_info :=
  let s := cstr floor_str in
  if (Nat.eqb (length s) 0 || Nat.ltb 3 (length s))%bool then invalid_floor
  else if Ascii.eqb (hd NUL s) "B" then
    if Nat.ltb (length s) 2 then invalid_floor
    else
      let '(floor_num, endptr) := strtol (tl s) in
      if (negb (is_nul (hd NUL endptr)) || (floor_num <? 1) || (floor_num >? 99))%bool
      then invalid_floor
      else if (Ascii.eqb (hd NUL (tl s)) "0" && negb (floor_num =? 0))%bool
      then invalid_floor
      else mk_floor_info true (- floor_num) true
  else
    let '(floor_num, endptr) := strtol s in
    if (negb (is_nul (hd NUL endptr)) || (floor_num <? 1) || (floor_num >? 999))%bool
    then invalid_floor
    else if (Ascii.eqb (hd NUL s) "0" && negb (floor_num =? 0))%bool
    then invalid_floor
    else mk_floor_info true floor_num false.

Definition compare_floors (floor1 floor2 : list ascii) : Z :=
  let f1 := parse_floor floor1 in
  let f2 := parse_floor floor2 in
  if (negb (ok f1) || negb (ok f2))%bool then 0
  else if numeric f1 <? numeric f2 then -1
  else if numeric f1 >? numeric f2 then 1
  else 0.

Definition is_valid_floor_range (floor lowest highest : list ascii) : bool :=
  ((compare_floors floor lowest >=? 0) && (compare_floors floor highest <=? 0))%bool.

(** [snprintf(output, 4, fmt, ...)] followed by
    [if (ret >= 4) output[0] = '\0']: the text when it fits in three
    characters, the empty string otherwise. *)
Definition snprintf4 (text : list ascii) : list ascii :=
  if Nat.leb 4 (length text) then [] else text.

(** The string left in [output]. *)
Definition floor_to_string (numeric : Z) (is_basement : bool) : list ascii :=
  if (is_basement && (numeric <? 0))%bool then
    let pos_val := - numeric in
    if ((pos_val >=? 1) && (pos_val <=? 99))%bool
    then snprintf4 ("B"%char :: print_d pos_val)
    else []
  else if (negb is_basement && (numeric >=? 1))%bool then
    if ((numeric >=? 1) && (numeric <=? 999))%bool
    then snprintf4 (print_d numeric)
    else []
  else [].

(** [next_floor_towards] returns its status and the string in [output];
    [output] is passed in as the string it held before the call. *)
Definition next_floor_towards (current destination lowest highest : list ascii)
    (output : list ascii) (output_size : nat) : Z * list ascii :=
  if Nat.ltb output_size MAX_FLOOR_LEN then (-1, output)
  else
    let curr := parse_floor current in
    let dest := parse_floor destination in
    if (negb (ok curr) || negb (ok dest))%bool then (-1, output)
    else
      let direction := if numeric dest >? numeric curr then 1 else -1 in
      let next_numeric := numeric curr + direction in
      let output :=
        if next_numeric <? 0 then floor_to_string next_numeric true
        else floor_to_string next_numeric false in
      if negb (is_valid_floor_range output lowest highest) then (-1, output)
      else (0, output).

End Utils.
Import Utils.

(* ================================================================== *)
(** ** The shared-memory record ([elevator.h])                        *)
(* ================================================================== *)

(** The mutex and the condition variable are not data of the model: every
  function below that takes and returns a [car_shared_mem] is one
  critical section, run with the mutex held, and the processes interleave
  at the granularity of these sections.  The [uint8_t] fields are integers
  in [0, 255]. *)
Module Shm.

Record car_shared_mem : Type := mk_shm {
  current_floor : list ascii;        (* char[MAX_FLOOR_LEN] *)
  destination_floor : list ascii;    (* char[MAX_FLOOR_LEN] *)
  status : list ascii;               (* char[MAX_STATUS_LEN] *)
  open_button : Z;
  close_button : Z;
  safety_system : Z;
  door_obstruction : Z;
  overload : Z;
  emergency_stop : Z;
  individual_service_mode : Z;
  emergency_mode : Z
}.

Definition set_current_floor (v : list ascii) (m : car_shared_mem) :=
  mk_shm v (destination_floor m) (status m) (open_button m) (close_button m)
    (safety_system m) (door_obstruction m) (overload m) (emergency_stop m)
    (individual_service_mode m) (emergency_mode m).
Definition set_destination_floor (v : list ascii) (m : car_shared_mem) :=
  mk_shm (current_floor m) v (status m) (open_button m) (close_button m)
    (safety_system m) (door_obstruction m) (overload m) (emergency_stop m)
    (individual_service_mode m) (emergency_mode m).
Definition set_status (v : list ascii) (m : car_shared_mem) :=
  mk_shm (current_floor m) (destination_floor m) v (open_button m) (close_button m)
    (safety_system m) (door_obstruction m) (overload m) (emergency_stop m)
    (individual_service_mode m) (emergency_mode m).
Definition set_open_button (v : Z) (m : car_shared_mem) :=
  mk_shm (current_floor m) (destination_floor m) (status m) v (close_button m)
    (safety_system m) (door_obstruction m) (overload m) (emergency_stop m)
    (individual_service_mode m) (emergency_mode m).
Definition set_close_button (v : Z) (m : car_shared_mem) :=
  mk_shm (current_floor m) (destination_floor m) (status m) (open_button m) v
    (safety_system m) (door_obstruction m) (overload m) (emergency_stop m)
    (individual_service_mode m) (emergency_mode m).
Definition set_safety_system (v : Z) (m : car_shared_mem) :=
  mk_shm (current_floor m) (destination_floor m) (status m) (open_button m)
    (close_button m) v (door_obstruction m) (overload m) (emergency_stop m)
    (individual_service_mode m) (emergency_mode m).
Definition set_emergency_stop (v : Z) (m : car_shared_mem) :=
  mk_shm (current_floor m) (destination_floor m) (status m) (open_button m)
    (close_button m) (safety_system m) (door_obstruction m) (overload m) v
    (individual_service_mode m) (emergency_mode m).
Definition set_individual_service_mode (v : Z) (m : car_shared_mem) :=
  mk_shm (current_floor m) (destination_floor m) (status m) (open_button m)
    (close_button m) (safety_system m) (door_obstruction m) (overload m)
    (emergency_stop m) v (emergency_mode m).
Definition set_emergency_mode (v : Z) (m : car_shared_mem) :=
  mk_shm (current_floor m) (destination_floor m) (status m) (open_button m)
    (close_button m) (safety_system m) (door_obstruction m) (overload m)
    (emergency_stop m) (individual_service_mode m) v.

(** A status test [strncmp(shm->status, name, MAX_STATUS_LEN) == 0]. *)
Definition status_is (name : string) (m : car_shared_mem) : bool :=
  strncmp (status m) (lit name) MAX_STATUS_LEN =? 0.

(** [safe_copy_status(shm->status, name, sizeof(shm->status))]. *)
Definition copy_status (name : string) (m : car_shared_mem) : car_shared_mem :=
  set_status (safe_copy (lit name) MAX_STATUS_LEN) m.

(** The fields as [create_shared_memory] initialises them. *)
Definition create_shared_memory (lowest_floor : list ascii) : car_shared_mem :=
  mk_shm (safe_copy lowest_floor MAX_FLOOR_LEN)
         (safe_copy lowest_floor MAX_FLOOR_LEN)
         (safe_copy (lit "Closed") MAX_STATUS_LEN)
         0 0 0 0 0 0 0 0.

End Shm.
Import Shm.

(* ================================================================== *)
(** ** The safety monitor ([safety.c])                                *)
(* ================================================================== *)

Module Safety.

Definition VALID_STATUSES : list (list ascii) :=
  [lit "Opening"; lit "Open"; lit "Closing"; lit "Closed"; lit "Between"].

Definition is_valid_status (status : list ascii) : bool :=
  existsb (fun v => strncmp status v MAX_STATUS_LEN =? 0) VALID_STATUSES.

Definition is_valid_uint8_value (value max_val : Z) : bool := value <=? max_val.

Fixpoint is_null_terminated (str : list ascii) (max_len : nat) : bool :=
  match max_len with
  | O => false
  | S n => if is_nul (hd NUL str) then true else is_null_terminated (tl str) n
  end.

Definition validate_floor_string (floor_str : list ascii) : bool :=
  if negb (is_null_terminated floor_str MAX_FLOOR_LEN) then false
  else ok (parse_floor floor_str).

Definition validate_obstruction_status_consistency (shm : car_shared_mem) : bool :=
  if door_obstruction shm =? 1
  then (status_is "Opening" shm || status_is "Closing" shm)%bool
  else true.

Definition perform_safety_validation (shm : car_shared_mem) : bool :=
  if (negb (is_null_terminated (current_floor shm) MAX_FLOOR_LEN)
      || negb (is_null_terminated (destination_floor shm) MAX_FLOOR_LEN)
      || negb (is_null_terminated (status shm) MAX_STATUS_LEN))%bool then false
  else if (negb (validate_floor_string (current_floor shm))
           || negb (validate_floor_string (destination_floor shm)))%bool then false
  else if negb (is_valid_status (status shm)) then false
  else if (negb (is_valid_uint8_value (open_button shm) 1)
           || negb (is_valid_uint8_value (close_button shm) 1)
           || negb (is_valid_uint8_value (door_obstruction shm) 1)
           || negb (is_valid_uint8_value (overload shm) 1)
           || negb (is_valid_uint8_value (emergency_stop shm) 1)
           || negb (is_valid_uint8_value (individual_service_mode shm) 1)
           || negb (is_valid_uint8_value (emergency_mode shm) 1))%bool then false
  else if negb (is_valid_uint8_value (safety_system shm) 3) then false
  else if negb (validate_obstruction_status_consistency shm) then false
  else true.

(** What the monitor has written to standard output comes back with the
    state. *)
Definition handle_safety_violation (shm : car_shared_mem) (message : string)
    (stdout : list ascii) : car_shared_mem * list ascii :=
  (set_emergency_mode 1 shm, stdout ++ lit message ++ [LF]).

(** One run of [process_safety_actions]: the new state, the text written,
    and whether the condition variable was broadcast. *)
Definition process_safety_actions (shm : car_shared_mem)
  : car_shared_mem * list ascii * bool :=
  let changed := false in
  let stdout := @nil ascii in
  let '(shm, changed) :=
    if safety_system shm =? 0 then (set_safety_system 1 shm, true)
    else (shm, changed) in
  let '(shm, changed) :=
    if ((door_obstruction shm =? 1) && status_is "Closing" shm)%bool
    then (copy_status "Opening" shm, true)
    else (shm, changed) in
  let '(shm, stdout, changed) :=
    if ((emergency_stop shm =? 1) && (emergency_mode shm =? 0))%bool
    then let '(shm, stdout) :=
           handle_safety_violation shm
             "The emergency stop button has been pressed!" stdout in
         (set_emergency_stop 0 shm, stdout, true)
    else (shm, stdout, changed) in
  let '(shm, stdout, changed) :=
    if ((overload shm =? 1) && (emergency_mode shm =? 0))%bool
    then let '(shm, stdout) :=
           handle_safety_violation shm
             "The overload sensor has been tripped!" stdout in
         (shm, stdout, true)
    else (shm, stdout, changed) in
  let '(shm, stdout, changed) :=
    if negb (emergency_mode shm =? 1)
    then if negb (perform_safety_validation shm)
         then let '(shm, stdout) :=
                handle_safety_violation shm "Data consistency error!" stdout in
              (shm, stdout, true)
         else (shm, stdout, changed)
    else (shm, stdout, changed) in
  (shm, stdout, changed).

(** The state after one cycle of the monitor's loop. *)
Definition cycle (shm : car_shared_mem) : car_shared_mem :=
  fst (fst (process_safety_actions shm)).

End Safety.

(* ================================================================== *)
(** ** The car process ([car.c])                                      *)
(* ================================================================== *)

Module Car.

Definition FLOOR_STRING_MAX_LEN : nat := 4.

Definition handle_open_button (shm : car_shared_mem) : car_shared_mem :=
  if negb (open_button shm =? 0) then
    let shm := set_open_button 0 shm in
    if (status_is "Closed" shm || status_is "Closing" shm)%bool
    then copy_status "Opening" shm
    else shm
  else shm.

Definition handle_close_button (shm : car_shared_mem) : car_shared_mem :=
  if negb (close_button shm =? 0) then
    let shm := set_close_button 0 shm in
    if status_is "Open" shm then copy_status "Closing" shm else shm
  else shm.

(** *** The network thread *)

(** The snapshot at the top of the thread's loop. *)
Definition should_connect (shm : car_shared_mem) : bool :=
  ((safety_system shm >? 0) && (safety_system shm <? 3)
   && (individual_service_mode shm =? 0) && (emergency_mode shm =? 0))%bool.

(** What the thread does with a message [msg] that [read_message] has
    returned. *)
Definition handle_message (msg : list ascii) (shm : car_shared_mem)
  : car_shared_mem :=
  if strncmp msg (lit "FLOOR ") 6 =? 0 then
    let floor := skipn 6 msg in
    if negb (status_is "Between" shm) then
      if strncmp floor (current_floor shm) MAX_FLOOR_LEN =? 0 then
        if status_is "Closed" shm then copy_status "Opening" shm else shm
      else
        let floor_check := parse_floor floor in
        if ok floor_check
        then set_destination_floor (safe_copy floor MAX_FLOOR_LEN) shm
        else shm
    else shm
  else shm.

(** The heartbeat step of the thread: the new state and
    [entered_emergency]. *)
Definition heartbeat (shm : car_shared_mem) : car_shared_mem * bool :=
  let shm :=
    if safety_system shm <? 3
    then set_safety_system ((safety_system shm + 1) mod 256) shm
    else shm in
  if safety_system shm >=? 3
  then (set_emergency_mode 1 shm, true)
  else (shm, false).

(** *** The main loop *)

Section MainLoop.

  (** [car.lowest] and [car.highest]. *)
Variables lowest highest : list ascii.

  (** The critical section that the main loop re-enters after a delay. *)
Inductive pending : Type :=
  | NoPending
  | AfterOpening
  | AfterOpenDwell
  | AfterClosing
  | AfterBetween (service_mode : Z).

  (** The [Closed] branch, which runs wholly under the mutex. *)
Definition closed_branch (shm : car_shared_mem) : car_shared_mem :=
    let need_move :=
      negb (strncmp (current_floor shm) (destination_floor shm) MAX_FLOOR_LEN =? 0) in
    let emergency := emergency_mode shm in
    let valid_dest := true in
    let '(shm, valid_dest) :=
      if need_move then
        let valid_dest :=
          is_valid_floor_range (destination_floor shm) lowest highest in
        if negb valid_dest
        then (set_destination_floor
                (safe_copy (current_floor shm) MAX_FLOOR_LEN) shm, valid_dest)
        else (shm, valid_dest)
      else (shm, valid_dest) in
    if (need_move && (emergency =? 0) && valid_dest)%bool
    then copy_status "Between" shm
    else shm.

  (** The first critical section of an iteration.  [dwell_over] tells
      whether, in the [Open] branch, the clock shows that the doors have
      been open for [delay_ms]. *)
Definition iteration_first (dwell_over : bool) (shm : car_shared_mem)
    : car_shared_mem * pending :=
    let shm := handle_close_button (handle_open_button shm) in
    if status_is "Opening" shm then (shm, AfterOpening)
    else if status_is "Open" shm then
      let shm := if negb (open_button shm =? 0)
                 then set_open_button 0 shm else shm in
      (shm, if dwell_over then AfterOpenDwell else NoPending)
    else if status_is "Closing" shm then (shm, AfterClosing)
    else if status_is "Closed" shm then (closed_branch shm, NoPending)
    else if status_is "Between" shm
         then (shm, AfterBetween (individual_service_mode shm))
    else (shm, NoPending).

  (** The critical section entered after the delay. *)
Definition iteration_second (p : pending) (shm : car_shared_mem)
    : car_shared_mem :=
    match p with
    | NoPending => shm
    | AfterOpening =>
        if status_is "Opening" shm then copy_status "Open" shm else shm
    | AfterOpenDwell =>
        if (status_is "Open" shm && (individual_service_mode shm =? 0))%bool
        then copy_status "Closing" shm else shm
    | AfterClosing =>
        if status_is "Closing" shm then copy_status "Closed" shm else shm
    | AfterBetween service_mode =>
        if status_is "Between" shm then
          let '(ret, next_floor) :=
            next_floor_towards (current_floor shm) (destination_floor shm)
              lowest highest [] FLOOR_STRING_MAX_LEN in
          let shm :=
            if ret =? 0
            then set_current_floor (safe_copy next_floor MAX_FLOOR_LEN) shm
            else shm in
          if strncmp (current_floor shm) (destination_floor shm) MAX_FLOOR_LEN =? 0
          then if negb (service_mode =? 0)
               then copy_status "Closed" shm
               else copy_status "Opening" shm
          else shm
        else shm
    end.

End MainLoop.

End Car.

(* ================================================================== *)
(** ** The in-car button tool                                         *)
(* ================================================================== *)

Module Internal.

Definition newline : list ascii := [LF].

(** The critical section of the tool for [argv[2] = operation]: the new
    state and the text printed. *)
Definition operate (operation : list ascii) (shm : car_shared_mem)
  : car_shared_mem * list ascii :=
  if strcmp operation (lit "open") =? 0 then (set_open_button 1 shm, [])
  else if strcmp operation (lit "close") =? 0 then (set_close_button 1 shm, [])
  else if strcmp operation (lit "stop") =? 0 then (set_emergency_stop 1 shm, [])
  else if strcmp operation (lit "service_on") =? 0 then
    (set_emergency_mode 0 (set_individual_service_mode 1 shm), [])
  else if strcmp operation (lit "service_off") =? 0 then
    (set_individual_service_mode 0 shm, [])
  else if ((strcmp operation (lit "up") =? 0)
           || (strcmp operation (lit "down") =? 0))%bool then
    if individual_service_mode shm =? 0 then
      (shm, lit "Operation only allowed in service mode." ++ newline)
    else if negb (status_is "Closed" shm) then
      if (status_is "Open" shm || status_is "Opening" shm
          || status_is "Closing" shm)%bool
      then (shm, lit "Operation not allowed while doors are open." ++ newline)
      else (shm, lit "Operation not allowed while elevator is moving." ++ newline)
    else
      let current_info := parse_floor (current_floor shm) in
      if ok current_info then
        let direction := if strcmp operation (lit "up") =? 0 then 1 else -1 in
        let next_numeric := numeric current_info + direction in
        let next_numeric := if next_numeric =? 0 then direction else next_numeric in
        let next_floor :=
          if next_numeric <? 0 then floor_to_string next_numeric true
          else floor_to_string next_numeric false in
        (set_destination_floor (safe_copy next_floor MAX_FLOOR_LEN) shm, [])
      else (shm, [])
  else (shm, lit "Invalid operation." ++ newline).

End Internal.

(* ================================================================== *)
(** ** The dispatcher ([controller.c])                                *)
(* ================================================================== *)

(** The [int] values of the dispatcher (floor numbers in [-99, 999], a
  distance, a queue length) are far from the bounds of [int]; they are
  integers here, and [INT_MAX] is the constant of [limits.h]. *)
Module Controller.

Definition INT_MAX : Z := 2147483647.

(** The linked list [queue_head .. queue_tail] is the list of the [floor]
    arrays of its nodes, head first. *)
Record car_info : Type := mk_car_info {
  name : list ascii;                 (* char[MAX_CAR_NAME_LEN] *)
  lowest : list ascii;
  highest : list ascii;
  current_floor : list ascii;
  destination_floor : list ascii;
  status : list ascii;
  connected : Z;
  fd : Z;
  queue : list (list ascii)
}.

Definition set_queue (q : list (list ascii)) (car : car_info) : car_info :=
  mk_car_info (name car) (lowest car) (highest car) (current_floor car)
    (destination_floor car) (status car) (connected car) (fd car) q.

Definition get_car_position_numeric (car : car_info) : Z :=
  let current_info := parse_floor (current_floor car) in
  if ((strncmp (status car) (lit "Closing") MAX_STATUS_LEN =? 0)
      || (strncmp (status car) (lit "Between") MAX_STATUS_LEN =? 0))%bool
  then
    let dest_info := parse_floor (destination_floor car) in
    if (ok current_info && ok dest_info
        && negb (numeric current_info =? numeric dest_info))%bool
    then
      let direction := if numeric dest_info >? numeric current_info then 1 else -1 in
      numeric current_info + direction
    else numeric current_info
  else numeric current_info.

(** The sweep direction that [add_to_queue] computes. *)
Definition going_up_of (car : car_info) (floor_info_val : floor_info) : bool :=
  let current_info := parse_floor (current_floor car) in
  let dest_info := parse_floor (destination_floor car) in
  if (ok current_info && ok dest_info
      && negb (numeric current_info =? numeric dest_info))%bool
  then numeric dest_info >? numeric current_info
  else
    match queue car with
    | first :: _ =>
        let first_info := parse_floor first in
        if (ok first_info && ok current_info)%bool
        then numeric first_info >? numeric current_info
        else false
    | [] =>
        if ok current_info
        then numeric floor_info_val >? numeric current_info
        else false
    end.

(** The two insertion loops.  The pointers [prev] and [curr] are the
    split of the queue into the nodes up to [prev] and the nodes from
    [curr] on. *)
Fixpoint walk_up (skipped_first : bool) (car_pos new_floor : Z)
    (before after : list (list ascii)) : list (list ascii) * list (list ascii) :=
  match after with
  | [] => (before, [])
  | curr :: rest =>
      let curr_info := parse_floor curr in
      if negb (ok curr_info) then (before, after)
      else if numeric curr_info <? car_pos then (before, after)
      else if (if skipped_first
               then new_floor >? numeric curr_info
               else new_floor <? numeric curr_info)
      then (before, after)
      else walk_up skipped_first car_pos new_floor (before ++ [curr]) rest
  end.

Fixpoint walk_down (skipped_first : bool) (car_pos new_floor : Z)
    (before after : list (list ascii)) : list (list ascii) * list (list ascii) :=
  match after with
  | [] => (before, [])
  | curr :: rest =>
      let curr_info := parse_floor curr in
      if negb (ok curr_info) then (before, after)
      else if numeric curr_info >? car_pos then (before, after)
      else if (if skipped_first
               then new_floor <? numeric curr_info
               else new_floor >? numeric curr_info)
      then (before, after)
      else walk_down skipped_first car_pos new_floor (before ++ [curr]) rest
  end.

Definition add_to_queue (car : car_info) (floor : list ascii) : car_info :=
  if existsb (fun node => strncmp node floor MAX_FLOOR_LEN =? 0) (queue car)
  then car
  else
    let floor_info_val := parse_floor floor in
    if negb (ok floor_info_val) then car
    else
      let new_node := safe_copy floor MAX_FLOOR_LEN in
      match queue car with
      | [] => set_queue [new_node] car
      | head :: tail =>
          let car_pos := get_car_position_numeric car in
          let going_up := going_up_of car floor_info_val in
          let new_floor := numeric floor_info_val in
          let '(before, after) :=
            if going_up then
              if new_floor >? car_pos then
                let is_down_sweep :=
                  existsb (fun check =>
                             let check_info := parse_floor check in
                             (ok check_info && (numeric check_info >? car_pos)
                              && (new_floor <? numeric check_info))%bool)
                          (queue car) in
                if is_down_sweep then (queue car, [])
                else
                  let first_info := parse_floor head in
                  if (ok first_info && (numeric first_info >? car_pos))%bool then
                    if new_floor <? numeric first_info
                    then walk_up false car_pos new_floor [] (queue car)
                    else walk_up true car_pos new_floor [head] tail
                  else walk_up false car_pos new_floor [] (queue car)
              else (queue car, [])
            else
              if new_floor <? car_pos then
                let first_info := parse_floor head in
                if (ok first_info && (numeric first_info <? car_pos))%bool then
                  if new_floor >? numeric first_info
                  then walk_down false car_pos new_floor [] (queue car)
                  else walk_down true car_pos new_floor [head] tail
                else walk_down false car_pos new_floor [] (queue car)
              else (queue car, [])
          in
          set_queue (before ++ new_node :: after) car
      end.

Definition get_queue_front (car : car_info) : option (list ascii) :=
  match queue car with
  | [] => None
  | head :: _ => Some head
  end.

Definition calculate_eta (car : car_info) (target_floor : list ascii) : Z :=
  let target_info := parse_floor target_floor in
  if negb (ok target_info) then INT_MAX
  else
    let car_pos := get_car_position_numeric car in
    let distance := Z.abs (numeric target_info - car_pos) in
    let queue_len := Z.of_nat (length (queue car)) in
    distance + queue_len.

(** The loop of [find_best_car] from index [i] on; [cars] is
    [ctrl.cars[0 .. car_count)] and a pointer into it is an index. *)
Fixpoint find_best_car_loop (cars : list car_info) (source destination : list ascii)
    (todo : list car_info) (i : nat) (best_car : option nat) (best_eta : Z)
    : option nat :=
  match todo with
  | [] => best_car
  | car :: todo' =>
      if connected car =? 0
      then find_best_car_loop cars source destination todo' (S i) best_car best_eta
      else if (negb (is_valid_floor_range source (lowest car) (highest car))
               || negb (is_valid_floor_range destination (lowest car) (highest car)))%bool
      then find_best_car_loop cars source destination todo' (S i) best_car best_eta
      else
        let eta := calculate_eta car source in
        if ((eta <? best_eta)
            || ((eta =? best_eta)
                && match best_car with
                   | Some b =>
                       match nth_error cars b with
                       | Some best =>
                           strncmp (name car) (name best) MAX_CAR_NAME_LEN <? 0
                       | None => false
                       end
                   | None => false
                   end))%bool
        then find_best_car_loop cars source destination todo' (S i) (Some i) eta
        else find_best_car_loop cars source destination todo' (S i) best_car best_eta
  end.

Definition find_best_car (cars : list car_info) (source destination : list ascii)
  : option nat :=
  let source_info := parse_floor source in
  let dest_info := parse_floor destination in
  if (negb (ok source_info) || negb (ok dest_info))%bool then None
  else find_best_car_loop cars source destination cars 0 None INT_MAX.

(** [sscanf(message, "CALL %3s %3s", source, destination) == 2]. *)
Definition sscanf_call (message : list ascii) : option (list ascii * list ascii) :=
  match scanf_lit (lit "CALL") (cstr message) with
  | None => None
  | Some r =>
      match scanf_s 3 r with
      | None => None
      | Some (source, r') =>
          match scanf_s 3 r' with
          | None => None
          | Some (destination, _) => Some (source, destination)
          end
      end
  end.

Fixpoint replace_nth {A} (n : nat) (x : A) (l : list A) : list A :=
  match l, n with
  | [], _ => []
  | _ :: r, O => x :: r
  | y :: r, S n' => y :: replace_nth n' x r
  end.

(** [handle_call_request]: the car table afterwards and the messages
    handed to [write_message], each with its descriptor, in order. *)
Definition handle_call_request (cars : list car_info) (client_fd : Z)
    (message : list ascii) : list car_info * list (Z * list ascii) :=
  match sscanf_call message with
  | None => (cars, [(client_fd, lit "UNAVAILABLE")])
  | Some (source, destination) =>
      match find_best_car cars source destination with
      | Some i =>
          match nth_error cars i with
          | Some car =>
              let old_front_str :=
                match get_queue_front car with
                | Some old_front => cstr (safe_copy old_front MAX_FLOOR_LEN)
                | None => []
                end in
              let car := add_to_queue car source in
              let car := add_to_queue car destination in
              let floor_writes :=
                match get_queue_front car with
                | Some new_front =>
                    if (is_nul (hd NUL old_front_str)
                        || negb (strncmp old_front_str new_front MAX_FLOOR_LEN =? 0))%bool
                    then [(fd car, firstn 63 (lit "FLOOR " ++ cstr new_front))]
                    else []
                | None => []
                end in
              (replace_nth i car cars,
               floor_writes ++ [(client_fd, firstn 63 (lit "CAR " ++ cstr (name car)))])
          | None => (cars, [(client_fd, lit "UNAVAILABLE")])
          end
      | None => (cars, [(client_fd, lit "UNAVAILABLE")])
      end
  end.

End Controller.

(* ================================================================== *)
(** ** Shared helpers: message framing                                *)
(* ================================================================== *)

(** The socket is a byte stream.  What each call of [write] or [read]
  returns is decided outside the program: a script lists the results of
  the successive system calls, one entry per call.  A loop that needs
  another system call when the script is exhausted has not returned. *)
Module Framing.

Inductive sys_result : Type :=
| SysRetry                 (* -1 with errno EINTR, EAGAIN or EWOULDBLOCK *)
| SysFatal                 (* -1 with any other errno *)
| SysCount (n : nat).      (* n bytes offered by the kernel; 0 is end of file *)

Inductive write_result : Type :=
| WDone (wire : list ascii) (script : list sys_result)     (* returns 0 *)
| WFail (wire : list ascii) (script : list sys_result)     (* returns -1 *)
| WBlocked.

Inductive read_result : Type :=
| RDone (message : list ascii) (wire : list ascii) (script : list sys_result)
| RFail (wire : list ascii) (script : list sys_result)     (* returns NULL *)
| RBlocked.

(** [while (sent < total) { n = write(fd, ptr + sent, total - sent); ... }]
    with [unsent] the bytes from [ptr + sent] on and [wire] the bytes the
    socket has taken so far. *)
Fixpoint write_loop (script : list sys_result) (unsent wire : list ascii)
    {struct script} : write_result :=
  match unsent with
  | [] => WDone wire script
  | _ :: _ =>
      match script with
      | [] => WBlocked
      | SysRetry :: script' => write_loop script' unsent wire
      | SysFatal :: script' => WFail wire script'
      | SysCount n :: script' =>
          match Nat.min n (length unsent) with
          | O => WFail wire script'
          | k => write_loop script' (skipn k unsent) (wire ++ firstn k unsent)
          end
      end
  end.

(** The two bytes of [htons(v)] in memory order, for [v] cut to 16 bits. *)
Definition htons_bytes (v : Z) : list ascii :=
  let v16 := v mod 65536 in
  [ascii_of_N (Z.to_N (v16 / 256)); ascii_of_N (Z.to_N (v16 mod 256))].

(** [ntohs] of the two bytes read into [len]. *)
Definition ntohs_bytes (b : list ascii) : Z :=
  Z.of_N (N_of_ascii (hd NUL b)) * 256 + Z.of_N (N_of_ascii (hd NUL (tl b))).

Definition write_message (script : list sys_result) (message : list ascii)
    (wire : list ascii) : write_result :=
  let len := htons_bytes (Z.of_nat (strlen message)) in
  match write_loop script len wire with
  | WDone wire script => write_loop script (cstr message) wire
  | other => other
  end.

(** [while (received < total) { n = read(fd, ptr + received, total - received); ... }]
    with [wanted = total - received], [wire] the bytes not yet read from
    the socket and [buf] the bytes received so far. *)
Fixpoint read_loop (script : list sys_result) (wanted : nat)
    (wire buf : list ascii) {struct script} : read_result :=
  match wanted with
  | O => RDone buf wire script
  | S _ =>
      match script with
      | [] => RBlocked
      | SysRetry :: script' => read_loop script' wanted wire buf
      | SysFatal :: script' => RFail wire script'
      | SysCount n :: script' =>
          match Nat.min n (Nat.min wanted (length wire)) with
          | O => RFail wire script'
          | k => read_loop script' (wanted - k) (skipn k wire) (buf ++ firstn k wire)
          end
      end
  end.

(** [read_message]; [alloc_ok] tells whether [malloc] returns memory.  The
    message comes back as the [len] bytes read, before the terminator that
    [read_message] stores after them. *)
Definition read_message (script : list sys_result) (alloc_ok : bool)
    (wire : list ascii) : read_result :=
  match read_loop script 2 wire [] with
  | RDone len_bytes wire script =>
      let len := ntohs_bytes len_bytes in
      if negb alloc_ok then RFail wire script
      else read_loop script (Z.to_nat len) wire []
  | other => other
  end.




(** The bytes on the wire for the string [x]. *)
Definition frame (x : list ascii) : list ascii :=
htons_bytes (Z.of_nat (length x)) ++ x.

End Framing.

(* ================================================================== *)
(** ** The hall-call client ([call.c])                                *)
(* ================================================================== *)

Module Call.

(** What the network gives the client: the results of [socket],
    [inet_pton], [connect] and [write_message], and the message that
    [read_message] returns, if any. *)
Record environment : Type := mk_environment {
  socket_ret : Z;
  inet_pton_ret : Z;
  connect_ret : Z;
  write_message_ret : Z;
  response : option (list ascii)
}.

Record outcome : Type := mk_outcome {
  exit_code : Z;
  stdout : list ascii;
  stderr : list ascii;
  written : list (list ascii)     (* the messages handed to write_message *)
}.

Definition unable : list ascii :=
  lit "Unable to connect to elevator system." ++ [LF].

Definition sorry : list ascii :=
  lit "Sorry, no car is available to take this request." ++ [LF].

(** [sscanf(response, "CAR %31s", car_name) == 1]. *)
Definition sscanf_car (response : list ascii) : option (list ascii) :=
  match scanf_lit (lit "CAR") (cstr response) with
  | None => None
  | Some r =>
      match scanf_s 31 r with
      | None => None
      | Some (car_name, _) => Some car_name
      end
  end.

Definition main (argv : list (list ascii)) (env : environment) : outcome :=
  match argv with
  | [prog; source; destination] =>
      let source_info := parse_floor source in
      let dest_info := parse_floor destination in
      if (negb (ok source_info) || negb (ok dest_info))%bool then
        mk_outcome 1 (lit "Invalid floor(s) specified." ++ [LF]) [] []
      else if strcmp source destination =? 0 then
        mk_outcome 1 (lit "You are already on that floor!" ++ [LF]) [] []
      else if socket_ret env <? 0 then mk_outcome 1 unable [] []
      else if inet_pton_ret env <=? 0 then mk_outcome 1 unable [] []
      else if connect_ret env <? 0 then mk_outcome 1 unable [] []
      else
        let call_msg :=
          firstn 31 (lit "CALL " ++ cstr source ++ lit " " ++ cstr destination) in
        if write_message_ret env <? 0 then mk_outcome 1 unable [] [call_msg]
        else
          match response env with
          | None => mk_outcome 1 unable [] [call_msg]
          | Some response =>
              let text :=
                if strncmp response (lit "CAR ") 4 =? 0 then
                  match sscanf_car response with
                  | Some car_name =>
                      lit "Car " ++ car_name ++ lit " is arriving." ++ [LF]
                  | None => sorry
                  end
                else if strcmp response (lit "UNAVAILABLE") =? 0 then sorry
                else sorry in
              mk_outcome 0 text [] [call_msg]
          end
  | _ =>
      mk_outcome 1 []
        (lit "Usage: " ++ cstr (hd [] argv) ++ lit " <source> <destination>" ++ [LF])
        []
  end.

End Call.

(* ================================================================== *)
(** ** The processes that share one car's record                      *)
(* ================================================================== *)

(** One event is one critical section of one process attached to the
    record.  The call client never maps the record. *)
Module System.

Inductive event : Type :=
  | CarFirst (dwell_over : bool)          (* main loop, first section *)
  | CarSecond (p : Car.pending)           (* main loop, after the delay *)
  | NetMessage (msg : list ascii)         (* network thread, inbound message *)
  | NetHeartbeat                          (* network thread, heartbeat *)
  | SafetyCycle                           (* safety monitor *)
  | InternalOp (operation : list ascii)   (* in-car button tool *)
  | CallClient.                           (* hall-call client *)

Definition step (lowest highest : list ascii) (e : event)
      (shm : car_shared_mem) : car_shared_mem :=
    match e with
    | CarFirst dwell_over => fst (Car.iteration_first lowest highest dwell_over shm)
    | CarSecond p => Car.iteration_second lowest highest p shm
    | NetMessage msg => Car.handle_message msg shm
    | NetHeartbeat => fst (Car.heartbeat shm)
    | SafetyCycle => Safety.cycle shm
    | InternalOp operation => fst (Internal.operate operation shm)
    | CallClient => shm
    end.

(** The one event that writes 0 to [emergency_mode]. *)
Definition clears_emergency (e : event) : bool :=
  match e with
  | InternalOp operation => strcmp operation (lit "service_on") =? 0
  | _ => false
  end.

Fixpoint run (lowest highest : list ascii) (es : list event)
      (shm : car_shared_mem) : car_shared_mem :=
    match es with
    | [] => shm
    | e :: es' => run lowest highest es' (step lowest highest e shm)
    end.

End System.

(* ================================================================== *)
(** ** What the specification says, in its own words                  *)
(* ================================================================== *)

Module Spec.

  (** The string held in [buf] is [text]. *)
Definition same_text (buf : list ascii) (text : string) : bool :=
    if list_eq_dec ascii_dec (cstr buf) (lit text) then true else false.

  (** The integer of a floor label. *)
Definition floor_number (label : list ascii) : Z := numeric (parse_floor label).

Definition valid_label (label : list ascii) : Prop := ok (parse_floor label) = true.

  (** The label of an integer: basement labels for negative integers. *)
Definition label_of (n : Z) : list ascii := floor_to_string n (n <? 0).

  (** Reading back the label of [n] gives [n]. *)
Definition label_round_trips (n : Z) : bool :=
  let info := parse_floor (label_of n) in
  (ok info && (numeric info =? n) && Bool.eqb (is_basement info) (n <? 0))%bool.

(** The integers from -99 to 999. *)
Definition floor_numbers : list Z :=
  map (fun k => Z.of_nat k - 99) (seq 0 1099).

(** "returns current + sign(destination - current) mapped back to a label
      and bounded-check against [lo, hi]": [None] is the error. *)
Definition next_toward (current destination lo hi : list ascii)
    : option (list ascii) :=
    let n := floor_number current
             + Z.sgn (floor_number destination - floor_number current) in
    if ((floor_number lo <=? n) && (n <=? floor_number hi))%bool
    then Some (label_of n)
    else None.


  (** "If the car's current status is Closing or Between and current is not
      destination, the effective position is current + sign(destination -
      current); otherwise it is current." *)
Definition effective_position (car : Controller.car_info) : Z :=
    let current := floor_number (Controller.current_floor car) in
    let destination := floor_number (Controller.destination_floor car) in
    if ((same_text (Controller.status car) "Closing"
         || same_text (Controller.status car) "Between")
        && negb (current =? destination))%bool
    then current + Z.sgn (destination - current)
    else current.

  (** "ETA: |target - effective_position| + queue_length." *)
Definition eta (car : Controller.car_info) (target : list ascii) : Z :=
    Z.abs (floor_number target - effective_position car)
    + Z.of_nat (length (Controller.queue car)).

Definition in_range (label : list ascii) (car : Controller.car_info) : Prop :=
    floor_number (Controller.lowest car) <= floor_number label
    /\ floor_number label <= floor_number (Controller.highest car).

  (** "A car is a candidate only if it is connected and both src and dst
      are in its [lowest, highest] range." *)
Definition candidate (src dst : list ascii) (car : Controller.car_info) : Prop :=
    Controller.connected car <> 0 /\ in_range src car /\ in_range dst car.

  (** "On tie, the car with the lexicographically smaller name wins": the
    order on (ETA, name) pairs, the names compared as C strings over the
    whole name field. *)
Definition beats_or_ties (src : list ascii) (a b : Controller.car_info) : Prop :=
  eta a src < eta b src
  \/ (eta a src = eta b src
      /\ strncmp (Controller.name a) (Controller.name b) MAX_CAR_NAME_LEN <= 0).

(** The dispatcher was reached: the connection was set up, the request was
    written and an answer came back. *)
Definition dispatcher_reached (env : Call.environment) : Prop :=
  0 <= Call.socket_ret env
  /\ 0 < Call.inet_pton_ret env
  /\ 0 <= Call.connect_ret env
  /\ 0 <= Call.write_message_ret env
  /\ Call.response env <> None.

(** A car name as the dispatcher sends it: at most 31 characters, none of
    them white space or a terminator, and at least one. *)
Definition car_name (name : list ascii) : Prop :=
  name <> []
  /\ (length name <= 31)%nat
  /\ Forall (fun c => isspace c = false /\ is_nul c = false) name.

(** The reply names the car [name]: it reads [CAR <name>], where the name
    is the first word after [CAR] and its blank, cut at 31 characters.
    [gap] is further white space before the name and [rest] what follows
    it. *)
Definition car_reply (reply name : list ascii) : Prop :=
  exists gap rest,
    cstr reply = lit "CAR " ++ gap ++ name ++ rest
    /\ Forall (fun c => isspace c = true) gap
    /\ name <> []
    /\ Forall (fun c => isspace c = false) name
    /\ (length name <= 31)%nat
    /\ (length name = 31%nat
        \/ match rest with [] => True | c :: _ => isspace c = true end).

(** A car record as the data model describes it: its four floor fields
    hold floor labels, and its queue is short enough for the ETA to be an
    [int]. *)
Definition well_formed (car : Controller.car_info) : Prop :=
  valid_label (Controller.lowest car)
  /\ valid_label (Controller.highest car)
  /\ valid_label (Controller.current_floor car)
  /\ valid_label (Controller.destination_floor car)
  /\ Z.of_nat (length (Controller.queue car)) < Controller.INT_MAX - 1100.

End Spec.

(* ================================================================== *)
(** ** The selection loop, seen from outside                          *)
(* ================================================================== *)

Module Selection.

(** The two tests of the loop body of [find_best_car] that skip a car. *)
Definition passes_filter (source destination : list ascii)
    (car : Controller.car_info) : bool :=
  (negb (Controller.connected car =? 0)
   && is_valid_floor_range source (Controller.lowest car) (Controller.highest car)
   && is_valid_floor_range destination (Controller.lowest car) (Controller.highest car))%bool.

(** The comparison of the loop body, as an order on cars. *)
Definition preferred (source : list ascii) (a b : Controller.car_info) : Prop :=
  Controller.calculate_eta a source < Controller.calculate_eta b source
  \/ (Controller.calculate_eta a source = Controller.calculate_eta b source
      /\ strncmp (Controller.name a) (Controller.name b) MAX_CAR_NAME_LEN <= 0).

(** What the loop knows about [best_car] and [best_eta] once it has gone
    through the cars in [seen]. *)
Definition loop_state (cars : list Controller.car_info)
    (source destination : list ascii) (seen : list Controller.car_info)
    (best_car : option nat) (best_eta : Z) : Prop :=
  match best_car with
  | None =>
      best_eta = Controller.INT_MAX
      /\ forall c, In c seen -> passes_filter source destination c = false
  | Some b =>
      exists best,
        nth_error cars b = Some best
        /\ passes_filter source destination best = true
        /\ best_eta = Controller.calculate_eta best source
        /\ forall c, In c seen -> passes_filter source destination c = true ->
                     preferred source best c
  end.

End Selection.

(* ================================================================== *)
(** ** Concrete states used below                                     *)
(* ================================================================== *)

Module Scenarios.

(** A freshly created car on floors 1 to 10, delay irrelevant. *)
Definition fresh_car : car_shared_mem := create_shared_memory (lit "1").

(** The same car once the heartbeat counter stands at 2: monitor attached,
    one network cycle done, no emergency. *)
Definition heartbeat_two : car_shared_mem := set_safety_system 2 fresh_car.

(** A car in emergency mode, doors closed. *)
Definition in_emergency : car_shared_mem :=
  set_emergency_mode 1 (set_safety_system 3 fresh_car).

(** A car between floors 1 and 3. *)
Definition moving_car : car_shared_mem :=
  set_safety_system 1
    (copy_status "Between"
       (set_destination_floor (safe_copy (lit "3") MAX_FLOOR_LEN) fresh_car)).


(** A network on which the dispatcher answers [reply]. *)
Definition answering (reply : string) : Call.environment :=
  Call.mk_environment 3 1 0 0 (Some (lit reply)).

(** A car whose doors are closing on an obstruction. *)
Definition obstructed_car : car_shared_mem :=
  mk_shm (safe_copy (lit "1") MAX_FLOOR_LEN) (safe_copy (lit "1") MAX_FLOOR_LEN)
         (safe_copy (lit "Closing") MAX_STATUS_LEN) 0 0 1 1 0 0 0 0.

(** A closed car whose destination field holds a string that is no floor. *)
Definition bad_destination : car_shared_mem :=
  set_destination_floor (safe_copy (lit "X9") MAX_FLOOR_LEN) fresh_car.

(** The dispatcher's record of a car at 1 moving to 10 with 10 queued. *)
Definition rising_car : Controller.car_info :=
  Controller.mk_car_info
    (safe_copy (lit "A") MAX_CAR_NAME_LEN)
    (safe_copy (lit "1") MAX_FLOOR_LEN) (safe_copy (lit "10") MAX_FLOOR_LEN)
    (safe_copy (lit "1") MAX_FLOOR_LEN) (safe_copy (lit "10") MAX_FLOOR_LEN)
    (safe_copy (lit "Between") MAX_STATUS_LEN)
    1 5 [safe_copy (lit "10") MAX_FLOOR_LEN].

(** An idle connected car [name] serving [lo .. hi], standing at [at_floor]. *)
Definition idle_car (name lo hi at_floor : string) (fd : Z) : Controller.car_info :=
  Controller.mk_car_info
    (safe_copy (lit name) MAX_CAR_NAME_LEN)
    (safe_copy (lit lo) MAX_FLOOR_LEN) (safe_copy (lit hi) MAX_FLOOR_LEN)
    (safe_copy (lit at_floor) MAX_FLOOR_LEN) (safe_copy (lit at_floor) MAX_FLOOR_LEN)
    (safe_copy (lit "Closed") MAX_STATUS_LEN)
    1 fd [].

(** Cars A at 1 and B at 5, both serving 1 to 10. *)
Definition two_cars : list Controller.car_info :=
  [idle_car "A" "1" "10" "1" 4; idle_car "B" "1" "10" "5" 5].

End Scenarios.
Import Scenarios.

(* ================================================================== *)
(** ** The dispatcher, continued: car sessions ([controller.c])       *)
(* ================================================================== *)

Module Dispatcher.

Import Controller.

Definition MAX_CARS : nat := 32.

Definition set_connected (v : Z) (car : car_info) : car_info :=
  mk_car_info (name car) (lowest car) (highest car) (current_floor car)
    (destination_floor car) (status car) v (fd car) (queue car).

(** [free_queue(car->queue_head); car->queue_head = car->queue_tail = NULL]. *)
Definition flush_queue (car : car_info) : car_info := set_queue [] car.

Definition pop_queue (car : car_info) : car_info :=
  match queue car with
  | [] => car
  | _ :: rest => set_queue rest car
  end.

(** [sscanf(message, "STATUS %7s %3s %3s", status, current, dest) == 3]. *)
Definition sscanf_status (message : list ascii)
  : option (list ascii * list ascii * list ascii) :=
  match scanf_lit (lit "STATUS") (cstr message) with
  | None => None
  | Some r =>
      match scanf_s 7 r with
      | None => None
      | Some (status, r1) =>
          match scanf_s 3 r1 with
          | None => None
          | Some (current, r2) =>
              match scanf_s 3 r2 with
              | None => None
              | Some (dest, _) => Some (status, current, dest)
              end
          end
      end
  end.

(** The three [strncpy] of a STATUS message into the car record. *)
Definition store_status (status current dest : list ascii) (car : car_info)
  : car_info :=
  mk_car_info (name car) (lowest car) (highest car)
    (safe_copy current MAX_FLOOR_LEN) (safe_copy dest MAX_FLOOR_LEN)
    (safe_copy status MAX_STATUS_LEN) (connected car) (fd car) (queue car).

(** [handle_car_message]: the car record afterwards and the messages handed
    to [write_message], each with its descriptor. *)
Definition handle_car_message (car : car_info) (message : list ascii)
  : car_info * list (Z * list ascii) :=
  if strncmp message (lit "STATUS ") 7 =? 0 then
    match sscanf_status message with
    | Some (status, current, dest) =>
        let car := store_status status current dest car in
        match get_queue_front car with
        | Some front =>
            if ((strncmp (Controller.status car) (lit "Opening") MAX_STATUS_LEN =? 0)
                && (strncmp (current_floor car) front MAX_FLOOR_LEN =? 0))%bool
            then
              let car := pop_queue car in
              match get_queue_front car with
              | Some front => (car, [(fd car, firstn 63 (lit "FLOOR " ++ cstr front))])
              | None => (car, [])
              end
            else (car, [])
        | None => (car, [])
        end
    | None => (car, [])
    end
  else if strcmp message (lit "EMERGENCY") =? 0
  then (flush_queue (set_connected 0 car), [])
  else if strcmp message (lit "INDIVIDUAL SERVICE") =? 0
  then (flush_queue (set_connected 0 car), [])
  else (car, []).

(** [sscanf(message, "CAR %31s %3s %3s", name, lowest, highest) == 3]. *)
Definition sscanf_registration (message : list ascii)
  : option (list ascii * list ascii * list ascii) :=
  match scanf_lit (lit "CAR") (cstr message) with
  | None => None
  | Some r =>
      match scanf_s 31 r with
      | None => None
      | Some (name, r1) =>
          match scanf_s 3 r1 with
          | None => None
          | Some (lowest, r2) =>
              match scanf_s 3 r2 with
              | None => None
              | Some (highest, _) => Some (name, lowest, highest)
              end
          end
      end
  end.

(** The search for a car of that name in [ctrl.cars[i ..]]. *)
Fixpoint find_car (cars : list car_info) (name : list ascii) (i : nat)
  : option nat :=
  match cars with
  | [] => None
  | c :: rest =>
      if strncmp (Controller.name c) name MAX_CAR_NAME_LEN =? 0 then Some i
      else find_car rest name (S i)
  end.

(** The record that registration writes into its slot. *)
Definition fresh_record (name lowest highest : list ascii) (client_fd : Z)
  : car_info :=
  mk_car_info (safe_copy name MAX_CAR_NAME_LEN)
    (safe_copy lowest MAX_FLOOR_LEN) (safe_copy highest MAX_FLOOR_LEN)
    (safe_copy lowest MAX_FLOOR_LEN) (safe_copy lowest MAX_FLOOR_LEN)
    (safe_copy (lit "Closed") MAX_STATUS_LEN)
    1 client_fd [].

(** The registration branch of [client_handler] on its first message: the
    car table afterwards and the slot of the car, if it got one. *)
Definition register (cars : list car_info) (client_fd : Z) (message : list ascii)
  : list car_info * option nat :=
  if strncmp message (lit "CAR ") 4 =? 0 then
    match sscanf_registration message with
    | Some (name, lowest, highest) =>
        match find_car cars name 0 with
        | Some i =>
            (replace_nth i (fresh_record name lowest highest client_fd) cars, Some i)
        | None =>
            if Nat.ltb (length cars) MAX_CARS
            then (cars ++ [fresh_record name lowest highest client_fd],
                  Some (length cars))
            else (cars, None)
        end
    | None => (cars, None)
    end
  else (cars, None).

(** [is_direction_compatible], which no caller uses. *)
Definition is_direction_compatible (car : car_info) (source destination : list ascii)
  : bool :=
  let source_info := parse_floor source in
  let dest_info := parse_floor destination in
  if (negb (ok source_info) || negb (ok dest_info))%bool then false
  else
    let passenger_direction :=
      if numeric dest_info >? numeric source_info then 1 else -1 in
    let car_pos := get_car_position_numeric car in
    if passenger_direction =? 1 then car_pos <=? numeric source_info
    else car_pos >=? numeric source_info.

End Dispatcher.

(* ================================================================== *)
(** ** The car's outbound messages ([car.c])                          *)
(* ================================================================== *)

Module CarNet.

Definition CAR_MESSAGE_MAX_LEN : nat := 64.

(** [snprintf(car_msg, sizeof(car_msg), "CAR %s %s %s", ...)]. *)
Definition registration_message (name lowest highest : list ascii) : list ascii :=
  firstn (CAR_MESSAGE_MAX_LEN - 1)
    (lit "CAR " ++ cstr name ++ lit " " ++ cstr lowest ++ lit " " ++ cstr highest).

(** [snprintf(status_msg, sizeof(status_msg), "STATUS %s %s %s", ...)]. *)
Definition status_message (shm : car_shared_mem) : list ascii :=
  firstn (CAR_MESSAGE_MAX_LEN - 1)
    (lit "STATUS " ++ cstr (Shm.status shm) ++ lit " "
     ++ cstr (Shm.current_floor shm) ++ lit " "
     ++ cstr (Shm.destination_floor shm)).

(** The deduplication of status messages: whether to send, and the new
    [last_sent_status]. *)
Definition status_to_send (status_msg last_sent_status : list ascii)
  : bool * list ascii :=
  if negb (strcmp status_msg last_sent_status =? 0)
  then (true, safe_copy status_msg CAR_MESSAGE_MAX_LEN)
  else (false, last_sent_status).

End CarNet.

(* ================================================================== *)
(** ** A car and the dispatcher together                              *)
(* ================================================================== *)

Module Sessions.

(** What a car started as [car "A B" 1 10 <delay>] sends on connecting:
    its range is accepted by the car's own check, and its name has a blank
    in it. *)
Definition blank_in_name : list ascii :=
  CarNet.registration_message (lit "A B") (lit "1") (lit "10").

(** The dispatcher's table once that car has registered, as the first car,
    on descriptor 4. *)
Definition after_registration : list Controller.car_info :=
  fst (Dispatcher.register [] 4 blank_in_name).

End Sessions.

(* ================================================================== *)
(** ** Shapes of data used in the statements below                    *)
(* ================================================================== *)

Module Shape.

(** A string that [%Ns] reads back whole: at least one and at most [width]
    characters, none of them white space or a terminator. *)
Definition word (width : nat) (s : list ascii) : Prop :=
  s <> []
  /\ (length s <= width)%nat
  /\ Forall (fun c => isspace c = false /\ is_nul c = false) s.

(** The floor numbers that have a label. *)
Definition is_floor_number (n : Z) : bool :=
  ((-99 <=? n) && (n <=? 999) && negb (n =? 0))%bool.

(** The floor number that [next_floor_towards] computes: one up when the
    destination is above, one down in every other case. *)
Definition stepped (current destination : list ascii) : Z :=
  numeric (parse_floor current)
  + (if numeric (parse_floor destination) >? numeric (parse_floor current)
     then 1 else -1).

(** The label of a floor number is a string without terminator. *)
Definition label_is_text (n : Z) : bool :=
  if list_eq_dec ascii_dec (cstr (floor_to_string n (n <? 0)))
                           (floor_to_string n (n <? 0))
  then true else false.

(** [k] travel delays of the main loop in a row, with no other process
    writing in between. *)
Definition travel (lowest highest : list ascii) (service_mode : Z) (k : nat)
    (shm : car_shared_mem) : car_shared_mem :=
  Nat.iter k (Car.iteration_second lowest highest (Car.AfterBetween service_mode)) shm.

(** Between floors, heading for [destination], standing at its floor or at
    the one below. *)
Definition circling (destination : list ascii) (shm : car_shared_mem) : Prop :=
  let m := numeric (parse_floor destination) in
  status_is "Between" shm = true
  /\ Shm.destination_floor shm = destination
  /\ (cstr (Shm.current_floor shm) = floor_to_string m (m <? 0)
      \/ cstr (Shm.current_floor shm) = floor_to_string (m - 1) (m - 1 <? 0)).

(** The strings queued for a car, as strings. *)
Definition queue_text (car : Controller.car_info) : list (list ascii) :=
  map cstr (Controller.queue car).

(** No floor twice, and nothing queued that is no floor. *)
Definition queue_ok (car : Controller.car_info) : Prop :=
  NoDup (queue_text car)
  /\ Forall (fun node => ok (parse_floor node) = true) (Controller.queue car).

(** The test at the head of [add_to_queue]: some node of the queue agrees
    with [floor] on the characters that [strncmp] compares. *)
Definition queued (floor : list ascii) (car : Controller.car_info) : Prop :=
  exists node,
    In node (Controller.queue car)
    /\ firstn MAX_FLOOR_LEN (cstr node) = firstn MAX_FLOOR_LEN (cstr floor).


(** A record on which the monitor has nothing to do. *)
Definition settled (shm : car_shared_mem) : Prop :=
  safety_system shm <> 0
  /\ ((door_obstruction shm =? 1) && status_is "Closing" shm)%bool = false
  /\ (emergency_stop shm = 1 -> emergency_mode shm <> 0)
  /\ (overload shm = 1 -> emergency_mode shm <> 0)
  /\ (emergency_mode shm <> 1 -> Safety.perform_safety_validation shm = true).

(** The status names of a car that is not between floors. *)
Definition door_names : list string :=
  ["Opening"; "Open"; "Closing"; "Closed"]%string.

(** The status field of [after] is that of [before] or holds one of the
    door names. *)
Definition door_status_or_same (before after : car_shared_mem) : Prop :=
  Shm.status after = Shm.status before
  \/ exists n, In n door_names
               /\ Shm.status after = safe_copy (lit n) MAX_STATUS_LEN.

(** The two events that write the heartbeat counter. *)
Definition beats (e : System.event) : bool :=
  match e with
  | System.NetHeartbeat | System.SafetyCycle => true
  | _ => false
  end.

(** The fields of the shared record that only their owner writes. *)
Definition same_sensors (a b : car_shared_mem) : Prop :=
  door_obstruction a = door_obstruction b
  /\ overload a = overload b
  /\ individual_service_mode a = individual_service_mode b.

End Shape.

(* ================================================================== *)
(** * Properties                                                      *)
(* ================================================================== *)

(** ** The embedding on small inputs *)

Example parse_7 : parse_floor (lit "7") = mk_floor_info true 7 false.
Proof. reflexivity. Qed.

Example parse_B12 : parse_floor (lit "B12") = mk_floor_info true (-12) true.
Proof. reflexivity. Qed.

Example parse_rejects :
  map (fun s => ok (parse_floor (lit s))) ["07"; "B0"; "B07"; "1000"; "B100"; "0"; "B"; "-5"; "1a"]%string
  = [false; false; false; false; false; false; false; false; false].
Proof. reflexivity. Qed.

(** [strtol] skips white space and accepts a sign, and so does
    [parse_floor]. *)
Example parse_signed : parse_floor (lit "+5") = mk_floor_info true 5 false.
Proof. reflexivity. Qed.

Example format_floors :
  floor_to_string (-9) true = lit "B9" /\ floor_to_string 120 false = lit "120"
  /\ floor_to_string 0 false = [] /\ floor_to_string (-100) true = [].
Proof. repeat split; reflexivity. Qed.

Example copy_status_bytes :
  safe_copy (lit "Open") MAX_STATUS_LEN
  = ["O"; "p"; "e"; "n"; NUL; NUL; NUL; NUL]%char.
Proof. reflexivity. Qed.

(** Scenario 6 of the specification: in service mode at floor 1, [down]
    sets the destination to B1. *)
Example service_down_from_1 :
  cstr (Shm.destination_floor
          (fst (Internal.operate (lit "down")
                  (set_individual_service_mode 1 fresh_car))))
  = lit "B1".
Proof. reflexivity. Qed.

(** A fresh car passes the monitor's validation. *)
Example fresh_car_is_consistent :
  Safety.perform_safety_validation fresh_car = true.
Proof. reflexivity. Qed.

(** Scenario 2 of the specification, at the dispatcher: [CALL 6 8] with A
    at 1 and B at 5 sends [FLOOR 6] to B and answers [CAR B]. *)
Example call_6_8 :
  snd (Controller.handle_call_request two_cars 9 (lit "CALL 6 8"))
  = [(5, lit "FLOOR 6"); (9, lit "CAR B")].
Proof. reflexivity. Qed.

(** ** C strings *)

Section CStrFacts.

Lemma uchar_inj (a b : ascii) : uchar a - uchar b = 0 -> a = b.
Proof.
    unfold uchar. intros H.
    assert (E : nat_of_ascii a = nat_of_ascii b) by lia.
    rewrite <- (ascii_nat_embedding a), <- (ascii_nat_embedding b).
    now rewrite E.
Qed.

Lemma is_nul_true (c : ascii) : is_nul c = true <-> c = NUL.
Proof. unfold is_nul. apply Ascii.eqb_eq. Qed.

Lemma is_nul_false (c : ascii) : is_nul c = false <-> c <> NUL.
Proof. unfold is_nul. apply Ascii.eqb_neq. Qed.

  (** [strncmp] answers 0 exactly when the two strings agree on their first
      [n] characters. *)
Lemma strncmp_zero_iff (n : nat) :
    forall a b, strncmp a b n = 0 <-> firstn n (cstr a) = firstn n (cstr b).
Proof.
    induction n as [|n IH]; intros a b; [simpl; tauto|].
    destruct a as [|ca a], b as [|cb b]; cbn [strncmp hd tl cstr].
    - rewrite Ascii.eqb_refl. replace (is_nul NUL) with true by reflexivity. tauto.
    - destruct (Ascii.eqb_spec NUL cb) as [<-|Hne].
      + replace (is_nul NUL) with true by reflexivity. tauto.
      + assert (Hcb : is_nul cb = false) by (apply is_nul_false; congruence).
        rewrite Hcb. cbn [firstn].
        split; [intros H; apply uchar_inj in H; congruence|discriminate].
    - destruct (Ascii.eqb_spec ca NUL) as [->|Hne].
      + replace (is_nul NUL) with true by reflexivity. tauto.
      + assert (Hca : is_nul ca = false) by (apply is_nul_false; congruence).
        rewrite Hca. cbn [firstn].
        split; [intros H; apply uchar_inj in H; congruence|discriminate].
    - destruct (Ascii.eqb_spec ca cb) as [<-|Hne].
      + destruct (is_nul ca) eqn:Hca; [tauto|].
        cbn [firstn]. rewrite IH. split; [congruence|intros H; now inversion H].
      + split; [intros H; apply uchar_inj in H; congruence|].
        destruct (is_nul ca) eqn:Hca, (is_nul cb) eqn:Hcb; cbn [firstn];
          try discriminate.
        * apply is_nul_true in Hca, Hcb. congruence.
        * intros H. inversion H. congruence.
Qed.

  (** When the second string is shorter than the bound, [strncmp] is
      equality of strings. *)
Lemma strncmp_zero_short (n : nat) (a b : list ascii) :
    (length (cstr b) < n)%nat ->
    strncmp a b n = 0 <-> cstr a = cstr b.
Proof.
    intros Hlen. rewrite strncmp_zero_iff. split.
    - intros H.
      assert (Hb : firstn n (cstr b) = cstr b) by (apply firstn_all2; lia).
      rewrite Hb in H.
      assert (Hl : (length (firstn n (cstr a)) < n)%nat) by (rewrite H; exact Hlen).
      rewrite length_firstn in Hl.
      rewrite <- H. symmetry. apply firstn_all2. lia.
    - intros ->. reflexivity.
Qed.

Lemma strcmp_zero_iff (a b : list ascii) : strcmp a b = 0 <-> cstr a = cstr b.
Proof.
    unfold strcmp. rewrite strncmp_zero_iff.
    assert (La : forall l, (length (cstr l) <= length l)%nat).
    { induction l as [|c l IHl]; simpl; [lia|]. destruct (is_nul c); simpl; lia. }
    pose proof (La a). pose proof (La b).
    rewrite !firstn_all2 by lia. tauto.
Qed.

Lemma cstr_idem (a : list ascii) : cstr (cstr a) = cstr a.
Proof.
    induction a as [|c a IH]; simpl; [reflexivity|].
    destruct (is_nul c) eqn:E; simpl; [reflexivity|]. now rewrite E, IH.
Qed.

End CStrFacts.

(** ** The status field *)

Section StatusFacts.

  (** The status tests of the sources compare against literals shorter than
      the field, so they test the string in the field. *)
Lemma status_is_text (name : string) (shm : car_shared_mem) :
    cstr (lit name) = lit name ->
    (length (lit name) < MAX_STATUS_LEN)%nat ->
    status_is name shm = true <-> cstr (Shm.status shm) = lit name.
Proof.
    intros Hc Hl. unfold status_is. rewrite Z.eqb_eq.
    rewrite strncmp_zero_short by (rewrite Hc; exact Hl).
    now rewrite Hc.
Qed.

Lemma status_is_Closing shm :
    status_is "Closing" shm = true <-> cstr (Shm.status shm) = lit "Closing".
Proof. apply status_is_text; [reflexivity|simpl; unfold MAX_STATUS_LEN; lia]. Qed.



End StatusFacts.

(** ** The safety monitor *)

(** Projections of updated records. *)
Ltac shm_simpl :=
  unfold status_is, copy_status in *;
  cbn [Shm.current_floor Shm.destination_floor Shm.status open_button
       close_button safety_system door_obstruction overload emergency_stop
       individual_service_mode emergency_mode
       set_current_floor set_destination_floor set_status set_open_button
       set_close_button set_safety_system set_emergency_stop
       set_individual_service_mode set_emergency_mode
       fst snd] in *.

Ltac break_if :=
  match goal with
  | |- context [if ?c then _ else _] => destruct c eqn:?
  end.

Ltac break_ifs := repeat (shm_simpl; break_if); shm_simpl.

(** Contradictory tests on integers. *)
Ltac bool_facts :=
  repeat match goal with
         | H : (_ && _)%bool = true |- _ => apply andb_true_iff in H; destruct H
         | H : (_ || _)%bool = false |- _ => apply orb_false_iff in H; destruct H
         | H : negb _ = true |- _ => apply negb_true_iff in H
         | H : negb _ = false |- _ => apply negb_false_iff in H
         | H : (_ =? _) = true |- _ => apply Z.eqb_eq in H
         | H : (_ =? _) = false |- _ => apply Z.eqb_neq in H
         | H : (_ <? _) = true |- _ => apply Z.ltb_lt in H
         | H : (_ <? _) = false |- _ => apply Z.ltb_ge in H
         | H : (_ >? _) = true |- _ => rewrite Z.gtb_ltb in H
         | H : (_ >? _) = false |- _ => rewrite Z.gtb_ltb in H
         | H : (_ >=? _) = true |- _ => rewrite Z.geb_leb in H
         | H : (_ >=? _) = false |- _ => rewrite Z.geb_leb in H
         | H : (_ <=? _) = true |- _ => apply Z.leb_le in H
         | H : (_ <=? _) = false |- _ => apply Z.leb_gt in H
         end.

Ltac finish_ifs :=
  try reflexivity; try (exfalso; bool_facts; (lia || congruence || discriminate)).

Section SafetyFacts.

Lemma cycle_status (shm : car_shared_mem) :
    Shm.status (Safety.cycle shm)
    = if ((door_obstruction shm =? 1) && status_is "Closing" shm)%bool
      then safe_copy (lit "Opening") MAX_STATUS_LEN
      else Shm.status shm.
Proof.
    destruct shm.
    unfold Safety.cycle, Safety.process_safety_actions, Safety.handle_safety_violation.
    break_ifs; finish_ifs.
Qed.

Lemma cycle_safety_system (shm : car_shared_mem) :
    safety_system (Safety.cycle shm)
    = if safety_system shm =? 0 then 1 else safety_system shm.
Proof.
    destruct shm.
    unfold Safety.cycle, Safety.process_safety_actions, Safety.handle_safety_violation.
    break_ifs; finish_ifs.
Qed.

Lemma cycle_emergency_mode (shm : car_shared_mem) :
    emergency_mode shm = 1 -> emergency_mode (Safety.cycle shm) = 1.
Proof.
    destruct shm. shm_simpl. intros ->.
    unfold Safety.cycle, Safety.process_safety_actions, Safety.handle_safety_violation.
    break_ifs; finish_ifs.
Qed.

End SafetyFacts.

(** ** C1: the heartbeat counter *)

(** Whatever non-zero value the counter holds, a monitor cycle leaves it. *)
Lemma cycle_keeps_nonzero_heartbeat (shm : car_shared_mem) :
  safety_system shm <> 0 ->
  safety_system (Safety.cycle shm) = safety_system shm.
Proof.
  intros H. rewrite cycle_safety_system.
  destruct (safety_system shm =? 0) eqn:E; [apply Z.eqb_eq in E; contradiction|reflexivity].
Qed.

(** C1, evaluated on the code.  The specification has every monitor cycle
    run outside emergency mode reset [safety_system] to 1.  On a consistent
    state with the counter at 2 and no emergency, [process_safety_actions]
    reports no violation, changes nothing, and leaves the counter at 2. *)
Theorem safety_cycle_leaves_heartbeat_at_two :
  emergency_mode heartbeat_two = 0
  /\ safety_system heartbeat_two = 2
  /\ Safety.process_safety_actions heartbeat_two = (heartbeat_two, [], false)
  /\ safety_system (Safety.cycle heartbeat_two) = 2.
Proof. vm_compute. repeat split; reflexivity. Qed.

(** With the monitor running before every network cycle, the counter of a
    fresh car still reaches 3 at the second heartbeat and the car enters
    emergency mode. *)
Lemma live_monitor_still_reaches_three :
  let shm := System.run (lit "1") (lit "10")
               [System.SafetyCycle; System.NetHeartbeat;
                System.SafetyCycle; System.NetHeartbeat] fresh_car in
  safety_system shm = 3 /\ emergency_mode shm = 1.
Proof. vm_compute. split; reflexivity. Qed.

(** ** C7: door reversal *)

(** C7.  If a monitor cycle observes [door_obstruction = 1] and the status
    [Closing], the status after the cycle is [Opening]. *)
Theorem obstructed_closing_door_reopens (shm : car_shared_mem) :
  door_obstruction shm = 1 ->
  cstr (Shm.status shm) = lit "Closing" ->
  cstr (Shm.status (Safety.cycle shm)) = lit "Opening".
Proof.
  intros Hobs Hst. rewrite cycle_status.
  apply status_is_Closing in Hst. rewrite Hst, Hobs. reflexivity.
Qed.

Lemma obstructed_closing_door_reopens_witness :
  door_obstruction obstructed_car = 1
  /\ cstr (Shm.status obstructed_car) = lit "Closing"
  /\ cstr (Shm.status (Safety.cycle obstructed_car)) = lit "Opening".
Proof.
  split; [reflexivity|]. split; [reflexivity|].
  apply (obstructed_closing_door_reopens obstructed_car); reflexivity.
Defined.

(** ** C6: the SCAN scenario *)

(** C6.  For the dispatcher's record of a car with status [Between] at 1
    heading for 10 with queue [10], the effective position is 2, and
    inserting 4 and then 3 gives the queue [10, 4, 3]. *)
Theorem scan_scenario_queue :
  Controller.get_car_position_numeric rising_car = 2
  /\ map cstr (Controller.queue
                 (Controller.add_to_queue
                    (Controller.add_to_queue rising_car (lit "4")) (lit "3")))
     = [lit "10"; lit "4"; lit "3"].
Proof. split; vm_compute; reflexivity. Qed.

(** ** C10: strings that are no floor pass the range check *)

Lemma compare_floors_invalid_left (F lo : list ascii) :
  ok (parse_floor F) = false -> compare_floors F lo = 0.
Proof. intros H. unfold compare_floors. now rewrite H. Qed.

(** C10.  A string [F] that [parse_floor] rejects compares equal to every
    bound, so [is_valid_floor_range] accepts it for all bounds; the
    [Closed] branch of the car therefore keeps such a destination instead
    of coercing it to the current floor, and outside emergency mode sets
    the car in motion. *)
Theorem invalid_floor_passes_range_check (F lo hi : list ascii) :
  ok (parse_floor F) = false ->
  compare_floors F lo = 0
  /\ is_valid_floor_range F lo hi = true
  /\ forall shm,
       Shm.destination_floor shm = F ->
       strncmp (Shm.current_floor shm) F MAX_FLOOR_LEN <> 0 ->
       Shm.destination_floor (Car.closed_branch lo hi shm) = F
       /\ (emergency_mode shm = 0 ->
           cstr (Shm.status (Car.closed_branch lo hi shm)) = lit "Between").
Proof.
  intros H.
  assert (Hr : is_valid_floor_range F lo hi = true).
  { unfold is_valid_floor_range.
    now rewrite !compare_floors_invalid_left by exact H. }
  split; [now apply compare_floors_invalid_left|]. split; [exact Hr|].
  intros shm Hd Hne. unfold Car.closed_branch.
  rewrite Hd, Hr.
  apply Z.eqb_neq in Hne. rewrite Hne. cbn [negb andb].
  split.
  - destruct (emergency_mode shm =? 0); shm_simpl; exact Hd.
  - intros He. rewrite He. reflexivity.
Qed.

Lemma invalid_floor_passes_range_check_witness :
  ok (parse_floor (safe_copy (lit "X9") MAX_FLOOR_LEN)) = false
  /\ is_valid_floor_range (safe_copy (lit "X9") MAX_FLOOR_LEN) (lit "1") (lit "10") = true
  /\ cstr (Shm.status (Car.closed_branch (lit "1") (lit "10") bad_destination))
     = lit "Between".
Proof.
  split; [reflexivity|].
  destruct (invalid_floor_passes_range_check
              (safe_copy (lit "X9") MAX_FLOOR_LEN) (lit "1") (lit "10") eq_refl)
    as (_ & Hr & Hc).
  split; [exact Hr|].
  apply (Hc bad_destination); [reflexivity|vm_compute; discriminate|reflexivity].
Defined.

(** ** C2: emergency mode *)

Section EmergencyMode.

Variables lowest highest : list ascii.

Lemma handle_open_button_emergency shm :
  emergency_mode (Car.handle_open_button shm) = emergency_mode shm.
Proof. unfold Car.handle_open_button. break_ifs; reflexivity. Qed.

Lemma handle_close_button_emergency shm :
  emergency_mode (Car.handle_close_button shm) = emergency_mode shm.
Proof. unfold Car.handle_close_button. break_ifs; reflexivity. Qed.

Lemma closed_branch_emergency shm :
  emergency_mode (Car.closed_branch lowest highest shm) = emergency_mode shm.
Proof. unfold Car.closed_branch. break_ifs; reflexivity. Qed.

(** The car's main loop never writes [emergency_mode]. *)
Lemma iteration_first_emergency dwell_over shm :
  emergency_mode (fst (Car.iteration_first lowest highest dwell_over shm))
  = emergency_mode shm.
Proof.
  unfold Car.iteration_first.
  set (s := Car.handle_close_button (Car.handle_open_button shm)).
  assert (Hs : emergency_mode s = emergency_mode shm).
  { subst s. now rewrite handle_close_button_emergency, handle_open_button_emergency. }
  clearbody s.
  repeat (unfold status_is; cbn [fst]; break_if);
    cbn [fst]; rewrite ?closed_branch_emergency; shm_simpl; exact Hs.
Qed.

Lemma iteration_second_emergency p shm :
  emergency_mode (Car.iteration_second lowest highest p shm)
  = emergency_mode shm.
Proof.
  unfold Car.iteration_second. destruct p; try (break_ifs; reflexivity).
  destruct (next_floor_towards _ _ _ _ _ _) as [ret next_floor].
  break_ifs; reflexivity.
Qed.

(** The network thread only ever sets it. *)
Lemma handle_message_emergency msg shm :
  emergency_mode (Car.handle_message msg shm) = emergency_mode shm.
Proof. unfold Car.handle_message. break_ifs; reflexivity. Qed.

Lemma heartbeat_emergency shm :
  emergency_mode shm = 1 -> emergency_mode (fst (Car.heartbeat shm)) = 1.
Proof. intros H. unfold Car.heartbeat. break_ifs; try reflexivity; exact H. Qed.

End EmergencyMode.

Lemma strcmp_lit_excl (op : list ascii) (a b : string) :
  cstr (lit a) <> cstr (lit b) ->
  (strcmp op (lit a) =? 0) = true -> (strcmp op (lit b) =? 0) = false.
Proof.
  intros Hne Ha. apply Z.eqb_eq in Ha. apply strcmp_zero_iff in Ha.
  apply Z.eqb_neq. intros Hb. apply strcmp_zero_iff in Hb. congruence.
Qed.

(** The button tool: [service_on] writes 0, every other operation leaves
    the flag. *)
Lemma operate_emergency (operation : list ascii) (shm : car_shared_mem) :
  emergency_mode (fst (Internal.operate operation shm))
  = if strcmp operation (lit "service_on") =? 0 then 0 else emergency_mode shm.
Proof.
  unfold Internal.operate.
  destruct (strcmp operation (lit "service_on") =? 0) eqn:Hso.
  - rewrite (strcmp_lit_excl operation "service_on" "open")
      by (try exact Hso; vm_compute; discriminate).
    rewrite (strcmp_lit_excl operation "service_on" "close")
      by (try exact Hso; vm_compute; discriminate).
    rewrite (strcmp_lit_excl operation "service_on" "stop")
      by (try exact Hso; vm_compute; discriminate).
    reflexivity.
  - break_ifs; reflexivity.
Qed.

(** C2 as stated fails: the button tool's [service_on] takes a car out of
    emergency mode.  On a car in emergency mode with closed doors,
    [internal <car> service_on] leaves [emergency_mode = 0]. *)
Lemma service_on_clears_emergency_mode :
  emergency_mode in_emergency = 1
  /\ emergency_mode
       (System.step (lit "1") (lit "10")
          (System.InternalOp (lit "service_on")) in_emergency) = 0.
Proof. split; vm_compute; reflexivity. Qed.

(** C2, amended.  From a state with [emergency_mode = 1], every critical
    section of the car's main loop, of its network thread, of the safety
    monitor and of the button clients leaves [emergency_mode = 1], except
    the button tool's [service_on].  That operation sets
    [individual_service_mode = 1] and writes [emergency_mode = 0], and
    leaves every other field of the record as it was. *)
Theorem emergency_mode_latches_except_service_on
    (lowest highest : list ascii) (e : System.event) (shm : car_shared_mem) :
  emergency_mode shm = 1 ->
  let after := System.step lowest highest e shm in
  (System.clears_emergency e = false -> emergency_mode after = 1)
  /\ (System.clears_emergency e = true ->
      emergency_mode after = 0
      /\ individual_service_mode after = 1
      /\ after = set_emergency_mode 0 (set_individual_service_mode 1 shm)).
Proof.
  intros H after. subst after. split.
  - intros Hc. destruct e; cbn [System.step System.clears_emergency] in *.
    + now rewrite iteration_first_emergency.
    + now rewrite iteration_second_emergency.
    + now rewrite handle_message_emergency.
    + now apply heartbeat_emergency.
    + now apply cycle_emergency_mode.
    + rewrite operate_emergency, Hc. exact H.
    + exact H.
  - intros Hc. destruct e; cbn [System.step System.clears_emergency] in *;
      try discriminate.
    assert (Hop : fst (Internal.operate operation shm)
                  = set_emergency_mode 0 (set_individual_service_mode 1 shm)).
    { unfold Internal.operate.
      rewrite (strcmp_lit_excl operation "service_on" "open")
        by (try exact Hc; vm_compute; discriminate).
      rewrite (strcmp_lit_excl operation "service_on" "close")
        by (try exact Hc; vm_compute; discriminate).
      rewrite (strcmp_lit_excl operation "service_on" "stop")
        by (try exact Hc; vm_compute; discriminate).
      rewrite Hc. reflexivity. }
    rewrite Hop. repeat split; reflexivity.
Qed.

Lemma emergency_mode_latches_except_service_on_witness :
  emergency_mode in_emergency = 1
  /\ emergency_mode
       (System.step (lit "1") (lit "10") System.SafetyCycle in_emergency) = 1
  /\ individual_service_mode
       (System.step (lit "1") (lit "10")
          (System.InternalOp (lit "service_on")) in_emergency) = 1.
Proof.
  split; [reflexivity|]. split.
  - apply (emergency_mode_latches_except_service_on
             (lit "1") (lit "10") System.SafetyCycle in_emergency);
      reflexivity.
  - apply (emergency_mode_latches_except_service_on
             (lit "1") (lit "10") (System.InternalOp (lit "service_on"))
             in_emergency); reflexivity.
Defined.

(** ** Copies and labels *)

Lemma cstr_no_nul (a : list ascii) : Forall (fun c => is_nul c = false) (cstr a).
Proof.
  induction a as [|c a IH]; cbn [cstr]; [constructor|].
  destruct (is_nul c) eqn:E; constructor; assumption.
Qed.

Lemma cstr_app_nul (s r : list ascii) :
  Forall (fun c => is_nul c = false) s ->
  is_nul (hd NUL r) = true ->
  cstr (s ++ r) = s.
Proof.
  intros Hs Hr. induction Hs as [|c s Hc Hs IH]; cbn [app cstr].
  - destruct r as [|d r]; [reflexivity|]. cbn [hd cstr] in *. now rewrite Hr.
  - now rewrite Hc, IH.
Qed.

(** The string left by the copy idiom is the source cut to [size - 1]
    characters. *)
Lemma cstr_safe_copy (src : list ascii) (size : nat) :
  cstr (safe_copy src size) = firstn (size - 1) (cstr src).
Proof.
  unfold safe_copy, strncpy. rewrite <- app_assoc.
  apply cstr_app_nul.
  - pose proof (cstr_no_nul src) as H. rewrite Forall_forall in *.
    intros c Hc. apply H.
    rewrite <- (firstn_skipn (size - 1) (cstr src)). apply in_or_app. now left.
  - destruct (size - 1 - length (firstn (size - 1) (cstr src)))%nat; reflexivity.
Qed.

Lemma valid_label_length (f : list ascii) :
  ok (parse_floor f) = true -> (1 <= length (cstr f) <= 3)%nat.
Proof.
  unfold parse_floor.
  destruct (Nat.eqb (length (cstr f)) 0) eqn:E0; [discriminate|].
  destruct (Nat.ltb 3 (length (cstr f))) eqn:E3; [discriminate|].
  intros _. apply Nat.eqb_neq in E0. apply Nat.ltb_ge in E3. lia.
Qed.

Lemma cstr_safe_copy_label (f : list ascii) :
  ok (parse_floor f) = true -> cstr (safe_copy f MAX_FLOOR_LEN) = cstr f.
Proof.
  intros H. apply valid_label_length in H. rewrite cstr_safe_copy.
  apply firstn_all2. unfold MAX_FLOOR_LEN. lia.
Qed.

(** ** C3: an inbound FLOOR message *)





(** ** C4: one step towards the destination *)

Lemma parse_floor_range (s : list ascii) :
  ok (parse_floor s) = true ->
  -99 <= numeric (parse_floor s) <= 999 /\ numeric (parse_floor s) <> 0.
Proof.
  unfold parse_floor.
  destruct (Nat.eqb (length (cstr s)) 0 || Nat.ltb 3 (length (cstr s)))%bool;
    [discriminate|].
  destruct (Ascii.eqb (hd NUL (cstr s)) "B").
  - destruct (Nat.ltb (length (cstr s)) 2); [discriminate|].
    destruct (strtol (tl (cstr s))) as [floor_num endptr].
    destruct (negb (is_nul (hd NUL endptr)) || (floor_num <? 1) || (floor_num >? 99))%bool
      eqn:E; [discriminate|].
    destruct (Ascii.eqb (hd NUL (tl (cstr s))) "0" && negb (floor_num =? 0))%bool;
      [discriminate|].
    intros _. cbn [numeric]. bool_facts. lia.
  - destruct (strtol (cstr s)) as [floor_num endptr].
    destruct (negb (is_nul (hd NUL endptr)) || (floor_num <? 1) || (floor_num >? 999))%bool
      eqn:E; [discriminate|].
    destruct (Ascii.eqb (hd NUL (cstr s)) "0" && negb (floor_num =? 0))%bool;
      [discriminate|].
    intros _. cbn [numeric]. bool_facts. lia.
Qed.

Lemma all_labels_round_trip :
  forallb (fun n => (n =? 0) || Spec.label_round_trips n)%bool Spec.floor_numbers = true.
Proof. vm_compute. reflexivity. Qed.

(** Formatting a floor number and parsing the label gives the number back. *)
Lemma parse_label_of (n : Z) :
  -99 <= n <= 999 -> n <> 0 ->
  parse_floor (Spec.label_of n) = mk_floor_info true n (n <? 0).
Proof.
  intros Hr Hn.
  pose proof all_labels_round_trip as H. rewrite forallb_forall in H.
  specialize (H n).
  assert (Hin : In n Spec.floor_numbers).
  { unfold Spec.floor_numbers. apply in_map_iff.
    exists (Z.to_nat (n + 99)). split; [lia|]. apply in_seq. lia. }
  apply H in Hin. apply orb_true_iff in Hin.
  destruct Hin as [Hz|Hok]; [apply Z.eqb_eq in Hz; contradiction|].
  unfold Spec.label_round_trips in Hok.
  destruct (parse_floor (Spec.label_of n)) as [o m b]. cbn [ok numeric is_basement] in Hok.
  apply andb_true_iff in Hok. destruct Hok as [Hok Hb].
  apply andb_true_iff in Hok. destruct Hok as [Ho Hm].
  apply Z.eqb_eq in Hm. apply Bool.eqb_prop in Hb. subst. reflexivity.
Qed.

(** C4 as stated fails twice.  With destination equal to the current
    floor the function steps down instead of returning the current floor;
    and when the step lands on 0, which is no floor, it reports success
    with an empty label whatever the bounds are. *)
Lemma next_floor_towards_differs_from_sign_step :
  next_floor_towards (lit "5") (lit "5") (lit "1") (lit "10") [] MAX_FLOOR_LEN
    = (0, lit "4")
  /\ Spec.next_toward (lit "5") (lit "5") (lit "1") (lit "10") = Some (lit "5")
  /\ next_floor_towards (lit "1") (lit "B1") (lit "1") (lit "10") [] MAX_FLOOR_LEN
    = (0, [])
  /\ Spec.next_toward (lit "1") (lit "B1") (lit "1") (lit "10") = None.
Proof. repeat split; vm_compute; reflexivity. Qed.

(** C4, amended.  For valid labels [current] and [destination] on
    different floors and valid bounds, let [n] be the current floor number
    plus the sign of the difference.  When [n] is not 0, the function
    leaves the label of [n] in [output]; it returns 0 when [n] lies within
    the bounds and -1 when it does not. *)
Theorem next_floor_towards_sign_step
    (current destination lo hi output : list ascii) :
  Spec.valid_label current -> Spec.valid_label destination ->
  Spec.valid_label lo -> Spec.valid_label hi ->
  Spec.floor_number destination <> Spec.floor_number current ->
  let n := Spec.floor_number current
           + Z.sgn (Spec.floor_number destination - Spec.floor_number current) in
  n <> 0 ->
  next_floor_towards current destination lo hi output MAX_FLOOR_LEN
  = (if ((Spec.floor_number lo <=? n) && (n <=? Spec.floor_number hi))%bool
     then 0 else -1,
     Spec.label_of n)
  /\ Spec.valid_label (Spec.label_of n)
  /\ Spec.floor_number (Spec.label_of n) = n.
Proof.
  intros Hc Hd Hlo Hhi Hne n Hn0.
  unfold Spec.valid_label, Spec.floor_number in *.
  pose proof (parse_floor_range _ Hc) as Rc.
  pose proof (parse_floor_range _ Hd) as Rd.
  assert (Hdir : (if numeric (parse_floor destination) >? numeric (parse_floor current)
                  then 1 else -1) = n - numeric (parse_floor current)).
  { subst n. rewrite Z.gtb_ltb.
    destruct (numeric (parse_floor current) <? numeric (parse_floor destination)) eqn:E;
      bool_facts; lia. }
  assert (Rn : -99 <= n <= 999) by (subst n; lia).
  pose proof (parse_label_of n Rn Hn0) as Hp.
  split; [|rewrite Hp; split; reflexivity].
  unfold next_floor_towards.
  rewrite Nat.ltb_irrefl, Hc, Hd. cbn [negb orb].
  rewrite Hdir.
  replace (numeric (parse_floor current) + (n - numeric (parse_floor current)))
    with n by lia.
  replace (if n <? 0 then floor_to_string n true else floor_to_string n false)
    with (Spec.label_of n)
    by (unfold Spec.label_of; destruct (n <? 0); reflexivity).
  unfold is_valid_floor_range, compare_floors.
  rewrite Hp, Hlo, Hhi. cbn [ok numeric negb orb].
  destruct (numeric (parse_floor lo) <=? n) eqn:E1,
           (n <=? numeric (parse_floor hi)) eqn:E2;
    rewrite !Z.gtb_ltb;
    destruct (n <? numeric (parse_floor lo)) eqn:E3,
             (numeric (parse_floor lo) <? n) eqn:E4,
             (n <? numeric (parse_floor hi)) eqn:E5,
             (numeric (parse_floor hi) <? n) eqn:E6;
    bool_facts; try lia; reflexivity.
Qed.

Lemma next_floor_towards_sign_step_witness :
  next_floor_towards (lit "3") (lit "7") (lit "1") (lit "10") [] MAX_FLOOR_LEN
  = (0, lit "4").
Proof.
  apply (next_floor_towards_sign_step (lit "3") (lit "7") (lit "1") (lit "10") []);
    try reflexivity; vm_compute; discriminate.
Defined.

(** ** C5: car selection *)

Section NameOrder.

Lemma strncmp_S (a b : list ascii) (n : nat) :
  strncmp a b (S n)
  = if Ascii.eqb (hd NUL a) (hd NUL b)
    then if is_nul (hd NUL a) then 0 else strncmp (tl a) (tl b) n
    else uchar (hd NUL a) - uchar (hd NUL b).
Proof. reflexivity. Qed.

Lemma strncmp_antisym (n : nat) :
  forall a b, strncmp b a n = - strncmp a b n.
Proof.
  induction n as [|n IH]; intros a b; [reflexivity|].
  rewrite !strncmp_S. rewrite (Ascii.eqb_sym (hd NUL b) (hd NUL a)).
  destruct (Ascii.eqb_spec (hd NUL a) (hd NUL b)) as [E|E].
  - rewrite E. destruct (is_nul (hd NUL b)); [reflexivity|apply IH].
  - lia.
Qed.

Lemma strncmp_trans_lt (n : nat) :
  forall a b c,
    strncmp a b n < 0 -> strncmp b c n <= 0 -> strncmp a c n < 0.
Proof.
  induction n as [|n IH]; intros a b c; [simpl; lia|].
  rewrite !strncmp_S.
  generalize (hd NUL a) (hd NUL b) (hd NUL c). intros x y z.
  destruct (Ascii.eqb_spec x y) as [Exy|Exy];
    destruct (Ascii.eqb_spec y z) as [Eyz|Eyz];
    destruct (Ascii.eqb_spec x z) as [Exz|Exz];
    try congruence;
    repeat match goal with
           | H : ?u <> ?v |- _ =>
               assert (uchar u - uchar v <> 0)
                 by (intros E; apply uchar_inj in E; contradiction);
               clear H
           end;
    subst; try lia.
  destruct (is_nul z); [lia|apply IH].
Qed.

Lemma strncmp_refl (n : nat) : forall a, strncmp a a n = 0.
Proof.
  induction n as [|n IH]; intros a; [reflexivity|].
  rewrite strncmp_S, Ascii.eqb_refl. destruct (is_nul (hd NUL a)); auto.
Qed.

End NameOrder.

Section SelectionLoop.

Variable cars : list Controller.car_info.
Variables source destination : list ascii.

Hypothesis eta_is_int :
  forall c, In c cars -> Controller.calculate_eta c source < Controller.INT_MAX.

Lemma find_best_car_loop_invariant (todo : list Controller.car_info) :
  forall seen best_car best_eta,
    cars = seen ++ todo ->
    Selection.loop_state cars source destination seen best_car best_eta ->
    exists eta,
      Selection.loop_state cars source destination cars
        (Controller.find_best_car_loop cars source destination todo
           (length seen) best_car best_eta)
        eta.
Proof.
  induction todo as [|car todo IH]; intros seen best_car best_eta Hcars Hst.
  - rewrite app_nil_r in Hcars. subst seen. exists best_eta. exact Hst.
  - assert (Hcars' : cars = (seen ++ [car]) ++ todo)
      by (rewrite <- app_assoc; exact Hcars).
    assert (Hlen : S (length seen) = length (seen ++ [car]))
      by (rewrite length_app; simpl; lia).
    assert (Hin : In car cars)
      by (rewrite Hcars; apply in_or_app; right; left; reflexivity).
    cbn [Controller.find_best_car_loop]. rewrite Hlen.
    (* a car that the loop skips *)
    assert (Hskip : Selection.passes_filter source destination car = false ->
              Selection.loop_state cars source destination (seen ++ [car])
                best_car best_eta).
    { intros Hf. unfold Selection.loop_state in *.
      destruct best_car as [b|].
      - destruct Hst as (best & Hn & Hp & He & Hall).
        exists best. repeat split; try assumption.
        intros c Hc Hpc. apply in_app_or in Hc. destruct Hc as [Hc|[<-|[]]].
        + now apply Hall.
        + congruence.
      - destruct Hst as [He Hall]. split; [exact He|].
        intros c Hc. apply in_app_or in Hc. destruct Hc as [Hc|[<-|[]]];
          [now apply Hall|exact Hf]. }
    destruct (Controller.connected car =? 0) eqn:Econ.
    { apply (IH _ _ _ Hcars'). apply Hskip.
      unfold Selection.passes_filter. now rewrite Econ. }
    destruct (negb (is_valid_floor_range source (Controller.lowest car) (Controller.highest car))
              || negb (is_valid_floor_range destination (Controller.lowest car) (Controller.highest car)))%bool
      eqn:Erange.
    { apply (IH _ _ _ Hcars'). apply Hskip.
      unfold Selection.passes_filter.
      apply orb_true_iff in Erange.
      destruct Erange as [E|E]; apply negb_true_iff in E; rewrite E;
        [now rewrite andb_false_r|now rewrite !andb_false_r]. }
    assert (Hpass : Selection.passes_filter source destination car = true).
    { unfold Selection.passes_filter. rewrite Econ.
      apply orb_false_iff in Erange. destruct Erange as [E1 E2].
      apply negb_false_iff in E1, E2. now rewrite E1, E2. }
    assert (Hnth : nth_error cars (length seen) = Some car)
      by (rewrite Hcars; apply nth_error_app2_middle || (rewrite nth_error_app2, Nat.sub_diag by lia; reflexivity)).
    match goal with
    | |- context [if ?cond then _ else _] => destruct cond eqn:Econd
    end.
    + (* the car becomes the best one *)
      apply (IH _ _ _ Hcars'). unfold Selection.loop_state.
      exists car. repeat split; try assumption.
      intros c Hc Hpc. apply in_app_or in Hc. destruct Hc as [Hc|[<-|[]]].
      * unfold Selection.loop_state in Hst. destruct best_car as [b|].
        -- destruct Hst as (best & Hn & Hp & He & Hall).
           rewrite Hn in Econd. specialize (Hall c Hc Hpc).
           unfold Selection.preferred in *. subst best_eta.
           apply orb_true_iff in Econd. destruct Econd as [E|E].
           ++ apply Z.ltb_lt in E. lia.
           ++ apply andb_true_iff in E. destruct E as [E1 E2].
              apply Z.eqb_eq in E1. apply Z.ltb_lt in E2.
              destruct Hall as [Hlt|[Heq Hname]]; [lia|].
              right. split; [lia|].
              pose proof (strncmp_trans_lt _ _ _ _ E2 Hname). lia.
        -- destruct Hst as [_ Hall]. rewrite (Hall c Hc) in Hpc. discriminate.
      * right. split; [reflexivity|]. rewrite strncmp_refl. lia.
    + (* the best car stays *)
      apply (IH _ _ _ Hcars'). unfold Selection.loop_state in *.
      apply orb_false_iff in Econd. destruct Econd as [E1 E2].
      apply Z.ltb_ge in E1.
      destruct best_car as [b|].
      * destruct Hst as (best & Hn & Hp & He & Hall).
        exists best. repeat split; try assumption.
        intros c Hc Hpc. apply in_app_or in Hc. destruct Hc as [Hc|[<-|[]]];
          [now apply Hall|].
        rewrite Hn in E2. subst best_eta. unfold Selection.preferred.
        destruct (Z.eq_dec (Controller.calculate_eta best source)
                           (Controller.calculate_eta car source)) as [Heq|Hne];
          [|left; lia].
        right. split; [exact Heq|].
        rewrite Heq, Z.eqb_refl in E2. cbn [andb] in E2.
        apply Z.ltb_ge in E2.
        rewrite (strncmp_antisym _ (Controller.name car) (Controller.name best)). lia.
      * destruct Hst as [He _]. subst best_eta.
        specialize (eta_is_int car Hin). lia.
Qed.

End SelectionLoop.

Section SelectionMeaning.

(** On valid labels the range check is the comparison of floor numbers. *)
Lemma range_check_valid (f lo hi : list ascii) :
  Spec.valid_label f -> Spec.valid_label lo -> Spec.valid_label hi ->
  is_valid_floor_range f lo hi = true
  <-> Spec.floor_number lo <= Spec.floor_number f <= Spec.floor_number hi.
Proof.
  unfold Spec.valid_label, Spec.floor_number, is_valid_floor_range, compare_floors.
  intros -> -> ->. cbn [negb orb].
  rewrite !Z.gtb_ltb.
  destruct (numeric (parse_floor f) <? numeric (parse_floor lo)) eqn:E1,
           (numeric (parse_floor lo) <? numeric (parse_floor f)) eqn:E2,
           (numeric (parse_floor f) <? numeric (parse_floor hi)) eqn:E3,
           (numeric (parse_floor hi) <? numeric (parse_floor f)) eqn:E4;
    bool_facts; cbn; split; intros; try lia; try discriminate; try reflexivity.
Qed.

Lemma strncmp_lit_same_text (buf : list ascii) (text : string) (n : nat) :
  cstr (lit text) = lit text -> (length (lit text) < n)%nat ->
  (strncmp buf (lit text) n =? 0) = Spec.same_text buf text.
Proof.
  intros Hc Hl. unfold Spec.same_text.
  destruct (list_eq_dec ascii_dec (cstr buf) (lit text)) as [E|E].
  - apply Z.eqb_eq. apply strncmp_zero_short; [rewrite Hc; exact Hl|congruence].
  - apply Z.eqb_neq. intros H. apply strncmp_zero_short in H;
      [congruence|rewrite Hc; exact Hl].
Qed.

(** The position that the dispatcher computes is the effective position of
    the specification. *)
Lemma car_position_is_effective (car : Controller.car_info) :
  Spec.valid_label (Controller.current_floor car) ->
  Spec.valid_label (Controller.destination_floor car) ->
  Controller.get_car_position_numeric car = Spec.effective_position car.
Proof.
  unfold Spec.valid_label, Controller.get_car_position_numeric,
    Spec.effective_position, Spec.floor_number.
  intros Hc Hd. rewrite Hc, Hd. cbn [andb].
  rewrite !strncmp_lit_same_text
    by (try reflexivity; simpl; unfold MAX_STATUS_LEN; lia).
  destruct (Spec.same_text (Controller.status car) "Closing"
            || Spec.same_text (Controller.status car) "Between")%bool;
    [|reflexivity].
  cbn [andb].
  destruct (numeric (parse_floor (Controller.current_floor car))
            =? numeric (parse_floor (Controller.destination_floor car))) eqn:E;
    [reflexivity|].
  cbn [negb]. rewrite Z.gtb_ltb.
  destruct (numeric (parse_floor (Controller.current_floor car))
            <? numeric (parse_floor (Controller.destination_floor car))) eqn:E';
    bool_facts; lia.
Qed.

Lemma calculate_eta_is_eta (car : Controller.car_info) (src : list ascii) :
  Spec.valid_label src ->
  Spec.valid_label (Controller.current_floor car) ->
  Spec.valid_label (Controller.destination_floor car) ->
  Controller.calculate_eta car src = Spec.eta car src.
Proof.
  intros Hs Hc Hd. unfold Controller.calculate_eta, Spec.eta.
  unfold Spec.valid_label in Hs. rewrite Hs. cbn [negb].
  now rewrite car_position_is_effective.
Qed.

Lemma eta_fits_int (car : Controller.car_info) (src : list ascii) :
  Spec.valid_label src -> Spec.well_formed car ->
  Spec.eta car src < Controller.INT_MAX.
Proof.
  intros Hs (_ & _ & Hc & Hd & Hq).
  pose proof (parse_floor_range _ Hs). pose proof (parse_floor_range _ Hc).
  pose proof (parse_floor_range _ Hd).
  unfold Spec.eta, Spec.effective_position, Spec.floor_number.
  destruct ((Spec.same_text (Controller.status car) "Closing"
             || Spec.same_text (Controller.status car) "Between")
            && negb (numeric (parse_floor (Controller.current_floor car))
                     =? numeric (parse_floor (Controller.destination_floor car))))%bool;
    lia.
Qed.

Lemma passes_filter_is_candidate (src dst : list ascii) (car : Controller.car_info) :
  Spec.valid_label src -> Spec.valid_label dst -> Spec.well_formed car ->
  Selection.passes_filter src dst car = true <-> Spec.candidate src dst car.
Proof.
  intros Hs Hd (Hlo & Hhi & _).
  unfold Selection.passes_filter, Spec.candidate, Spec.in_range.
  rewrite !andb_true_iff, negb_true_iff, Z.eqb_neq.
  rewrite !range_check_valid by assumption. tauto.
Qed.

End SelectionMeaning.

Lemma add_to_queue_name (car : Controller.car_info) (floor : list ascii) :
  Controller.name (Controller.add_to_queue car floor) = Controller.name car.
Proof.
  unfold Controller.add_to_queue.
  destruct (existsb _ (Controller.queue car)); [reflexivity|].
  destruct (negb (ok (parse_floor floor))); [reflexivity|].
  destruct (Controller.queue car) as [|head tail]; [reflexivity|].
  match goal with
  | |- context [let '(before, after) := ?e in _] => destruct e as [before after]
  end.
  reflexivity.
Qed.

(** C5 as stated fails on a table that the dispatcher reaches:
    registration stores what [sscanf] reads without checking it.  The car
    started as [car "A B" 1 10] sends [CAR A B 1 10] and is recorded as car
    [A] with lowest floor [B] and highest floor [1].  For the call from B5
    to 1 no car of the table is a candidate, yet [find_best_car] selects
    that car and the client is answered [CAR A]. *)
Lemma unchecked_registration_is_selected :
  Sessions.blank_in_name = lit "CAR A B 1 10"
  /\ Spec.valid_label (lit "B5") /\ Spec.valid_label (lit "1")
  /\ (exists car,
        Sessions.after_registration = [car]
        /\ cstr (Controller.name car) = lit "A"
        /\ cstr (Controller.lowest car) = lit "B"
        /\ cstr (Controller.highest car) = lit "1"
        /\ ~ Spec.valid_label (Controller.lowest car)
        /\ ~ Spec.candidate (lit "B5") (lit "1") car)
  /\ Controller.find_best_car Sessions.after_registration (lit "B5") (lit "1")
     = Some 0%nat
  /\ last (snd (Controller.handle_call_request Sessions.after_registration 7
                  (lit "CALL B5 1"))) (0, [])
     = (7, lit "CAR A").
Proof.
  split; [reflexivity|]. split; [reflexivity|]. split; [reflexivity|].
  split; [|split; reflexivity].
  eexists. split; [reflexivity|].
  split; [reflexivity|]. split; [reflexivity|]. split; [reflexivity|].
  split; [vm_compute; discriminate|].
  intros (_ & [Hlow _] & _). vm_compute in Hlow. now apply Hlow.
Qed.

(** C5, amended.  For a call with valid source and destination on a table of
    well-formed car records, [find_best_car] returns a candidate (a
    connected car whose range contains both floors) whose ETA, the distance
    from the effective position to the source plus the queue length, is
    minimal among the candidates, and whose name is smallest among the
    candidates of that ETA; the client is then answered [CAR <name>].  When
    there is no candidate it returns nothing and the client is answered
    [UNAVAILABLE]. *)
Theorem find_best_car_minimises_eta
    (cars : list Controller.car_info) (src dst : list ascii) :
  Spec.valid_label src -> Spec.valid_label dst ->
  Forall Spec.well_formed cars ->
  match Controller.find_best_car cars src dst with
  | Some i =>
      exists best,
        nth_error cars i = Some best
        /\ Spec.candidate src dst best
        /\ (forall c, In c cars -> Spec.candidate src dst c ->
                      Spec.beats_or_ties src best c)
        /\ (forall client_fd message,
               Controller.sscanf_call message = Some (src, dst) ->
               last (snd (Controller.handle_call_request cars client_fd message))
                    (0, [])
               = (client_fd, firstn 63 (lit "CAR " ++ cstr (Controller.name best))))
  | None =>
      (forall c, In c cars -> ~ Spec.candidate src dst c)
      /\ (forall client_fd message,
             Controller.sscanf_call message = Some (src, dst) ->
             Controller.handle_call_request cars client_fd message
             = (cars, [(client_fd, lit "UNAVAILABLE")]))
  end.
Proof.
  intros Hs Hd Hwf. rewrite Forall_forall in Hwf.
  assert (Hint : forall c, In c cars ->
                   Controller.calculate_eta c src < Controller.INT_MAX).
  { intros c Hc. destruct (Hwf c Hc) as (H1 & H2 & H3 & H4 & H5).
    rewrite calculate_eta_is_eta by assumption.
    apply eta_fits_int; [assumption|now apply Hwf]. }
  destruct (find_best_car_loop_invariant cars src dst Hint cars [] None
              Controller.INT_MAX eq_refl) as [eta Hloop].
  { split; [reflexivity|]. intros c []. }
  cbn [length] in Hloop.
  assert (Hfind : Controller.find_best_car cars src dst
                  = Controller.find_best_car_loop cars src dst cars 0 None
                      Controller.INT_MAX).
  { unfold Controller.find_best_car. unfold Spec.valid_label in Hs, Hd.
    now rewrite Hs, Hd. }
  rewrite Hfind.
  destruct (Controller.find_best_car_loop cars src dst cars 0 None Controller.INT_MAX)
    as [i|] eqn:Eloop; unfold Selection.loop_state in Hloop.
  - destruct Hloop as (best & Hn & Hp & _ & Hall).
    assert (Hbest : In best cars) by (eapply nth_error_In; exact Hn).
    exists best. split; [exact Hn|]. split; [|split].
    + apply passes_filter_is_candidate; auto.
    + intros c Hc Hcand.
      apply passes_filter_is_candidate in Hcand; auto.
      specialize (Hall c Hc Hcand). unfold Selection.preferred in Hall.
      destruct (Hwf c Hc) as (_ & _ & Hcc & Hcd & _).
      destruct (Hwf best Hbest) as (_ & _ & Hbc & Hbd & _).
      rewrite !calculate_eta_is_eta in Hall by assumption. exact Hall.
    + intros client_fd message Hscan. unfold Controller.handle_call_request.
      rewrite Hscan, Hfind, Hn. cbn [snd].
      rewrite last_last. now rewrite !add_to_queue_name.
  - destruct Hloop as [_ Hall]. split.
    + intros c Hc Hcand. apply passes_filter_is_candidate in Hcand; auto.
      rewrite (Hall c Hc) in Hcand. discriminate.
    + intros client_fd message Hscan. unfold Controller.handle_call_request.
      now rewrite Hscan, Hfind.
Qed.

(** Scenario 2 of the specification: cars A at 1 and B at 5, [call 6 8]:
    B is selected and the client is answered [CAR B]. *)
Lemma find_best_car_minimises_eta_witness :
  Controller.find_best_car two_cars (lit "6") (lit "8") = Some 1%nat
  /\ exists best,
       nth_error two_cars 1 = Some best
       /\ Spec.candidate (lit "6") (lit "8") best
       /\ cstr (Controller.name best) = lit "B".
Proof.
  split; [reflexivity|].
  pose proof (find_best_car_minimises_eta two_cars (lit "6") (lit "8")) as H.
  assert (Hw : Forall Spec.well_formed two_cars).
  { repeat constructor; vm_compute; congruence. }
  specialize (H eq_refl eq_refl Hw).
  change (Controller.find_best_car two_cars (lit "6") (lit "8"))
    with (Some 1%nat) in H.
  destruct H as (best & Hn & Hc & _).
  exists best. split; [exact Hn|]. split; [exact Hc|].
  cbn in Hn. injection Hn as <-. reflexivity.
Defined.

(** ** C8: message framing *)

Section FramingFacts.

Import Framing.

Lemma firstn_plus {A} (a b : nat) :
  forall l : list A, firstn (a + b) l = firstn a l ++ firstn b (skipn a l).
Proof.
  induction a as [|a IH]; intros l; [reflexivity|].
  destruct l as [|x l]; simpl; [now rewrite firstn_nil|]. now rewrite IH.
Qed.

(** A write loop that returns 0 has put all its bytes on the wire. *)
Lemma write_loop_done (script : list sys_result) :
  forall unsent wire wire' script',
    write_loop script unsent wire = WDone wire' script' ->
    wire' = wire ++ unsent.
Proof.
  induction script as [|r script IH]; intros unsent wire wire' script' H.
  - destruct unsent; simpl in H; [|discriminate].
    injection H as <- _. now rewrite app_nil_r.
  - destruct unsent as [|c unsent].
    + simpl in H. injection H as <- _. now rewrite app_nil_r.
    + cbn [write_loop] in H. destruct r as [| |n].
      * now apply IH in H.
      * discriminate.
      * destruct (Nat.min n (length (c :: unsent))) as [|k] eqn:Ek; [discriminate|].
        apply IH in H. rewrite H, <- app_assoc. f_equal. apply firstn_skipn.
Qed.


(** A read loop that returns has taken exactly the bytes it wanted from
    the front of the wire. *)
Lemma read_loop_done (script : list sys_result) :
  forall wanted wire buf m wire' script',
    read_loop script wanted wire buf = RDone m wire' script' ->
    m = buf ++ firstn wanted wire /\ wire' = skipn wanted wire.
Proof.
  induction script as [|r script IH]; intros wanted wire buf m wire' script' H.
  - destruct wanted; simpl in H; [|discriminate].
    injection H as <- <- _. simpl. now rewrite app_nil_r.
  - destruct wanted as [|w].
    + simpl in H. injection H as <- <- _. simpl. now rewrite app_nil_r.
    + cbn [read_loop] in H. destruct r as [| |n].
      * now apply IH in H.
      * discriminate.
      * destruct (Nat.min n (Nat.min (S w) (length wire))) as [|k] eqn:Ek;
          [discriminate|].
        apply IH in H. destruct H as [-> ->].
        assert (Hk : (S k <= S w)%nat) by lia.
        rewrite skipn_skipn, <- app_assoc, <- firstn_plus.
        replace (S k + (S w - S k))%nat with (S w) by lia.
        replace (S w - S k + S k)%nat with (S w) by lia.
        split; reflexivity.
Qed.


End FramingFacts.

Section FramingRoundTrip.

Import Framing.

Lemma ntohs_htons (v : Z) :
  0 <= v <= 65535 -> ntohs_bytes (htons_bytes v) = v.
Proof.
  intros Hv. unfold ntohs_bytes, htons_bytes. cbn [hd tl].
  rewrite Z.mod_small by lia.
  assert (H1 : 0 <= v / 256 < 256)
    by (split; [apply Z.div_pos; lia|apply Z.div_lt_upper_bound; lia]).
  assert (H2 : 0 <= v mod 256 < 256) by (apply Z.mod_pos_bound; lia).
  rewrite !N_ascii_embedding by lia.
  rewrite !Z2N.id by lia.
  pose proof (Z.div_mod v 256). lia.
Qed.

Lemma frame_split (x tail : list ascii) :
  firstn 2 (frame x ++ tail) = htons_bytes (Z.of_nat (length x))
  /\ skipn 2 (frame x ++ tail) = x ++ tail.
Proof. split; reflexivity. Qed.

(** A successful [write_message] has appended the frame of the string in
    [message]. *)
Lemma write_message_done (script : list sys_result) (message wire : list ascii)
    (wire' : list ascii) (script' : list sys_result) :
  write_message script message wire = WDone wire' script' ->
  wire' = wire ++ frame (cstr message).
Proof.
  unfold write_message, frame, strlen.
  destruct (write_loop script _ wire) as [w1 s1| |] eqn:E1; try discriminate.
  intros E2. apply write_loop_done in E1, E2. subst. now rewrite <- app_assoc.
Qed.


(** A successful [read_message] on a wire that starts with the frame of
    [x] returns [x] and leaves what follows the frame. *)
Lemma read_message_done (script : list sys_result) (alloc_ok : bool)
    (x tail m rest : list ascii) (script' : list sys_result) :
  Z.of_nat (length x) <= 65535 ->
  read_message script alloc_ok (frame x ++ tail) = RDone m rest script' ->
  m = x /\ rest = tail.
Proof.
  intros Hx. unfold read_message.
  destruct (read_loop script 2 (frame x ++ tail) []) as [lb w1 s1| |] eqn:E1;
    try discriminate.
  apply read_loop_done in E1. destruct E1 as [-> ->].
  destruct (frame_split x tail) as [-> ->]. cbn [app].
  rewrite ntohs_htons by lia. rewrite Nat2Z.id.
  destruct alloc_ok; cbn [negb]; [|discriminate].
  intros E2. apply read_loop_done in E2. destruct E2 as [-> ->]. cbn [app].
  rewrite firstn_app, skipn_app, Nat.sub_diag, firstn_all, skipn_all.
  cbn [firstn skipn app]. now rewrite app_nil_r.
Qed.


End FramingRoundTrip.




(** ** C9: the hall-call client *)

Section CallClient.

Lemma cstr_no_nul_id (s : list ascii) :
  Forall (fun c => isspace c = false /\ is_nul c = false) s -> cstr s = s.
Proof.
  induction 1 as [|c s [_ Hc] _ IH]; cbn [cstr]; [reflexivity|].
  now rewrite Hc, IH.
Qed.

Lemma call_message_fits (src dst : list ascii) :
  Spec.valid_label src -> Spec.valid_label dst ->
  firstn 31 (lit "CALL " ++ cstr src ++ lit " " ++ cstr dst)
  = lit "CALL " ++ cstr src ++ lit " " ++ cstr dst.
Proof.
  intros Hs Hd. apply valid_label_length in Hs, Hd.
  apply firstn_all2. rewrite !length_app. simpl. lia.
Qed.

(** White space skipped by [sscanf], and what is left. *)
Lemma skip_spaces_split (s : list ascii) :
  exists gap,
    s = gap ++ skip_spaces s
    /\ Forall (fun c => isspace c = true) gap
    /\ match skip_spaces s with [] => True | c :: _ => isspace c = false end.
Proof.
  induction s as [|c s (gap & Hs & Hg & Hh)]; cbn [skip_spaces].
  - exists []. repeat split. constructor.
  - destruct (isspace c) eqn:Ec.
    + exists (c :: gap). cbn [app]. rewrite <- Hs. repeat split; try assumption.
      now constructor.
    + exists []. repeat split; [constructor|exact Ec].
Qed.

Lemma skip_spaces_gap (gap s : list ascii) :
  Forall (fun c => isspace c = true) gap ->
  skip_spaces (gap ++ s) = skip_spaces s.
Proof.
  induction 1 as [|c gap Hc _ IH]; [reflexivity|].
  cbn [app skip_spaces]. now rewrite Hc.
Qed.

(** The word that [%Ns] reads, and what is left. *)
Lemma scan_word_split (width : nat) :
  forall s word rest,
    scan_word width s = (word, rest) ->
    s = word ++ rest
    /\ Forall (fun c => isspace c = false) word
    /\ (length word <= width)%nat
    /\ (length word = width
        \/ match rest with [] => True | c :: _ => isspace c = true end).
Proof.
  induction width as [|w IH]; intros s word rest H.
  - cbn [scan_word] in H. injection H as <- <-.
    repeat split; [constructor|reflexivity|now left].
  - destruct s as [|c s]; cbn [scan_word] in H.
    + injection H as <- <-. repeat split; [constructor|simpl; lia|now right].
    + destruct (isspace c) eqn:Ec.
      * injection H as <- <-. repeat split; [constructor|simpl; lia|now right].
      * destruct (scan_word w s) as [word' rest'] eqn:E.
        injection H as <- <-.
        destruct (IH _ _ _ E) as (Hs & Hw & Hl & Hr).
        subst s. repeat split.
        -- now constructor.
        -- simpl. lia.
        -- destruct Hr as [Hr|Hr]; [left; simpl; lia|now right].
Qed.

Lemma scan_word_word (width : nat) :
  forall word rest,
    Forall (fun c => isspace c = false) word ->
    (length word <= width)%nat ->
    (length word = width
     \/ match rest with [] => True | c :: _ => isspace c = true end) ->
    scan_word width (word ++ rest) = (word, rest).
Proof.
  induction width as [|w IH]; intros word rest Hw Hl Hr.
  - destruct word; [|simpl in Hl; lia]. now destruct rest.
  - destruct word as [|c word].
    + destruct Hr as [Hr|Hr]; [discriminate|].
      destruct rest as [|d rest]; [reflexivity|].
      cbn [app scan_word]. now rewrite Hr.
    + inversion Hw as [|? ? Hc Hw']; subst.
      cbn [app scan_word]. rewrite Hc.
      rewrite IH; [reflexivity|exact Hw'|simpl in Hl; lia|].
      destruct Hr as [Hr|Hr]; [left; simpl in Hr; lia|now right].
Qed.

Lemma cstr_prefix_CAR (reply tail : list ascii) :
  cstr reply = lit "CAR " ++ tail ->
  strncmp reply (lit "CAR ") 4 = 0
  /\ scanf_lit (lit "CAR") (cstr reply) = Some (" "%char :: tail).
Proof.
  intros H. split.
  - apply strncmp_zero_iff. now rewrite H.
  - now rewrite H.
Qed.

Lemma strncmp_CAR_prefix (reply : list ascii) :
  strncmp reply (lit "CAR ") 4 = 0 ->
  exists tail, cstr reply = lit "CAR " ++ tail.
Proof.
  intros H. apply strncmp_zero_iff in H.
  change (firstn 4 (cstr (lit "CAR "))) with (lit "CAR ") in H.
  exists (skipn 4 (cstr reply)).
  rewrite <- H. symmetry. apply firstn_skipn.
Qed.

(** A reply that names a car is scanned to that name. *)
Lemma car_reply_scanned (reply name : list ascii) :
  Spec.car_reply reply name ->
  strncmp reply (lit "CAR ") 4 = 0 /\ Call.sscanf_car reply = Some name.
Proof.
  intros (gap & rest & Hc & Hg & Hne & Hn & Hl & Hr).
  destruct (cstr_prefix_CAR _ _ Hc) as [H0 Hlit].
  split; [exact H0|].
  unfold Call.sscanf_car. rewrite Hlit.
  unfold scanf_s. cbn [skip_spaces]. change (isspace " ") with true. cbv iota.
  rewrite skip_spaces_gap by exact Hg.
  destruct name as [|c name]; [contradiction Hne; reflexivity|].
  inversion Hn as [|? ? Hcs Hn']; subst.
  cbn [app skip_spaces]. rewrite Hcs.
  change (c :: name ++ rest) with ((c :: name) ++ rest).
  now rewrite scan_word_word.
Qed.

(** A reply scanned to a name is one that names that car. *)
Lemma scanned_car_reply (reply name : list ascii) :
  strncmp reply (lit "CAR ") 4 = 0 ->
  Call.sscanf_car reply = Some name ->
  Spec.car_reply reply name.
Proof.
  intros H0 Hscan. destruct (strncmp_CAR_prefix _ H0) as [tail Hc].
  destruct (cstr_prefix_CAR _ _ Hc) as [_ Hlit].
  unfold Call.sscanf_car in Hscan. rewrite Hlit in Hscan.
  unfold scanf_s in Hscan. cbn [skip_spaces] in Hscan.
  change (isspace " ") with true in Hscan. cbv iota in Hscan.
  destruct (skip_spaces_split tail) as (gap & Ht & Hg & Hh).
  destruct (skip_spaces tail) as [|c s'] eqn:Es; [discriminate|].
  destruct (scan_word 31 (c :: s')) as [word rest] eqn:Ew.
  injection Hscan as ->.
  destruct (scan_word_split _ _ _ _ Ew) as (Hs & Hw & Hl & Hr).
  exists gap, rest. rewrite Hc, Ht, Hs.
  repeat split; try assumption.
  intros ->.
  change (scan_word 31 (c :: s'))
    with (if isspace c then ([], c :: s')
          else let '(word, rest) := scan_word 30 s' in (c :: word, rest)) in Ew.
  rewrite Hh in Ew. destruct (scan_word 30 s'). discriminate Ew.
Qed.

(** The plain reply [CAR <name>] names the car [name]. *)
Lemma car_name_reply (name : list ascii) :
  Spec.car_name name -> Spec.car_reply (lit "CAR " ++ name) name.
Proof.
  intros (Hne & Hl & Hn). exists [], [].
  assert (Hc : cstr (lit "CAR " ++ name) = lit "CAR " ++ name).
  { change (lit "CAR " ++ name)
      with ("C"%char :: "A"%char :: "R"%char :: " "%char :: name).
    cbn [cstr]. change (is_nul "C") with false. change (is_nul "A") with false.
    change (is_nul "R") with false. change (is_nul " ") with false.
    cbv iota. now rewrite cstr_no_nul_id. }
  rewrite Hc, app_nil_r. cbn [app].
  repeat split; try assumption; [constructor| |now right].
  eapply Forall_impl; [|exact Hn]. now intros c [Hs _].
Qed.

End CallClient.

(** C9 as stated fails for two equal labels: [call 5 5] has two valid floor
    labels and a dispatcher that answers, yet nothing is sent, neither of
    the two messages is printed, and the exit code is 1. *)
Lemma call_same_floor_is_refused :
  Spec.valid_label (lit "5")
  /\ Spec.dispatcher_reached (answering "CAR A")
  /\ Call.main [lit "call"; lit "5"; lit "5"] (answering "CAR A")
     = Call.mk_outcome 1 (lit "You are already on that floor!" ++ [LF]) [] [].
Proof.
  split; [reflexivity|]. split; [|reflexivity].
  unfold Spec.dispatcher_reached. cbn. repeat split; try lia. discriminate.
Qed.

(** C9, amended.  For an invocation with two valid floor labels:
    - equal labels: nothing is sent, the client prints that the caller is
      already on that floor, and exits 1;
    - different labels, dispatcher not reached: the client prints that it
      is unable to connect and exits 1;
    - different labels, dispatcher reached: the client has sent
      [CALL <src> <dst>], exits 0, and prints [Car <name> is arriving.]
      when the reply names a car, and the apology on every other reply,
      [UNAVAILABLE] among them. *)
Theorem call_client_outcome (prog src dst : list ascii) (env : Call.environment) :
  Spec.valid_label src -> Spec.valid_label dst ->
  let out := Call.main [prog; src; dst] env in
  (cstr src = cstr dst ->
   out = Call.mk_outcome 1 (lit "You are already on that floor!" ++ [LF]) [] [])
  /\ (cstr src <> cstr dst -> ~ Spec.dispatcher_reached env ->
      Call.exit_code out = 1 /\ Call.stdout out = Call.unable)
  /\ (cstr src <> cstr dst -> Spec.dispatcher_reached env ->
      Call.exit_code out = 0
      /\ Call.written out = [lit "CALL " ++ cstr src ++ lit " " ++ cstr dst]
      /\ forall reply, Call.response env = Some reply ->
           (forall name, Spec.car_reply reply name ->
              Call.stdout out = lit "Car " ++ name ++ lit " is arriving." ++ [LF])
           /\ ((forall name, ~ Spec.car_reply reply name) ->
               Call.stdout out = Call.sorry)
           /\ (forall name, reply = lit "CAR " ++ name -> Spec.car_name name ->
                Call.stdout out = lit "Car " ++ name ++ lit " is arriving." ++ [LF])
           /\ (cstr reply = lit "UNAVAILABLE" -> Call.stdout out = Call.sorry)).
Proof.
  intros Hs Hd out. subst out. unfold Call.main.
  pose proof Hs as Hs'. pose proof Hd as Hd'.
  unfold Spec.valid_label in Hs', Hd'. rewrite Hs', Hd'. cbn [negb orb].
  rewrite call_message_fits by assumption.
  split; [|split].
  - intros Heq. apply strcmp_zero_iff in Heq. now rewrite Heq.
  - intros Hne Hnr.
    destruct (strcmp src dst =? 0) eqn:E;
      [apply Z.eqb_eq, strcmp_zero_iff in E; contradiction|].
    unfold Spec.dispatcher_reached in Hnr.
    destruct (Call.socket_ret env <? 0) eqn:E1; [split; reflexivity|].
    destruct (Call.inet_pton_ret env <=? 0) eqn:E2; [split; reflexivity|].
    destruct (Call.connect_ret env <? 0) eqn:E3; [split; reflexivity|].
    destruct (Call.write_message_ret env <? 0) eqn:E4; [split; reflexivity|].
    destruct (Call.response env) as [reply|] eqn:E5; [|split; reflexivity].
    exfalso. apply Hnr. bool_facts. repeat split; try lia. discriminate.
  - intros Hne (H1 & H2 & H3 & H4 & H5).
    destruct (strcmp src dst =? 0) eqn:E;
      [apply Z.eqb_eq, strcmp_zero_iff in E; contradiction|].
    destruct (Call.socket_ret env <? 0) eqn:E1; [bool_facts; lia|].
    destruct (Call.inet_pton_ret env <=? 0) eqn:E2; [bool_facts; lia|].
    destruct (Call.connect_ret env <? 0) eqn:E3; [bool_facts; lia|].
    destruct (Call.write_message_ret env <? 0) eqn:E4; [bool_facts; lia|].
    destruct (Call.response env) as [reply|] eqn:E5; [|contradiction H5; reflexivity].
    cbn [Call.exit_code Call.written Call.stdout].
    split; [reflexivity|]. split; [reflexivity|].
    intros reply' Hr. injection Hr as <-.
    assert (Hnamed : forall name, Spec.car_reply reply name ->
              (if strncmp reply (lit "CAR ") 4 =? 0
               then match Call.sscanf_car reply with
                    | Some car_name =>
                        lit "Car " ++ car_name ++ lit " is arriving." ++ [LF]
                    | None => Call.sorry
                    end
               else if strcmp reply (lit "UNAVAILABLE") =? 0 then Call.sorry
                    else Call.sorry)
              = lit "Car " ++ name ++ lit " is arriving." ++ [LF]).
    { intros name Hname. destruct (car_reply_scanned _ _ Hname) as [Hc Hscan].
      now rewrite Hc, Z.eqb_refl, Hscan. }
    split; [exact Hnamed|]. split; [|split].
    + intros Hnone.
      destruct (strncmp reply (lit "CAR ") 4 =? 0) eqn:Ec.
      * destruct (Call.sscanf_car reply) as [name|] eqn:Escan; [|reflexivity].
        exfalso. apply (Hnone name). apply scanned_car_reply; [|exact Escan].
        now apply Z.eqb_eq.
      * destruct (strcmp reply (lit "UNAVAILABLE") =? 0); reflexivity.
    + intros name -> Hname. apply Hnamed. now apply car_name_reply.
    + intros Hu.
      destruct (strncmp reply (lit "CAR ") 4 =? 0) eqn:Ec.
      * apply Z.eqb_eq, strncmp_zero_iff in Ec. rewrite Hu in Ec. discriminate.
      * destruct (strcmp reply (lit "UNAVAILABLE") =? 0); reflexivity.
Qed.

Lemma call_client_outcome_witness :
  Call.stdout (Call.main [lit "call"; lit "3"; lit "7"] (answering "CAR A"))
  = lit "Car A is arriving." ++ [LF]
  /\ Call.exit_code (Call.main [lit "call"; lit "3"; lit "7"] (answering "CAR A")) = 0.
Proof.
  destruct (call_client_outcome (lit "call") (lit "3") (lit "7") (answering "CAR A"))
    as (_ & _ & H); [reflexivity|reflexivity|].
  destruct H as (Hexit & _ & Hout).
  - vm_compute. discriminate.
  - unfold Spec.dispatcher_reached. cbn. repeat split; try lia. discriminate.
  - destruct (Hout (lit "CAR A") eq_refl) as (_ & _ & Hcar & _).
    split; [|exact Hexit].
    apply (Hcar (lit "A")); [reflexivity|].
    unfold Spec.car_name. split; [discriminate|]. split; [simpl; lia|].
    repeat constructor.
Defined.

(* ================================================================== *)
(** * Further properties of the sources                               *)
(* ================================================================== *)

(** ** Floor labels *)

Section FloorLabels.

Lemma parse_floor_cstr (s : list ascii) : parse_floor (cstr s) = parse_floor s.
Proof. unfold parse_floor. now rewrite cstr_idem. Qed.

Lemma parse_floor_same_text (a b : list ascii) :
  cstr a = cstr b -> parse_floor a = parse_floor b.
Proof. intros H. now rewrite <- (parse_floor_cstr a), H, parse_floor_cstr. Qed.

Lemma parse_floor_basement (s : list ascii) :
  ok (parse_floor s) = true ->
  is_basement (parse_floor s) = (numeric (parse_floor s) <? 0).
Proof.
  unfold parse_floor.
  destruct (Nat.eqb (length (cstr s)) 0 || Nat.ltb 3 (length (cstr s)))%bool;
    [discriminate|].
  destruct (Ascii.eqb (hd NUL (cstr s)) "B").
  - destruct (Nat.ltb (length (cstr s)) 2); [discriminate|].
    destruct (strtol (tl (cstr s))) as [floor_num endptr].
    destruct (negb (is_nul (hd NUL endptr)) || (floor_num <? 1) || (floor_num >? 99))%bool
      eqn:E; [discriminate|].
    destruct (Ascii.eqb (hd NUL (tl (cstr s))) "0" && negb (floor_num =? 0))%bool;
      [discriminate|].
    intros _. cbn [numeric is_basement]. bool_facts. symmetry. apply Z.ltb_lt. lia.
  - destruct (strtol (cstr s)) as [floor_num endptr].
    destruct (negb (is_nul (hd NUL endptr)) || (floor_num <? 1) || (floor_num >? 999))%bool
      eqn:E; [discriminate|].
    destruct (Ascii.eqb (hd NUL (cstr s)) "0" && negb (floor_num =? 0))%bool;
      [discriminate|].
    intros _. cbn [numeric is_basement]. bool_facts. symmetry. apply Z.ltb_ge. lia.
Qed.

Lemma is_floor_number_spec (n : Z) :
  Shape.is_floor_number n = true <-> -99 <= n <= 999 /\ n <> 0.
Proof.
  unfold Shape.is_floor_number.
  rewrite !andb_true_iff, negb_true_iff, Z.eqb_neq, !Z.leb_le. tauto.
Qed.

End FloorLabels.


(** X2.  Every string that [parse_floor] accepts, canonical or not, is
    formatted to a label that parses to the same floor. *)
Theorem parse_then_format (s : list ascii) :
  ok (parse_floor s) = true ->
  parse_floor (floor_to_string (numeric (parse_floor s)) (is_basement (parse_floor s)))
  = parse_floor s.
Proof.
  intros H.
  pose proof (parse_floor_range s H) as [Hr Hz].
  pose proof (parse_floor_basement s H) as Hb.
  rewrite Hb. fold (Spec.label_of (numeric (parse_floor s))).
  rewrite (parse_label_of _ Hr Hz), <- Hb.
  destruct (parse_floor s) as [o m b]. cbn [ok numeric is_basement] in *.
  now subst o.
Qed.

Lemma parse_then_format_witness :
  parse_floor (floor_to_string (numeric (parse_floor (lit "+5")))
                               (is_basement (parse_floor (lit "+5"))))
  = parse_floor (lit "+5").
Proof. apply (parse_then_format (lit "+5")). reflexivity. Defined.

(** X3.  [compare_floors] is antisymmetric on all strings, and on strings
    that parse it is the sign of the difference of the floor numbers. *)
Theorem compare_floors_order (a b : list ascii) :
  compare_floors b a = - compare_floors a b
  /\ (ok (parse_floor a) = true -> ok (parse_floor b) = true ->
      compare_floors a b
      = Z.sgn (numeric (parse_floor a) - numeric (parse_floor b))).
Proof.
  unfold compare_floors. split.
  - destruct (ok (parse_floor a)), (ok (parse_floor b)); cbn [negb orb];
      try reflexivity.
    rewrite !Z.gtb_ltb.
    destruct (numeric (parse_floor a) <? numeric (parse_floor b)) eqn:E1,
             (numeric (parse_floor b) <? numeric (parse_floor a)) eqn:E2;
      bool_facts; try lia; reflexivity.
  - intros -> ->. cbn [negb orb]. rewrite Z.gtb_ltb.
    destruct (numeric (parse_floor a) <? numeric (parse_floor b)) eqn:E1,
             (numeric (parse_floor b) <? numeric (parse_floor a)) eqn:E2;
      bool_facts; lia.
Qed.

Lemma compare_floors_order_witness :
  compare_floors (lit "B2") (lit "3") = Z.sgn (-2 - 3).
Proof.
  apply (proj2 (compare_floors_order (lit "B2") (lit "3"))); reflexivity.
Defined.

(** ** One step of motion *)

Lemma floor_to_string_off_labels (n : Z) (b : bool) :
  Shape.is_floor_number n = false -> floor_to_string n b = [].
Proof.
  intros Hn.
  assert (Hnot : ~ (-99 <= n <= 999 /\ n <> 0))
    by (intros H; apply is_floor_number_spec in H; congruence).
  unfold floor_to_string.
  destruct b; cbn [andb negb].
  - destruct (n <? 0) eqn:E1; [|reflexivity].
    destruct ((- n >=? 1) && (- n <=? 99))%bool eqn:E2; [|reflexivity].
    exfalso. rewrite Z.geb_leb in E2.
    apply andb_true_iff in E2. destruct E2 as [E2 E3].
    apply Z.leb_le in E2, E3. apply Z.ltb_lt in E1. apply Hnot. lia.
  - destruct (n >=? 1) eqn:E1; [|reflexivity].
    destruct (n <=? 999) eqn:E2; [|reflexivity].
    exfalso. rewrite Z.geb_leb in E1. apply Z.leb_le in E1, E2.
    apply Hnot. lia.
Qed.

Section StepFacts.

Variables current destination lowest highest output : list ascii.

Hypothesis current_ok : ok (parse_floor current) = true.
Hypothesis destination_ok : ok (parse_floor destination) = true.

Let stepped : Z := Shape.stepped current destination.

Lemma stepped_range : -100 <= stepped <= 999.
Proof.
  pose proof (parse_floor_range _ current_ok).
  pose proof (parse_floor_range _ destination_ok).
  unfold stepped, Shape.stepped. rewrite Z.gtb_ltb.
  destruct (numeric (parse_floor current) <? numeric (parse_floor destination)) eqn:E;
    bool_facts; lia.
Qed.

Lemma next_floor_towards_output :
  next_floor_towards current destination lowest highest output MAX_FLOOR_LEN
  = let out := floor_to_string stepped (stepped <? 0) in
    (if is_valid_floor_range out lowest highest then 0 else -1, out).
Proof.
  unfold next_floor_towards.
  rewrite Nat.ltb_irrefl, current_ok, destination_ok. cbn [negb orb].
  fold (Shape.stepped current destination). fold stepped.
  replace (if stepped <? 0 then floor_to_string stepped true
           else floor_to_string stepped false)
    with (floor_to_string stepped (stepped <? 0))
    by (destruct (stepped <? 0); reflexivity).
  cbv zeta. destruct (is_valid_floor_range _ lowest highest); reflexivity.
Qed.

End StepFacts.

Lemma label_parses (n : Z) :
  Shape.is_floor_number n = true ->
  parse_floor (floor_to_string n (n <? 0)) = mk_floor_info true n (n <? 0).
Proof.
  intros Hn. apply is_floor_number_spec in Hn. destruct Hn as [Hr Hz].
  exact (parse_label_of n Hr Hz).
Qed.

(** The range check on the label of a floor number, for valid bounds. *)
Lemma range_check_label (n : Z) (lowest highest : list ascii) :
  Shape.is_floor_number n = true ->
  ok (parse_floor lowest) = true -> ok (parse_floor highest) = true ->
  is_valid_floor_range (floor_to_string n (n <? 0)) lowest highest
  = ((numeric (parse_floor lowest) <=? n) && (n <=? numeric (parse_floor highest)))%bool.
Proof.
  intros Hn Hlo Hhi.
  unfold is_valid_floor_range, compare_floors.
  rewrite (label_parses n Hn), Hlo, Hhi.
  cbn [ok numeric negb orb]. rewrite !Z.gtb_ltb.
  destruct (numeric (parse_floor lowest) <=? n) eqn:E1,
           (n <=? numeric (parse_floor highest)) eqn:E2,
           (n <? numeric (parse_floor lowest)) eqn:E3,
           (numeric (parse_floor lowest) <? n) eqn:E4,
           (n <? numeric (parse_floor highest)) eqn:E5,
           (numeric (parse_floor highest) <? n) eqn:E6;
    bool_facts; try lia; reflexivity.
Qed.

(** X4.  For valid labels, [next_floor_towards] moves one floor up when the
    destination is above the current floor and one floor down otherwise,
    also when the two are the same floor.  When the floor reached has a
    label and the bounds are valid, it leaves that label in [output] and
    returns 0 exactly when the floor lies within the bounds. *)
Theorem next_floor_towards_direction
    (current destination lowest highest output : list ascii) :
  ok (parse_floor current) = true -> ok (parse_floor destination) = true ->
  ok (parse_floor lowest) = true -> ok (parse_floor highest) = true ->
  let n := Shape.stepped current destination in
  Shape.is_floor_number n = true ->
  next_floor_towards current destination lowest highest output MAX_FLOOR_LEN
  = (if ((numeric (parse_floor lowest) <=? n) && (n <=? numeric (parse_floor highest)))%bool
     then 0 else -1,
     floor_to_string n (n <? 0))
  /\ parse_floor (floor_to_string n (n <? 0)) = mk_floor_info true n (n <? 0).
Proof.
  intros Hc Hd Hlo Hhi n Hn.
  split; [|now apply label_parses].
  rewrite (next_floor_towards_output _ _ _ _ _ Hc Hd).
  fold n. cbv zeta.
  now rewrite range_check_label.
Qed.

Lemma next_floor_towards_direction_witness :
  next_floor_towards (lit "5") (lit "5") (lit "1") (lit "10") [] MAX_FLOOR_LEN
  = (0, lit "4").
Proof.
  apply (next_floor_towards_direction (lit "5") (lit "5") (lit "1") (lit "10") []);
    reflexivity.
Defined.

(** X5.  When the step leaves the floors that have a label (from 1 down,
    from B1 up, or from B99 down), [next_floor_towards] reports success
    with an empty string in [output], whatever the bounds are. *)
Theorem next_floor_towards_off_the_labels
    (current destination lowest highest output : list ascii) :
  ok (parse_floor current) = true -> ok (parse_floor destination) = true ->
  Shape.is_floor_number (Shape.stepped current destination) = false ->
  next_floor_towards current destination lowest highest output MAX_FLOOR_LEN
  = (0, []).
Proof.
  intros Hc Hd Hn.
  rewrite (next_floor_towards_output _ _ _ _ _ Hc Hd). cbv zeta.
  assert (E : floor_to_string (Shape.stepped current destination)
                (Shape.stepped current destination <? 0) = [])
    by (now apply floor_to_string_off_labels).
  rewrite E.
  unfold is_valid_floor_range.
  rewrite !compare_floors_invalid_left by reflexivity. reflexivity.
Qed.

Lemma next_floor_towards_off_the_labels_witness :
  next_floor_towards (lit "1") (lit "B2") (lit "B2") (lit "5") [] MAX_FLOOR_LEN
  = (0, []).
Proof.
  apply (next_floor_towards_off_the_labels (lit "1") (lit "B2") (lit "B2") (lit "5") []);
    reflexivity.
Defined.

(** ** The safety monitor, continued *)

Ltac unfold_cycle :=
  unfold Safety.cycle, Safety.process_safety_actions, Safety.handle_safety_violation.

Lemma cycle_sensors (shm : car_shared_mem) :
  door_obstruction (Safety.cycle shm) = door_obstruction shm
  /\ overload (Safety.cycle shm) = overload shm.
Proof.
  destruct shm. unfold_cycle. break_ifs; split; reflexivity.
Qed.

(** X6.  A monitor cycle writes only the heartbeat counter, the status and
    the two emergency fields: the floors, the door buttons, the obstruction
    and overload sensors and the service-mode flag come out as they went
    in. *)
Theorem monitor_leaves_other_fields (shm : car_shared_mem) :
  Shm.current_floor (Safety.cycle shm) = Shm.current_floor shm
  /\ Shm.destination_floor (Safety.cycle shm) = Shm.destination_floor shm
  /\ open_button (Safety.cycle shm) = open_button shm
  /\ close_button (Safety.cycle shm) = close_button shm
  /\ door_obstruction (Safety.cycle shm) = door_obstruction shm
  /\ overload (Safety.cycle shm) = overload shm
  /\ individual_service_mode (Safety.cycle shm) = individual_service_mode shm.
Proof.
  destruct shm. unfold_cycle. break_ifs; repeat split; reflexivity.
Qed.

(** X7.  After a monitor cycle the car is in emergency mode or its record
    passes the monitor's validation. *)
Theorem monitor_leaves_emergency_or_consistency (shm : car_shared_mem) :
  emergency_mode (Safety.cycle shm) = 1
  \/ Safety.perform_safety_validation (Safety.cycle shm) = true.
Proof.
  destruct shm. unfold_cycle.
  break_ifs; try (left; reflexivity); bool_facts;
    try (left; assumption); try (right; assumption); try lia.
Qed.

(** X8.  A pressed stop button takes precedence: with [emergency_stop = 1]
    outside emergency mode, the cycle prints the stop message and nothing
    else, clears the button and sets emergency mode, whatever the overload
    sensor and the rest of the record hold.  Without the stop button, a
    tripped overload sensor prints the overload message alone and stays
    set. *)
Theorem monitor_reports_one_cause (shm : car_shared_mem) :
  emergency_mode shm = 0 ->
  (emergency_stop shm = 1 ->
   snd (fst (Safety.process_safety_actions shm))
   = lit "The emergency stop button has been pressed!" ++ [LF]
   /\ emergency_stop (Safety.cycle shm) = 0
   /\ emergency_mode (Safety.cycle shm) = 1)
  /\ (emergency_stop shm <> 1 -> overload shm = 1 ->
      snd (fst (Safety.process_safety_actions shm))
      = lit "The overload sensor has been tripped!" ++ [LF]
      /\ overload (Safety.cycle shm) = 1
      /\ emergency_mode (Safety.cycle shm) = 1).
Proof.
  destruct shm. shm_simpl. intros ->. split.
  - intros ->. unfold_cycle. break_ifs; repeat split; finish_ifs.
  - intros Hs ->. unfold_cycle. break_ifs; repeat split; finish_ifs.
Qed.

Lemma monitor_reports_one_cause_witness :
  snd (fst (Safety.process_safety_actions
              (set_emergency_stop 1 (set_safety_system 1 fresh_car))))
  = lit "The emergency stop button has been pressed!" ++ [LF].
Proof.
  apply (monitor_reports_one_cause
           (set_emergency_stop 1 (set_safety_system 1 fresh_car)));
    reflexivity.
Defined.

Lemma opening_is_not_closing :
  strncmp (safe_copy (lit "Opening") MAX_STATUS_LEN) (lit "Closing") MAX_STATUS_LEN
  = 12.
Proof. reflexivity. Qed.

Lemma cycle_settled (shm : car_shared_mem) : Shape.settled (Safety.cycle shm).
Proof.
  unfold Shape.settled.
  destruct (cycle_sensors shm) as (Hd & Ho).
  rewrite Hd, Ho, cycle_safety_system.
  split; [destruct (safety_system shm =? 0) eqn:E; [lia|apply Z.eqb_neq; exact E]|].
  split.
  { unfold status_is. rewrite cycle_status. fold (status_is "Closing" shm).
    destruct ((door_obstruction shm =? 1) && status_is "Closing" shm)%bool eqn:E.
    - rewrite opening_is_not_closing. apply andb_false_r.
    - exact E. }
  clear Hd Ho. destruct shm. unfold_cycle.
  break_ifs; repeat split; intros; bool_facts;
    try lia; try congruence; try assumption.
Qed.

Lemma settled_cycle (shm : car_shared_mem) :
  Shape.settled shm -> Safety.process_safety_actions shm = (shm, [], false).
Proof.
  unfold Shape.settled. destruct shm. shm_simpl.
  intros (H1 & H2 & H3 & H4 & H5).
  unfold Safety.process_safety_actions, Safety.handle_safety_violation.
  apply Z.eqb_neq in H1. shm_simpl. rewrite H1. shm_simpl. rewrite H2.
  break_ifs; try reflexivity; exfalso; bool_facts; subst;
    try (specialize (H3 eq_refl)); try (specialize (H4 eq_refl));
    try lia;
    try (rewrite H5 in * by assumption; discriminate).
Qed.

(** X9.  One monitor cycle settles the record: run again on its own
    result, with no other process writing in between, the monitor prints
    nothing, broadcasts nothing and changes nothing. *)
Theorem monitor_cycle_settles (shm : car_shared_mem) :
  Safety.process_safety_actions (Safety.cycle shm) = (Safety.cycle shm, [], false).
Proof. apply settled_cycle, cycle_settled. Qed.

(** ** The car and the processes around it *)

Section CounterFacts.

Variables lowest highest : list ascii.

Lemma handle_buttons_safety_system shm :
  safety_system (Car.handle_close_button (Car.handle_open_button shm))
  = safety_system shm.
Proof.
  unfold Car.handle_close_button, Car.handle_open_button. break_ifs; reflexivity.
Qed.

Lemma closed_branch_safety_system shm :
  safety_system (Car.closed_branch lowest highest shm) = safety_system shm.
Proof. unfold Car.closed_branch. break_ifs; reflexivity. Qed.

Lemma iteration_first_safety_system dwell_over shm :
  safety_system (fst (Car.iteration_first lowest highest dwell_over shm))
  = safety_system shm.
Proof.
  unfold Car.iteration_first.
  set (s := Car.handle_close_button (Car.handle_open_button shm)).
  assert (Hs : safety_system s = safety_system shm)
    by (subst s; apply handle_buttons_safety_system).
  clearbody s.
  repeat (unfold status_is; cbn [fst]; break_if);
    cbn [fst]; rewrite ?closed_branch_safety_system; shm_simpl; exact Hs.
Qed.

Lemma iteration_second_safety_system p shm :
  safety_system (Car.iteration_second lowest highest p shm) = safety_system shm.
Proof.
  unfold Car.iteration_second. destruct p; try (break_ifs; reflexivity).
  destruct (next_floor_towards _ _ _ _ _ _) as [ret next_floor].
  break_ifs; reflexivity.
Qed.

Lemma handle_message_safety_system msg shm :
  safety_system (Car.handle_message msg shm) = safety_system shm.
Proof. unfold Car.handle_message. break_ifs; reflexivity. Qed.

Lemma operate_safety_system operation shm :
  safety_system (fst (Internal.operate operation shm)) = safety_system shm.
Proof. unfold Internal.operate. break_ifs; reflexivity. Qed.

Lemma step_safety_system e shm :
  Shape.beats e = false ->
  safety_system (System.step lowest highest e shm) = safety_system shm.
Proof.
  destruct e; cbn [Shape.beats System.step]; try discriminate; intros _.
  - apply iteration_first_safety_system.
  - apply iteration_second_safety_system.
  - apply handle_message_safety_system.
  - apply operate_safety_system.
  - reflexivity.
Qed.

End CounterFacts.

(** X10.  The heartbeat counter saturates at 3.  On a counter in the range
    of its type, a heartbeat adds one below 3 and nothing from 3 on; it
    reports an emergency exactly from 2 on, and then sets emergency mode,
    after which the thread's next snapshot says not to be connected. *)
Theorem heartbeat_saturates (shm : car_shared_mem) :
  0 <= safety_system shm <= 255 ->
  safety_system (fst (Car.heartbeat shm))
  = (if safety_system shm <? 3 then safety_system shm + 1 else safety_system shm)
  /\ snd (Car.heartbeat shm) = (2 <=? safety_system shm)
  /\ (snd (Car.heartbeat shm) = true ->
      emergency_mode (fst (Car.heartbeat shm)) = 1
      /\ Car.should_connect (fst (Car.heartbeat shm)) = false)
  /\ (snd (Car.heartbeat shm) = false ->
      emergency_mode (fst (Car.heartbeat shm)) = emergency_mode shm).
Proof.
  destruct shm. shm_simpl. intros Hr.
  unfold Car.heartbeat, Car.should_connect. shm_simpl.
  destruct (safety_system0 <? 3) eqn:E1; shm_simpl.
  - rewrite Z.mod_small by (bool_facts; lia).
    destruct (safety_system0 + 1 >=? 3) eqn:E2; shm_simpl;
      (split; [reflexivity|]); bool_facts;
      (split; [symmetry; first [apply Z.leb_le; lia|apply Z.leb_gt; lia]|]);
      split; intros; try discriminate; try reflexivity.
    split; [reflexivity|]. rewrite !andb_false_r. reflexivity.
  - destruct (safety_system0 >=? 3) eqn:E2; shm_simpl; bool_facts; [|lia].
    split; [reflexivity|].
    split; [symmetry; apply Z.leb_le; lia|].
    split; intros; try discriminate.
    split; [reflexivity|]. rewrite !andb_false_r. reflexivity.
Qed.

Lemma heartbeat_saturates_witness :
  safety_system (fst (Car.heartbeat heartbeat_two)) = 3
  /\ snd (Car.heartbeat heartbeat_two) = true.
Proof.
  destruct (heartbeat_saturates heartbeat_two) as (H1 & H2 & _);
    [vm_compute; split; discriminate|].
  split; [exact H1|exact H2].
Defined.

(** X11.  Only the monitor and the heartbeat write the counter: any run of
    the other critical sections (main loop, inbound messages, button tool)
    leaves [safety_system] as it was.  A car just created therefore keeps
    the counter at 0 and its network thread never decides to connect. *)
Theorem counter_written_by_monitor_and_heartbeat_only
    (lowest highest : list ascii) (es : list System.event) :
  Forall (fun e => Shape.beats e = false) es ->
  (forall shm,
      safety_system (System.run lowest highest es shm) = safety_system shm)
  /\ (forall lowest_floor,
         Car.should_connect
           (System.run lowest highest es (create_shared_memory lowest_floor))
         = false).
Proof.
  intros Hes.
  assert (Hrun : forall shm,
             safety_system (System.run lowest highest es shm) = safety_system shm).
  { induction Hes as [|e es He Hes IH]; intros shm; [reflexivity|].
    cbn [System.run]. rewrite IH. now apply step_safety_system. }
  split; [exact Hrun|].
  intros lowest_floor. unfold Car.should_connect. rewrite Hrun. reflexivity.
Qed.

Lemma counter_written_by_monitor_and_heartbeat_only_witness :
  Car.should_connect
    (System.run (lit "1") (lit "10")
       [System.CarFirst false; System.InternalOp (lit "open");
        System.CarFirst false; System.CarSecond Car.AfterOpening]
       (create_shared_memory (lit "1")))
  = false.
Proof.
  apply (counter_written_by_monitor_and_heartbeat_only (lit "1") (lit "10")
           [System.CarFirst false; System.InternalOp (lit "open");
            System.CarFirst false; System.CarSecond Car.AfterOpening]).
  repeat constructor.
Defined.

(** ** Who writes which status *)

Ltac status_leaf :=
  first
    [ left; left; reflexivity
    | left; right; eexists; split; [|reflexivity]; cbn; tauto
    | left; left; assumption ].

Section StatusWriters.

Variables lowest highest : list ascii.

Let written := Shape.door_status_or_same.

Lemma written_refl shm : written shm shm.
Proof. left. reflexivity. Qed.

Lemma written_trans a b c : written a b -> written b c -> written a c.
Proof.
  unfold written, Shape.door_status_or_same.
  intros [Hab|Hab] [Hbc|Hbc]; [left; congruence|right; exact Hbc| |right; exact Hbc].
  right. destruct Hab as (n & Hn & E). exists n. split; [exact Hn|congruence].
Qed.

Lemma handle_open_button_status shm : written shm (Car.handle_open_button shm).
Proof.
  unfold written, Shape.door_status_or_same, Car.handle_open_button.
  break_ifs; first [left; reflexivity
                   |right; eexists; split; [|reflexivity]; cbn; tauto].
Qed.

Lemma handle_close_button_status shm : written shm (Car.handle_close_button shm).
Proof.
  unfold written, Shape.door_status_or_same, Car.handle_close_button.
  break_ifs; first [left; reflexivity
                   |right; eexists; split; [|reflexivity]; cbn; tauto].
Qed.

(** The [Closed] branch is the one place that writes [Between], and it
    does so only outside emergency mode. *)
Lemma closed_branch_status shm :
  Shm.status (Car.closed_branch lowest highest shm) = Shm.status shm
  \/ (Shm.status (Car.closed_branch lowest highest shm)
      = safe_copy (lit "Between") MAX_STATUS_LEN
      /\ emergency_mode shm = 0).
Proof.
  unfold Car.closed_branch.
  break_ifs; first [left; reflexivity|right; split; [reflexivity|]].
  all: bool_facts; assumption.
Qed.

Lemma iteration_first_status dwell_over shm :
  written shm (fst (Car.iteration_first lowest highest dwell_over shm))
  \/ (Shm.status (fst (Car.iteration_first lowest highest dwell_over shm))
      = safe_copy (lit "Between") MAX_STATUS_LEN
      /\ emergency_mode shm = 0).
Proof.
  unfold Car.iteration_first.
  set (s := Car.handle_close_button (Car.handle_open_button shm)).
  assert (Hw : written shm s).
  { subst s. eapply written_trans;
      [apply handle_open_button_status|apply handle_close_button_status]. }
  assert (He : emergency_mode s = emergency_mode shm).
  { subst s. now rewrite handle_close_button_emergency, handle_open_button_emergency. }
  clearbody s.
  repeat (unfold status_is; cbn [fst]; break_if); cbn [fst];
    try (left; exact Hw);
    try (left; eapply written_trans; [exact Hw|left; reflexivity]).
  destruct (closed_branch_status s) as [E|[E Hem]].
  - left. eapply written_trans; [exact Hw|left; exact E].
  - right. split; [exact E|congruence].
Qed.

Lemma iteration_second_status p shm :
  written shm (Car.iteration_second lowest highest p shm).
Proof.
  unfold written, Shape.door_status_or_same, Car.iteration_second.
  destruct p;
    try (break_ifs; first [left; reflexivity
                          |right; eexists; split; [|reflexivity]; cbn; tauto]).
  destruct (next_floor_towards _ _ _ _ _ _) as [ret next_floor].
  break_ifs; first [left; reflexivity
                   |right; eexists; split; [|reflexivity]; cbn; tauto].
Qed.

Lemma handle_message_status msg shm : written shm (Car.handle_message msg shm).
Proof.
  unfold written, Shape.door_status_or_same, Car.handle_message.
  break_ifs; first [left; reflexivity
                   |right; eexists; split; [|reflexivity]; cbn; tauto].
Qed.

Lemma heartbeat_status shm : Shm.status (fst (Car.heartbeat shm)) = Shm.status shm.
Proof. unfold Car.heartbeat. break_ifs; reflexivity. Qed.

Lemma operate_status operation shm :
  Shm.status (fst (Internal.operate operation shm)) = Shm.status shm.
Proof. unfold Internal.operate. break_ifs; reflexivity. Qed.

Lemma cycle_status_written shm : written shm (Safety.cycle shm).
Proof.
  unfold written, Shape.door_status_or_same. rewrite cycle_status.
  destruct ((door_obstruction shm =? 1) && status_is "Closing" shm)%bool;
    [right; exists "Opening"%string; split; [cbn; tauto|reflexivity]
    |left; reflexivity].
Qed.

Lemma step_status e shm :
  written shm (System.step lowest highest e shm)
  \/ (Shm.status (System.step lowest highest e shm)
      = safe_copy (lit "Between") MAX_STATUS_LEN
      /\ emergency_mode shm = 0).
Proof.
  destruct e; cbn [System.step].
  - apply iteration_first_status.
  - left. apply iteration_second_status.
  - left. apply handle_message_status.
  - left. left. apply heartbeat_status.
  - left. apply cycle_status_written.
  - left. left. apply operate_status.
  - left. left. reflexivity.
Qed.

End StatusWriters.

Lemma door_names_valid (n : string) :
  In n Shape.door_names ->
  Safety.is_valid_status (safe_copy (lit n) MAX_STATUS_LEN) = true
  /\ (strncmp (safe_copy (lit n) MAX_STATUS_LEN) (lit "Between") MAX_STATUS_LEN =? 0)
     = false.
Proof.
  cbn. intros [<-|[<-|[<-|[<-|[]]]]]; split; reflexivity.
Qed.

(** X12.  Every critical section of every process leaves a status that the
    monitor accepts: if the status is one of the five names before, it is
    one of them after. *)
Theorem status_stays_a_name
    (lowest highest : list ascii) (e : System.event) (shm : car_shared_mem) :
  Safety.is_valid_status (Shm.status shm) = true ->
  Safety.is_valid_status (Shm.status (System.step lowest highest e shm)) = true.
Proof.
  intros H.
  destruct (step_status lowest highest e shm) as [[E|(n & Hn & E)]|[E _]];
    rewrite E; [exact H|now apply door_names_valid|reflexivity].
Qed.

Lemma status_stays_a_name_witness :
  Safety.is_valid_status
    (Shm.status (System.step (lit "1") (lit "10") (System.CarFirst false) moving_car))
  = true.
Proof.
  apply (status_stays_a_name (lit "1") (lit "10") (System.CarFirst false) moving_car).
  reflexivity.
Defined.

(** X13.  A car in emergency mode does not start to move: if
    [emergency_mode] is not 0 and the status is not [Between], no critical
    section of any process makes the status [Between]. *)
Theorem emergency_mode_blocks_departure
    (lowest highest : list ascii) (e : System.event) (shm : car_shared_mem) :
  emergency_mode shm <> 0 ->
  status_is "Between" shm = false ->
  status_is "Between" (System.step lowest highest e shm) = false.
Proof.
  intros Hem Hst. unfold status_is in *.
  destruct (step_status lowest highest e shm) as [[E|(n & Hn & E)]|[_ E]];
    [rewrite E; exact Hst|rewrite E; now apply door_names_valid|contradiction].
Qed.

Lemma emergency_mode_blocks_departure_witness :
  status_is "Between"
    (System.step (lit "1") (lit "10") (System.CarFirst false)
       (set_destination_floor (safe_copy (lit "3") MAX_FLOOR_LEN) in_emergency))
  = false.
Proof.
  apply (emergency_mode_blocks_departure (lit "1") (lit "10") (System.CarFirst false)
           (set_destination_floor (safe_copy (lit "3") MAX_FLOOR_LEN) in_emergency));
    [vm_compute; discriminate|reflexivity].
Defined.

Lemma between_excludes (st : list ascii) :
  (strncmp st (lit "Between") MAX_STATUS_LEN =? 0) = true ->
  (strncmp st (lit "Opening") MAX_STATUS_LEN =? 0) = false
  /\ (strncmp st (lit "Open") MAX_STATUS_LEN =? 0) = false
  /\ (strncmp st (lit "Closing") MAX_STATUS_LEN =? 0) = false
  /\ (strncmp st (lit "Closed") MAX_STATUS_LEN =? 0) = false.
Proof.
  intros H. apply Z.eqb_eq in H.
  apply strncmp_zero_short in H; [|simpl; unfold MAX_STATUS_LEN; lia].
  repeat split; apply Z.eqb_neq; intros E;
    (apply strncmp_zero_short in E; [|simpl; unfold MAX_STATUS_LEN; lia]);
    rewrite H in E; discriminate E.
Qed.

Section LeavingBetween.

Variables lowest highest : list ascii.
Variable shm : car_shared_mem.
Hypothesis moving : status_is "Between" shm = true.

Lemma open_button_keeps_between :
  Shm.status (Car.handle_open_button shm) = Shm.status shm.
Proof.
  destruct shm. unfold status_is in moving. shm_simpl.
  destruct (between_excludes _ moving) as (F1 & F2 & F3 & F4).
  unfold Car.handle_open_button.
  shm_simpl. rewrite F3, F4. cbn [orb]. break_ifs; reflexivity.
Qed.

Lemma buttons_keep_between :
  Shm.status (Car.handle_close_button (Car.handle_open_button shm)) = Shm.status shm.
Proof.
  pose proof open_button_keeps_between as Ho.
  set (s := Car.handle_open_button shm) in *. clearbody s.
  unfold status_is in moving. rewrite <- Ho in moving.
  destruct (between_excludes _ moving) as (F1 & F2 & F3 & F4).
  rewrite <- Ho. destruct s. shm_simpl.
  unfold Car.handle_close_button.
  shm_simpl. rewrite F2. break_ifs; reflexivity.
Qed.

Lemma iteration_first_keeps_between dwell_over :
  Shm.status (fst (Car.iteration_first lowest highest dwell_over shm))
  = Shm.status shm.
Proof.
  unfold Car.iteration_first.
  pose proof buttons_keep_between as Hb.
  set (s := Car.handle_close_button (Car.handle_open_button shm)) in *.
  clearbody s. unfold status_is in *. rewrite Hb.
  destruct (between_excludes _ moving) as (F1 & F2 & F3 & F4).
  rewrite F1, F2, F3, F4, moving. cbn [fst]. exact Hb.
Qed.

Lemma iteration_second_leaves_between p :
  Shm.status (Car.iteration_second lowest highest p shm) = Shm.status shm
  \/ exists service_mode,
       p = Car.AfterBetween service_mode
       /\ Shm.status (Car.iteration_second lowest highest p shm)
          = safe_copy (lit (if service_mode =? 0 then "Opening" else "Closed"))
                      MAX_STATUS_LEN
       /\ strncmp (Shm.current_floor (Car.iteration_second lowest highest p shm))
                  (Shm.destination_floor (Car.iteration_second lowest highest p shm))
                  MAX_FLOOR_LEN = 0.
Proof.
  unfold status_is in moving.
  destruct (between_excludes _ moving) as (F1 & F2 & F3 & F4).
  unfold Car.iteration_second, status_is.
  destruct p as [| | | |service_mode];
    rewrite ?F1, ?F2, ?F3, ?F4, ?andb_false_l; try (left; reflexivity).
  rewrite moving.
  destruct (next_floor_towards _ _ _ _ _ _) as [ret next_floor].
  set (s := if ret =? 0
            then set_current_floor (safe_copy next_floor MAX_FLOOR_LEN) shm
            else shm).
  assert (Hs : Shm.status s = Shm.status shm
               /\ Shm.destination_floor s = Shm.destination_floor shm)
    by (subst s; destruct (ret =? 0); split; reflexivity).
  clearbody s.
  destruct (strncmp (Shm.current_floor s) (Shm.destination_floor s) MAX_FLOOR_LEN =? 0)
    eqn:E; [|left; apply Hs].
  right. exists service_mode. split; [reflexivity|].
  apply Z.eqb_eq in E.
  destruct (service_mode =? 0); cbn [negb]; split; try reflexivity; exact E.
Qed.

End LeavingBetween.

(** X14.  A car leaves [Between] only by arriving: from status [Between],
    the one critical section that changes the status is the main loop's
    section after the travel delay, at the moment the current floor equals
    the destination; it writes [Opening], or [Closed] when the car was in
    service mode.  Buttons, inbound messages, the monitor and the button
    tool leave a moving car moving. *)
Theorem between_is_left_on_arrival_only
    (lowest highest : list ascii) (e : System.event) (shm : car_shared_mem) :
  status_is "Between" shm = true ->
  Shm.status (System.step lowest highest e shm) = Shm.status shm
  \/ exists service_mode,
       e = System.CarSecond (Car.AfterBetween service_mode)
       /\ Shm.status (System.step lowest highest e shm)
          = safe_copy (lit (if service_mode =? 0 then "Opening" else "Closed"))
                      MAX_STATUS_LEN
       /\ strncmp (Shm.current_floor (System.step lowest highest e shm))
                  (Shm.destination_floor (System.step lowest highest e shm))
                  MAX_FLOOR_LEN = 0.
Proof.
  intros Hb. destruct e; cbn [System.step].
  - left. now apply iteration_first_keeps_between.
  - destruct (iteration_second_leaves_between lowest highest shm Hb p)
      as [E|(sm & -> & E1 & E2)]; [left; exact E|].
    right. exists sm. repeat split; assumption.
  - left. unfold Car.handle_message.
    destruct (strncmp msg (lit "FLOOR ") 6 =? 0); [|reflexivity].
    now rewrite Hb.
  - left. apply heartbeat_status.
  - left. rewrite cycle_status.
    unfold status_is in *. destruct (between_excludes _ Hb) as (_ & _ & F & _).
    rewrite F, andb_false_r. reflexivity.
  - left. apply operate_status.
  - left. reflexivity.
Qed.

Lemma between_is_left_on_arrival_only_witness :
  Shm.status (System.step (lit "1") (lit "10") (System.InternalOp (lit "open")) moving_car)
  = Shm.status moving_car
  \/ exists service_mode,
       System.InternalOp (lit "open") = System.CarSecond (Car.AfterBetween service_mode)
       /\ Shm.status (System.step (lit "1") (lit "10") (System.InternalOp (lit "open")) moving_car)
          = safe_copy (lit (if service_mode =? 0 then "Opening" else "Closed"))
                      MAX_STATUS_LEN
       /\ strncmp (Shm.current_floor (System.step (lit "1") (lit "10") (System.InternalOp (lit "open")) moving_car))
                  (Shm.destination_floor (System.step (lit "1") (lit "10") (System.InternalOp (lit "open")) moving_car))
                  MAX_FLOOR_LEN = 0.
Proof.
  apply (between_is_left_on_arrival_only (lit "1") (lit "10")
           (System.InternalOp (lit "open")) moving_car).
  reflexivity.
Defined.

(** ** Travel *)

Lemma all_labels_are_text :
  forallb Shape.label_is_text Spec.floor_numbers = true.
Proof. vm_compute. reflexivity. Qed.

Lemma label_text (n : Z) :
  Shape.is_floor_number n = true ->
  cstr (floor_to_string n (n <? 0)) = floor_to_string n (n <? 0).
Proof.
  intros Hn. apply is_floor_number_spec in Hn. destruct Hn as [Hr _].
  pose proof all_labels_are_text as H. rewrite forallb_forall in H.
  specialize (H n).
  assert (Hin : In n Spec.floor_numbers).
  { unfold Spec.floor_numbers. apply in_map_iff.
    exists (Z.to_nat (n + 99)). split; [lia|]. apply in_seq. lia. }
  apply H in Hin. unfold Shape.label_is_text in Hin.
  destruct (list_eq_dec ascii_dec _ _) as [E|E]; [exact E|discriminate].
Qed.

Section TravelStep.

Variables lowest highest : list ascii.
Variable service_mode : Z.
Variable shm : car_shared_mem.

Hypothesis moving : status_is "Between" shm = true.
Hypothesis current_ok : ok (parse_floor (Shm.current_floor shm)) = true.
Hypothesis destination_ok : ok (parse_floor (Shm.destination_floor shm)) = true.
Hypothesis lowest_ok : ok (parse_floor lowest) = true.
Hypothesis highest_ok : ok (parse_floor highest) = true.

Let n : Z := Shape.stepped (Shm.current_floor shm) (Shm.destination_floor shm).
Let label : list ascii := floor_to_string n (n <? 0).

Hypothesis n_is_floor : Shape.is_floor_number n = true.
Hypothesis n_in_range :
  numeric (parse_floor lowest) <= n <= numeric (parse_floor highest).

Let arrived : car_shared_mem :=
  set_current_floor (safe_copy label MAX_FLOOR_LEN) shm.

(** The arrival test of the main loop compares the two strings. *)
Lemma arrival_test :
  (strncmp (safe_copy label MAX_FLOOR_LEN) (Shm.destination_floor shm) MAX_FLOOR_LEN =? 0)
  = true
  <-> cstr (Shm.destination_floor shm) = label.
Proof.
  rewrite Z.eqb_eq.
  pose proof (valid_label_length _ destination_ok) as Hl.
  rewrite strncmp_zero_short by (unfold MAX_FLOOR_LEN; lia).
  assert (Hlab : ok (parse_floor label) = true)
    by (unfold label; now rewrite label_parses).
  rewrite (cstr_safe_copy_label _ Hlab).
  unfold label. rewrite (label_text n n_is_floor). split; congruence.
Qed.

Lemma travel_step_value :
  Car.iteration_second lowest highest (Car.AfterBetween service_mode) shm
  = if strncmp (safe_copy label MAX_FLOOR_LEN) (Shm.destination_floor shm)
         MAX_FLOOR_LEN =? 0
    then if negb (service_mode =? 0)
         then copy_status "Closed" arrived
         else copy_status "Opening" arrived
    else arrived.
Proof.
  unfold Car.iteration_second. rewrite moving.
  change Car.FLOOR_STRING_MAX_LEN with MAX_FLOOR_LEN.
  rewrite (next_floor_towards_output _ _ lowest highest [] current_ok destination_ok).
  fold n. fold label. cbv zeta.
  unfold label at 1. rewrite (range_check_label n _ _ n_is_floor lowest_ok highest_ok).
  fold label.
  replace ((numeric (parse_floor lowest) <=? n) && (n <=? numeric (parse_floor highest)))%bool
    with true
    by (symmetry; apply andb_true_iff; split; apply Z.leb_le; lia).
  change (0 =? 0) with true. cbv iota. fold arrived.
  reflexivity.
Qed.

End TravelStep.

(** X15.  The decision of the [Closed] branch for a valid destination that
    differs from the current floor, with valid bounds: within the bounds
    the car departs ([Between]) unless it is in emergency mode, in which
    case nothing changes; outside the bounds the destination is replaced by
    the current floor and the car stays closed. *)
Theorem closed_branch_decides (lowest highest : list ascii) (shm : car_shared_mem) :
  ok (parse_floor lowest) = true -> ok (parse_floor highest) = true ->
  ok (parse_floor (Shm.destination_floor shm)) = true ->
  strncmp (Shm.current_floor shm) (Shm.destination_floor shm) MAX_FLOOR_LEN <> 0 ->
  let d := numeric (parse_floor (Shm.destination_floor shm)) in
  let lo := numeric (parse_floor lowest) in
  let hi := numeric (parse_floor highest) in
  (lo <= d <= hi -> emergency_mode shm = 0 ->
   Car.closed_branch lowest highest shm = copy_status "Between" shm)
  /\ (lo <= d <= hi -> emergency_mode shm <> 0 ->
      Car.closed_branch lowest highest shm = shm)
  /\ (~ lo <= d <= hi ->
      Car.closed_branch lowest highest shm
      = set_destination_floor (safe_copy (Shm.current_floor shm) MAX_FLOOR_LEN) shm).
Proof.
  intros Hlo Hhi Hd Hne d lo hi.
  pose proof (range_check_valid (Shm.destination_floor shm) lowest highest Hd Hlo Hhi)
    as Hrange.
  unfold Spec.floor_number in Hrange. fold d lo hi in Hrange.
  unfold Car.closed_branch.
  apply Z.eqb_neq in Hne. rewrite Hne. cbn [negb andb].
  destruct (is_valid_floor_range (Shm.destination_floor shm) lowest highest) eqn:E.
  - assert (Hin : lo <= d <= hi) by (now apply Hrange).
    cbn [negb]. repeat split; intros; try contradiction.
    + match goal with H : emergency_mode shm = 0 |- _ => rewrite H end. reflexivity.
    + destruct (emergency_mode shm =? 0) eqn:E0;
        [apply Z.eqb_eq in E0; contradiction|reflexivity].
  - assert (Hout : ~ lo <= d <= hi)
      by (intros H; apply Hrange in H; congruence).
    cbn [negb]. repeat split; intros; try contradiction.
    now rewrite andb_false_r.
Qed.

Lemma closed_branch_decides_witness :
  Car.closed_branch (lit "1") (lit "10")
    (set_destination_floor (safe_copy (lit "12") MAX_FLOOR_LEN) fresh_car)
  = set_destination_floor (safe_copy (lit "1") MAX_FLOOR_LEN) fresh_car.
Proof.
  assert (Hne : strncmp (Shm.current_floor
                   (set_destination_floor (safe_copy (lit "12") MAX_FLOOR_LEN) fresh_car))
                  (Shm.destination_floor
                   (set_destination_floor (safe_copy (lit "12") MAX_FLOOR_LEN) fresh_car))
                  MAX_FLOOR_LEN <> 0)
    by (vm_compute; discriminate).
  pose proof (closed_branch_decides (lit "1") (lit "10")
                (set_destination_floor (safe_copy (lit "12") MAX_FLOOR_LEN) fresh_car)
                eq_refl eq_refl eq_refl Hne) as H.
  destruct H as (_ & _ & H).
  apply H. vm_compute. intros [_ H']. apply H'. reflexivity.
Defined.

Lemma travel_step_facts
    (lowest highest : list ascii) (service_mode : Z) (shm : car_shared_mem) :
  status_is "Between" shm = true ->
  ok (parse_floor (Shm.current_floor shm)) = true ->
  ok (parse_floor (Shm.destination_floor shm)) = true ->
  ok (parse_floor lowest) = true -> ok (parse_floor highest) = true ->
  let n := Shape.stepped (Shm.current_floor shm) (Shm.destination_floor shm) in
  Shape.is_floor_number n = true ->
  numeric (parse_floor lowest) <= n <= numeric (parse_floor highest) ->
  let shm' :=
    Car.iteration_second lowest highest (Car.AfterBetween service_mode) shm in
  cstr (Shm.current_floor shm') = floor_to_string n (n <? 0)
  /\ Shm.destination_floor shm' = Shm.destination_floor shm
  /\ (cstr (Shm.destination_floor shm) = floor_to_string n (n <? 0) ->
      Shm.status shm'
      = safe_copy (lit (if service_mode =? 0 then "Opening" else "Closed"))
                  MAX_STATUS_LEN)
  /\ (cstr (Shm.destination_floor shm) <> floor_to_string n (n <? 0) ->
      Shm.status shm' = Shm.status shm).
Proof.
  intros Hb Hc Hd Hlo Hhi n Hn Hr shm'. subst shm'.
  rewrite (travel_step_value lowest highest service_mode shm Hb Hc Hd Hlo Hhi Hn Hr).
  pose proof (arrival_test shm Hd Hn) as Ha. fold n in Ha.
  assert (Hlab : cstr (safe_copy (floor_to_string n (n <? 0)) MAX_FLOOR_LEN)
                 = floor_to_string n (n <? 0)).
  { rewrite cstr_safe_copy_label by (now rewrite label_parses).
    now apply label_text. }
  fold n.
  destruct (strncmp (safe_copy (floor_to_string n (n <? 0)) MAX_FLOOR_LEN)
              (Shm.destination_floor shm) MAX_FLOOR_LEN =? 0) eqn:E.
  - assert (Heq : cstr (Shm.destination_floor shm) = floor_to_string n (n <? 0))
      by (now apply Ha).
    destruct (service_mode =? 0); cbn [negb]; shm_simpl;
      (split; [exact Hlab|]); (split; [reflexivity|]);
      (split; [intros; reflexivity|intros; contradiction]).
  - assert (Hne : cstr (Shm.destination_floor shm) <> floor_to_string n (n <? 0))
      by (intros H; apply Ha in H; congruence).
    shm_simpl. split; [exact Hlab|]. split; [reflexivity|].
    split; [intros; contradiction|intros; reflexivity].
Qed.

(** X16.  One travel delay moves the car one floor.  For a car between
    floors with valid current floor, destination and bounds, when the floor
    one step towards the destination has a label and lies within the
    bounds, the section after the delay writes that label to
    [current_floor], so that the car then stands on that floor, and keeps
    the destination; it changes the status, to [Opening] or in service
    mode to [Closed], exactly when the destination field holds that same
    label. *)
Theorem travel_moves_one_floor
    (lowest highest : list ascii) (service_mode : Z) (shm : car_shared_mem) :
  status_is "Between" shm = true ->
  ok (parse_floor (Shm.current_floor shm)) = true ->
  ok (parse_floor (Shm.destination_floor shm)) = true ->
  ok (parse_floor lowest) = true -> ok (parse_floor highest) = true ->
  let n := Shape.stepped (Shm.current_floor shm) (Shm.destination_floor shm) in
  Shape.is_floor_number n = true ->
  numeric (parse_floor lowest) <= n <= numeric (parse_floor highest) ->
  let shm' :=
    Car.iteration_second lowest highest (Car.AfterBetween service_mode) shm in
  cstr (Shm.current_floor shm') = floor_to_string n (n <? 0)
  /\ parse_floor (Shm.current_floor shm') = mk_floor_info true n (n <? 0)
  /\ Shm.destination_floor shm' = Shm.destination_floor shm
  /\ (cstr (Shm.destination_floor shm) = floor_to_string n (n <? 0) ->
      Shm.status shm'
      = safe_copy (lit (if service_mode =? 0 then "Opening" else "Closed"))
                  MAX_STATUS_LEN)
  /\ (cstr (Shm.destination_floor shm) <> floor_to_string n (n <? 0) ->
      Shm.status shm' = Shm.status shm).
Proof.
  intros Hb Hc Hd Hlo Hhi n Hn Hr shm'.
  destruct (travel_step_facts lowest highest service_mode shm Hb Hc Hd Hlo Hhi Hn Hr)
    as (E1 & E2 & E3 & E4).
  fold n in E1, E3, E4. fold shm' in E1, E2, E3, E4.
  split; [exact E1|]. split; [|repeat split; assumption].
  rewrite <- (label_parses n Hn). apply parse_floor_same_text.
  rewrite E1. symmetry. now apply label_text.
Qed.

Lemma travel_moves_one_floor_witness :
  cstr (Shm.current_floor
          (Car.iteration_second (lit "1") (lit "10") (Car.AfterBetween 0) moving_car))
  = lit "2".
Proof.
  apply (travel_moves_one_floor (lit "1") (lit "10") 0 moving_car);
    try reflexivity.
  vm_compute. split; discriminate.
Defined.

Section NoArrival.

Variables lowest highest : list ascii.
Variable service_mode : Z.
Variable destination : list ascii.

Hypothesis destination_ok : ok (parse_floor destination) = true.
Hypothesis lowest_ok : ok (parse_floor lowest) = true.
Hypothesis highest_ok : ok (parse_floor highest) = true.

Let m : Z := numeric (parse_floor destination).
Let label (k : Z) : list ascii := floor_to_string k (k <? 0).

Hypothesis other_spelling : cstr destination <> label m.
Hypothesis below_is_floor : Shape.is_floor_number (m - 1) = true.
Hypothesis in_range :
  numeric (parse_floor lowest) <= m - 1 /\ m <= numeric (parse_floor highest).

Let circling : car_shared_mem -> Prop := Shape.circling destination.

Lemma m_is_floor : Shape.is_floor_number m = true.
Proof. apply is_floor_number_spec. now apply parse_floor_range. Qed.

Lemma at_label (k : Z) (buf : list ascii) :
  Shape.is_floor_number k = true -> cstr buf = label k ->
  parse_floor buf = mk_floor_info true k (k <? 0).
Proof.
  intros Hk E. rewrite <- (label_parses k Hk).
  apply parse_floor_same_text. rewrite E. symmetry. now apply label_text.
Qed.

Lemma circling_step (shm : car_shared_mem) :
  circling shm ->
  circling (Car.iteration_second lowest highest (Car.AfterBetween service_mode) shm).
Proof.
  intros (Hb & Hd & Hc).
  pose proof m_is_floor as Hm.
  assert (Hdest : ok (parse_floor (Shm.destination_floor shm)) = true)
    by (rewrite Hd; exact destination_ok).
  destruct Hc as [Hc|Hc].
  - (* at the destination's floor: the step goes down *)
    pose proof (at_label m _ Hm Hc) as Hp.
    assert (Hn : Shape.stepped (Shm.current_floor shm) (Shm.destination_floor shm)
                 = m - 1).
    { unfold Shape.stepped. rewrite Hp, Hd. cbn [numeric]. fold m.
      rewrite Z.gtb_ltb, Z.ltb_irrefl. lia. }
    destruct (travel_step_facts lowest highest service_mode shm Hb)
      as (E1 & E2 & _ & E4);
      try assumption;
      try (rewrite Hp; reflexivity);
      try (rewrite Hn; first [exact below_is_floor|lia]).
    rewrite Hn in *. fold (label (m - 1)) in *.
    assert (Hne : cstr (Shm.destination_floor shm) <> label (m - 1)).
    { intros E. pose proof (at_label (m - 1) _ below_is_floor E) as Hq.
      rewrite Hd in Hq. unfold m in Hq.
      destruct (parse_floor destination) as [o v b]. cbn [numeric] in Hq.
      injection Hq as _ Hv _. lia. }
    split; [unfold status_is; rewrite (E4 Hne); exact Hb|].
    split; [congruence|right; exact E1].
  - (* one floor below: the step goes up, onto another spelling *)
    pose proof (at_label (m - 1) _ below_is_floor Hc) as Hp.
    assert (Hn : Shape.stepped (Shm.current_floor shm) (Shm.destination_floor shm)
                 = m).
    { unfold Shape.stepped. rewrite Hp, Hd. cbn [numeric]. fold m.
      replace (m >? m - 1) with true by (symmetry; rewrite Z.gtb_ltb; apply Z.ltb_lt; lia).
      lia. }
    destruct (travel_step_facts lowest highest service_mode shm Hb)
      as (E1 & E2 & _ & E4);
      try assumption;
      try (rewrite Hp; reflexivity);
      try (rewrite Hn; first [exact Hm|lia]).
    rewrite Hn in *. fold (label m) in *.
    assert (Hne : cstr (Shm.destination_floor shm) <> label m)
      by (rewrite Hd; exact other_spelling).
    split; [unfold status_is; rewrite (E4 Hne); exact Hb|].
    split; [congruence|left; exact E1].
Qed.

Lemma circling_forever (k : nat) (shm : car_shared_mem) :
  circling shm -> circling (Shape.travel lowest highest service_mode k shm).
Proof.
  intros H. induction k as [|k IH]; [exact H|].
  unfold Shape.travel in *. cbn [Nat.iter]. now apply circling_step.
Qed.

End NoArrival.

(** X17.  A destination spelled otherwise than its label is never reached.
    Let the destination field hold a string that [parse_floor] accepts as
    floor [m] but that is not the label of [m] (such as [+5]), with the
    floors [m - 1] and [m] within valid bounds.  A car between floors at
    [m] or at [m - 1] then stays between floors after any number of travel
    delays, moving between these two floors: the arrival test compares the
    strings, and at [m] the step goes down. *)
Theorem other_spelling_is_never_reached
    (lowest highest : list ascii) (service_mode : Z) (destination : list ascii)
    (k : nat) (shm : car_shared_mem) :
  ok (parse_floor destination) = true ->
  ok (parse_floor lowest) = true -> ok (parse_floor highest) = true ->
  let m := numeric (parse_floor destination) in
  cstr destination <> floor_to_string m (m <? 0) ->
  Shape.is_floor_number (m - 1) = true ->
  numeric (parse_floor lowest) <= m - 1 /\ m <= numeric (parse_floor highest) ->
  Shape.circling destination shm ->
  Shape.circling destination (Shape.travel lowest highest service_mode k shm)
  /\ status_is "Between" (Shape.travel lowest highest service_mode k shm) = true.
Proof.
  intros Hd Hlo Hhi m Hsp Hfl Hr Hc.
  assert (H : Shape.circling destination
                (Shape.travel lowest highest service_mode k shm))
    by (now apply circling_forever).
  split; [exact H|apply H].
Qed.

Lemma other_spelling_is_never_reached_witness :
  status_is "Between"
    (Shape.travel (lit "1") (lit "10") 0 7
       (set_current_floor (safe_copy (lit "5") MAX_FLOOR_LEN)
          (set_destination_floor (safe_copy (lit "+5") MAX_FLOOR_LEN) moving_car)))
  = true.
Proof.
  apply (other_spelling_is_never_reached (lit "1") (lit "10") 0
           (safe_copy (lit "+5") MAX_FLOOR_LEN) 7
           (set_current_floor (safe_copy (lit "5") MAX_FLOOR_LEN)
              (set_destination_floor (safe_copy (lit "+5") MAX_FLOOR_LEN) moving_car)));
    try reflexivity.
  - vm_compute. discriminate.
  - vm_compute. split; discriminate.
  - unfold Shape.circling. split; [reflexivity|]. split; [reflexivity|].
    left. reflexivity.
Defined.

(** ** The button tool in service mode *)

Ltac eval_strcmp :=
  repeat match goal with
         | |- context [strcmp (lit ?a) (lit ?b) =? 0] =>
             let v := eval vm_compute in (strcmp (lit a) (lit b) =? 0) in
             change (strcmp (lit a) (lit b) =? 0) with v
         end.

(** X18.  [up] and [down] act only in service mode with closed doors.
    There they print nothing and set the destination to the label of the
    floor next to the current one, passing from 1 to B1 and from B1 to 1;
    past the last label (up from 999, down from B99) the destination
    becomes the empty string.  Outside service mode, or with a status other
    than [Closed], the record is left as it is and a diagnostic is
    printed. *)
Theorem service_step (up : bool) (shm : car_shared_mem) :
  let operation := lit (if up then "up" else "down") in
  let d := if up then 1 else -1 in
  let n := numeric (parse_floor (Shm.current_floor shm)) in
  let target := if n + d =? 0 then d else n + d in
  (individual_service_mode shm <> 0 -> status_is "Closed" shm = true ->
   ok (parse_floor (Shm.current_floor shm)) = true ->
   Internal.operate operation shm
   = (set_destination_floor
        (safe_copy (floor_to_string target (target <? 0)) MAX_FLOOR_LEN) shm, [])
   /\ cstr (Shm.destination_floor (fst (Internal.operate operation shm)))
      = (if Shape.is_floor_number target
         then floor_to_string target (target <? 0) else []))
  /\ (individual_service_mode shm = 0 \/ status_is "Closed" shm = false ->
      fst (Internal.operate operation shm) = shm
      /\ snd (Internal.operate operation shm) <> []).
Proof.
  intros operation d n target. split.
  - intros Hs Hc Hp.
    assert (E : Internal.operate operation shm
                = (set_destination_floor
                     (safe_copy (floor_to_string target (target <? 0)) MAX_FLOOR_LEN)
                     shm, [])).
    { subst operation. unfold Internal.operate.
      apply Z.eqb_neq in Hs.
      destruct up; eval_strcmp; cbn [orb]; rewrite Hs, Hc, Hp; cbn [negb];
        fold n; subst target d;
        destruct (n + _ =? 0); destruct (_ <? 0); reflexivity. }
    split; [exact E|]. rewrite E. shm_simpl.
    destruct (Shape.is_floor_number target) eqn:Ht.
    + rewrite cstr_safe_copy_label by (now rewrite label_parses).
      now apply label_text.
    + now rewrite floor_to_string_off_labels.
  - intros Hno. subst operation. unfold Internal.operate.
    destruct up; eval_strcmp; cbn [orb];
      (destruct (individual_service_mode shm =? 0) eqn:E1;
       [split; [reflexivity|discriminate]|]);
      (destruct (status_is "Closed" shm) eqn:E2;
       [destruct Hno as [H|H]; [apply Z.eqb_neq in E1; contradiction|discriminate]|]);
      cbn [negb];
      destruct (status_is "Open" shm || status_is "Opening" shm
                || status_is "Closing" shm)%bool;
      split; try reflexivity; discriminate.
Qed.

Lemma service_step_witness :
  cstr (Shm.destination_floor
          (fst (Internal.operate (lit "down")
                  (set_individual_service_mode 1 fresh_car))))
  = lit "B1".
Proof.
  destruct (service_step false (set_individual_service_mode 1 fresh_car)) as [H _].
  destruct H as [_ H]; [vm_compute; discriminate|reflexivity|reflexivity|].
  exact H.
Defined.

(** ** Messages on a connection *)

Section FramingOrder.

Import Framing.

(** A read loop that returns found all the bytes it wanted on the wire. *)
Lemma read_loop_done_length (script : list sys_result) :
  forall wanted wire buf m wire' script',
    read_loop script wanted wire buf = RDone m wire' script' ->
    (wanted <= length wire)%nat.
Proof.
  induction script as [|r script IH]; intros wanted wire buf m wire' script' H.
  - destruct wanted; [lia|discriminate].
  - destruct wanted as [|w]; [lia|].
    cbn [read_loop] in H. destruct r as [| |n].
    + now apply IH in H.
    + discriminate.
    + destruct (Nat.min n (Nat.min (S w) (length wire))) as [|k] eqn:Ek;
        [discriminate|].
      apply IH in H. rewrite length_skipn in H. lia.
Qed.

Lemma ntohs_range (b : list ascii) : 0 <= ntohs_bytes b < 65536.
Proof.
  unfold ntohs_bytes.
  pose proof (N_ascii_bounded (hd NUL b)) as H1.
  pose proof (N_ascii_bounded (hd NUL (tl b))) as H2.
  lia.
Qed.

End FramingOrder.

(** X19.  [read_message] never returns part of a message.  Whatever the
    system calls do, when it returns a message the wire began with two
    length bytes and exactly that many further bytes; these are the message
    returned, and what follows them is left on the wire. *)
Theorem read_message_takes_one_frame
    (script script' : list Framing.sys_result) (alloc_ok : bool)
    (wire m rest : list ascii) :
  Framing.read_message script alloc_ok wire = Framing.RDone m rest script' ->
  wire = firstn 2 wire ++ m ++ rest
  /\ length (firstn 2 wire) = 2%nat
  /\ Z.of_nat (length m) = Framing.ntohs_bytes (firstn 2 wire)
  /\ Z.of_nat (length m) <= 65535
  /\ alloc_ok = true.
Proof.
  unfold Framing.read_message.
  destruct (Framing.read_loop script 2 wire []) as [lb w1 s1| |] eqn:E1;
    try discriminate.
  pose proof (read_loop_done_length _ _ _ _ _ _ _ E1) as L1.
  apply read_loop_done in E1. destruct E1 as [-> ->]. cbn [app].
  destruct alloc_ok; cbn [negb]; [|discriminate].
  intros E2.
  pose proof (read_loop_done_length _ _ _ _ _ _ _ E2) as L2.
  apply read_loop_done in E2. destruct E2 as [-> ->]. cbn [app].
  pose proof (ntohs_range (firstn 2 wire)) as Hr.
  rewrite !firstn_skipn.
  split; [reflexivity|]. split; [rewrite length_firstn; lia|].
  rewrite length_firstn, Nat.min_l by exact L2.
  rewrite Z2Nat.id by lia.
  split; [reflexivity|]. split; [lia|reflexivity].
Qed.

Lemma read_message_takes_one_frame_witness :
  exists wire,
    wire = firstn 2 wire ++ lit "CAR A" ++ lit "rest"
    /\ Z.of_nat (length (lit "CAR A")) = Framing.ntohs_bytes (firstn 2 wire).
Proof.
  exists (Framing.frame (lit "CAR A") ++ lit "rest").
  destruct (read_message_takes_one_frame
              [Framing.SysCount 1; Framing.SysRetry; Framing.SysCount 9;
               Framing.SysCount 3; Framing.SysCount 9]
              [] true (Framing.frame (lit "CAR A") ++ lit "rest")
              (lit "CAR A") (lit "rest") eq_refl) as (H1 & _ & H2 & _).
  split; [exact H1|exact H2].
Defined.

(** X20.  Messages keep their order and their boundaries.  When two strings
    of at most 65535 characters are written one after the other on a
    connection and two messages are read from it, the first message is the
    first string, the second is the second, and nothing is left over,
    however the system calls cut the transfers. *)
Theorem messages_keep_their_order
    (x y : list ascii)
    (ws1 ws2 rs1 rs2 ws1' ws2' rs1' rs2' : list Framing.sys_result)
    (a1 a2 : bool) (w1 w2 m1 m2 r1 r2 : list ascii) :
  Z.of_nat (strlen x) <= 65535 ->
  Z.of_nat (strlen y) <= 65535 ->
  Framing.write_message ws1 x [] = Framing.WDone w1 ws1' ->
  Framing.write_message ws2 y w1 = Framing.WDone w2 ws2' ->
  Framing.read_message rs1 a1 w2 = Framing.RDone m1 r1 rs1' ->
  Framing.read_message rs2 a2 r1 = Framing.RDone m2 r2 rs2' ->
  m1 = cstr x /\ m2 = cstr y /\ r2 = [].
Proof.
  intros Hx Hy W1 W2 R1 R2.
  apply write_message_done in W1, W2. cbn [app] in W1. subst w1 w2.
  apply read_message_done in R1; [|exact Hx]. destruct R1 as [-> ->].
  rewrite <- (app_nil_r (Framing.frame (cstr y))) in R2.
  apply read_message_done in R2; [|exact Hy]. destruct R2 as [-> ->].
  repeat split.
Qed.

Lemma messages_keep_their_order_witness :
  exists w2 r1,
    Framing.read_message [Framing.SysCount 2; Framing.SysCount 4; Framing.SysCount 9]
      true w2 = Framing.RDone (lit "CAR A 1 10") r1 []
    /\ Framing.read_message [Framing.SysCount 1; Framing.SysCount 1; Framing.SysCount 99]
         true r1 = Framing.RDone (lit "STATUS Closed 1 1") [] [].
Proof.
  exists (Framing.frame (lit "CAR A 1 10") ++ Framing.frame (lit "STATUS Closed 1 1")),
         (Framing.frame (lit "STATUS Closed 1 1")).
  pose proof (messages_keep_their_order
                (lit "CAR A 1 10") (lit "STATUS Closed 1 1")
                [Framing.SysCount 1; Framing.SysCount 1; Framing.SysCount 99]
                [Framing.SysRetry; Framing.SysCount 2; Framing.SysCount 17]
                [Framing.SysCount 2; Framing.SysCount 4; Framing.SysCount 9]
                [Framing.SysCount 1; Framing.SysCount 1; Framing.SysCount 99]
                [] [] [] [] true true
                (Framing.frame (lit "CAR A 1 10"))
                (Framing.frame (lit "CAR A 1 10")
                 ++ Framing.frame (lit "STATUS Closed 1 1"))
                (lit "CAR A 1 10") (lit "STATUS Closed 1 1")
                (Framing.frame (lit "STATUS Closed 1 1")) []) as H.
  destruct H as (_ & _ & _); try reflexivity; try (vm_compute; discriminate).
  split; reflexivity.
Defined.

(** ** The dispatcher: which car a call can get *)

Section SelectedCar.

Variable cars : list Controller.car_info.
Variables source destination : list ascii.

(** Whatever the loop returns has passed the two tests of its body. *)
Lemma find_best_car_loop_selected (todo : list Controller.car_info) :
  forall i best_car best_eta r,
    (forall k c, nth_error todo k = Some c -> nth_error cars (i + k) = Some c) ->
    (forall b, best_car = Some b ->
       exists c, nth_error cars b = Some c
                 /\ Selection.passes_filter source destination c = true) ->
    Controller.find_best_car_loop cars source destination todo i best_car best_eta
    = Some r ->
    exists c, nth_error cars r = Some c
              /\ Selection.passes_filter source destination c = true.
Proof.
  induction todo as [|car todo IH]; intros i best_car best_eta r Hidx Hbest Hr.
  - cbn [Controller.find_best_car_loop] in Hr. now apply Hbest.
  - cbn [Controller.find_best_car_loop] in Hr.
    assert (Hidx' : forall k c, nth_error todo k = Some c ->
                                nth_error cars (S i + k) = Some c).
    { intros k c Hk. replace (S i + k)%nat with (i + S k)%nat by lia.
      now apply Hidx. }
    assert (Hcar : nth_error cars i = Some car).
    { replace i with (i + 0)%nat by lia. now apply Hidx. }
    destruct (Controller.connected car =? 0) eqn:Econ;
      [now apply (IH _ _ _ _ Hidx' Hbest Hr)|].
    destruct (negb (is_valid_floor_range source (Controller.lowest car)
                      (Controller.highest car))
              || negb (is_valid_floor_range destination (Controller.lowest car)
                         (Controller.highest car)))%bool eqn:Erange;
      [now apply (IH _ _ _ _ Hidx' Hbest Hr)|].
    match type of Hr with
    | (if ?cond then _ else _) = _ => destruct cond
    end; [|now apply (IH _ _ _ _ Hidx' Hbest Hr)].
    apply (IH _ _ _ _ Hidx') in Hr; [exact Hr|].
    intros b Hb. injection Hb as <-. exists car. split; [exact Hcar|].
    unfold Selection.passes_filter. rewrite Econ.
    apply orb_false_iff in Erange. destruct Erange as [E1 E2].
    apply negb_false_iff in E1, E2. now rewrite E1, E2.
Qed.

Lemma find_best_car_selected (r : nat) :
  Controller.find_best_car cars source destination = Some r ->
  ok (parse_floor source) = true
  /\ ok (parse_floor destination) = true
  /\ exists c, nth_error cars r = Some c
               /\ Selection.passes_filter source destination c = true.
Proof.
  unfold Controller.find_best_car.
  destruct (ok (parse_floor source)); [|discriminate].
  destruct (ok (parse_floor destination)); [|discriminate].
  cbn [negb orb]. intros Hr. split; [reflexivity|]. split; [reflexivity|].
  apply (find_best_car_loop_selected cars 0 None Controller.INT_MAX r);
    [intros k c Hk; exact Hk|discriminate|exact Hr].
Qed.

End SelectedCar.



(** X22.  A car that reports [EMERGENCY] or [INDIVIDUAL SERVICE] is taken
    out of service: the dispatcher marks its record disconnected, drops its
    whole queue, keeps the rest of the record and sends nothing; and
    wherever that record sits in the table, no call selects it. *)
Theorem emergency_report_retires_the_car
    (car : Controller.car_info) (message : list ascii) :
  cstr message = lit "EMERGENCY" \/ cstr message = lit "INDIVIDUAL SERVICE" ->
  let car' := fst (Dispatcher.handle_car_message car message) in
  car' = Controller.mk_car_info (Controller.name car) (Controller.lowest car)
           (Controller.highest car) (Controller.current_floor car)
           (Controller.destination_floor car) (Controller.status car)
           0 (Controller.fd car) []
  /\ snd (Dispatcher.handle_car_message car message) = []
  /\ forall cars i source destination,
       nth_error cars i = Some car' ->
       Controller.find_best_car cars source destination <> Some i.
Proof.
  intros Hm car'.
  assert (Hc : car' = Controller.mk_car_info (Controller.name car)
                 (Controller.lowest car) (Controller.highest car)
                 (Controller.current_floor car)
                 (Controller.destination_floor car) (Controller.status car)
                 0 (Controller.fd car) []
               /\ snd (Dispatcher.handle_car_message car message) = []).
  { subst car'. unfold Dispatcher.handle_car_message.
    assert (Hst : (strncmp message (lit "STATUS ") 7 =? 0) = false).
    { apply Z.eqb_neq. intros H. apply strncmp_zero_iff in H.
      destruct Hm as [Hm|Hm]; rewrite Hm in H; discriminate. }
    rewrite Hst.
    destruct Hm as [Hm|Hm].
    - assert (He : strcmp message (lit "EMERGENCY") = 0)
        by (apply strcmp_zero_iff; rewrite Hm; reflexivity).
      rewrite He. split; reflexivity.
    - assert (He : (strcmp message (lit "EMERGENCY") =? 0) = false).
      { apply Z.eqb_neq. intros H. apply strcmp_zero_iff in H.
        rewrite Hm in H. discriminate. }
      assert (Hi : strcmp message (lit "INDIVIDUAL SERVICE") = 0)
        by (apply strcmp_zero_iff; rewrite Hm; reflexivity).
      rewrite He, Hi. split; reflexivity. }
  destruct Hc as [Hc Hw]. split; [exact Hc|]. split; [exact Hw|].
  intros cars i source destination Hn Hsel.
  apply find_best_car_selected in Hsel.
  destruct Hsel as (_ & _ & c & Hn' & Hp).
  rewrite Hn in Hn'. injection Hn' as <-.
  rewrite Hc in Hp. unfold Selection.passes_filter in Hp.
  cbn in Hp. discriminate.
Qed.

Lemma emergency_report_retires_the_car_witness :
  Controller.find_best_car
    [fst (Dispatcher.handle_car_message (idle_car "A" "1" "10" "1" 4)
            (lit "EMERGENCY"))]
    (lit "2") (lit "3") <> Some 0%nat.
Proof.
  destruct (emergency_report_retires_the_car (idle_car "A" "1" "10" "1" 4)
              (lit "EMERGENCY")) as (_ & _ & H); [left; reflexivity|].
  apply H. reflexivity.
Defined.

(** ** The dispatcher: queues *)

Section QueueInsertion.

Import Controller.

Lemma walk_up_split (skipped_first : bool) (car_pos new_floor : Z) :
  forall after before b a,
    walk_up skipped_first car_pos new_floor before after = (b, a) ->
    exists mid, b = before ++ mid /\ mid ++ a = after.
Proof.
  induction after as [|curr rest IH]; intros before b a H; cbn [walk_up] in H.
  - injection H as <- <-. exists []. now rewrite app_nil_r.
  - repeat match type of H with
           | (if ?cond then _ else _) = _ => destruct cond
           end;
      try (injection H as <- <-; exists []; now rewrite app_nil_r).
    apply IH in H. destruct H as (mid & -> & <-).
    exists (curr :: mid). now rewrite <- app_assoc.
Qed.

Lemma walk_down_split (skipped_first : bool) (car_pos new_floor : Z) :
  forall after before b a,
    walk_down skipped_first car_pos new_floor before after = (b, a) ->
    exists mid, b = before ++ mid /\ mid ++ a = after.
Proof.
  induction after as [|curr rest IH]; intros before b a H; cbn [walk_down] in H.
  - injection H as <- <-. exists []. now rewrite app_nil_r.
  - repeat match type of H with
           | (if ?cond then _ else _) = _ => destruct cond
           end;
      try (injection H as <- <-; exists []; now rewrite app_nil_r).
    apply IH in H. destruct H as (mid & -> & <-).
    exists (curr :: mid). now rewrite <- app_assoc.
Qed.

(** The test at the head of [add_to_queue]. *)
Lemma queued_test (floor : list ascii) (car : car_info) :
  existsb (fun node => strncmp node floor MAX_FLOOR_LEN =? 0) (queue car) = true
  <-> Shape.queued floor car.
Proof.
  unfold Shape.queued. rewrite existsb_exists.
  split; intros (node & Hin & H); exists node; (split; [exact Hin|]).
  - now apply Z.eqb_eq, strncmp_zero_iff in H.
  - now apply Z.eqb_eq, strncmp_zero_iff.
Qed.

(** A floor that is not yet queued goes into the queue at one place. *)
Lemma add_to_queue_shape (car : car_info) (floor : list ascii) :
  ~ Shape.queued floor car ->
  ok (parse_floor floor) = true ->
  exists before after,
    queue car = before ++ after
    /\ add_to_queue car floor
       = set_queue (before ++ safe_copy floor MAX_FLOOR_LEN :: after) car.
Proof.
  intros Hq Hok. unfold add_to_queue.
  destruct (existsb _ (queue car)) eqn:Ex;
    [apply queued_test in Ex; contradiction|].
  rewrite Hok. cbn [negb].
  destruct (queue car) as [|head tail] eqn:Equeue.
  - exists [], []. split; reflexivity.
  - match goal with
    | |- context [let '(before, after) := ?e in _] =>
        destruct e as [before after] eqn:Epair
    end.
    exists before, after. split; [|reflexivity].
    repeat match type of Epair with
           | (if ?cond then _ else _) = _ => destruct cond
           end;
      try (injection Epair as <- <-; now rewrite app_nil_r);
      try (apply walk_up_split in Epair; destruct Epair as (mid & -> & <-);
           reflexivity);
      try (apply walk_down_split in Epair; destruct Epair as (mid & -> & <-);
           reflexivity).
Qed.

Lemma add_to_queue_skips (car : car_info) (floor : list ascii) :
  Shape.queued floor car \/ ok (parse_floor floor) = false ->
  add_to_queue car floor = car.
Proof.
  intros H. unfold add_to_queue.
  destruct (existsb _ (queue car)) eqn:Ex; [reflexivity|].
  destruct H as [H|H]; [apply queued_test in H; congruence|].
  now rewrite H.
Qed.

End QueueInsertion.



Section QueueInvariant.

Import Controller.

Lemma queue_ok_set_queue (q : list (list ascii)) (car : car_info) :
  NoDup (map cstr q) ->
  Forall (fun node => ok (parse_floor node) = true) q ->
  Shape.queue_ok (set_queue q car).
Proof. intros H1 H2. split; assumption. Qed.

Lemma queue_ok_add_to_queue (car : car_info) (floor : list ascii) :
  Shape.queue_ok car -> Shape.queue_ok (add_to_queue car floor).
Proof.
  intros [Hnd Hall].
  destruct (ok (parse_floor floor)) eqn:Hok;
    [|rewrite add_to_queue_skips by (right; exact Hok); split; assumption].
  destruct (existsb (fun node => strncmp node floor MAX_FLOOR_LEN =? 0)
              (queue car)) eqn:Ex.
  - apply queued_test in Ex.
    rewrite add_to_queue_skips by (left; exact Ex). split; assumption.
  - assert (Hq : ~ Shape.queued floor car).
    { intros H. apply queued_test in H. congruence. }
    destruct (add_to_queue_shape car floor Hq Hok) as (before & after & H1 & H2).
    rewrite H2. unfold Shape.queue_text in Hnd. rewrite H1 in Hnd, Hall.
    apply queue_ok_set_queue.
    + rewrite map_app in *. cbn [map].
      apply (NoDup_Add (Add_app _ _ _)). split; [exact Hnd|].
      rewrite <- map_app. intros Hin. apply in_map_iff in Hin.
      destruct Hin as (node & Hc & Hin). apply Hq.
      exists node. split; [now rewrite H1|].
      rewrite Hc. now rewrite cstr_safe_copy_label.
    + apply Forall_app in Hall. destruct Hall as [Hb Ha].
      apply Forall_app. split; [exact Hb|]. constructor; [|exact Ha].
      rewrite (parse_floor_same_text _ floor); [exact Hok|].
      now apply cstr_safe_copy_label.
Qed.






End QueueInvariant.



(** ** A car's reports, as the dispatcher reads them *)

Section StatusReports.

Import Controller.

Lemma cstr_app_text (a b : list ascii) :
  Forall (fun c => is_nul c = false) a -> cstr (a ++ b) = a ++ cstr b.
Proof.
  induction 1 as [|c a Hc _ IH]; [reflexivity|].
  cbn [app cstr]. now rewrite Hc, IH.
Qed.

Lemma word_text (width : nat) (w : list ascii) :
  Shape.word width w -> Forall (fun c => is_nul c = false) w.
Proof.
  intros (_ & _ & H). eapply Forall_impl; [|exact H]. now intros c [_ Hc].
Qed.

Lemma word_cstr (width : nat) (w : list ascii) : Shape.word width w -> cstr w = w.
Proof.
  intros H. rewrite <- (app_nil_r w) at 1.
  rewrite cstr_app_text by (eapply word_text; exact H). apply app_nil_r.
Qed.

(** [%Ns] on a blank, a word and what follows the word. *)
Lemma scanf_s_word (width : nat) (w rest : list ascii) :
  Shape.word width w ->
  match rest with [] => True | c :: _ => isspace c = true end ->
  scanf_s width (" "%char :: w ++ rest) = Some (w, rest).
Proof.
  intros (Hne & Hl & Hw) Hrest. unfold scanf_s. cbn [skip_spaces].
  change (isspace " ") with true. cbv iota.
  assert (Hns : Forall (fun c => isspace c = false) w).
  { eapply Forall_impl; [|exact Hw]. now intros c [Hc _]. }
  destruct w as [|c w]; [contradiction Hne; reflexivity|].
  inversion Hns as [|? ? Hc _]; subst.
  cbn [app skip_spaces]. rewrite Hc.
  change (c :: w ++ rest) with ((c :: w) ++ rest).
  rewrite scan_word_word; [reflexivity|exact Hns|exact Hl|now right].
Qed.

(** The text of a status message whose three fields are words. *)
Lemma status_message_text (shm : car_shared_mem) :
  Shape.word 7 (cstr (Shm.status shm)) ->
  (length (cstr (Shm.current_floor shm)) <= 3)%nat ->
  (length (cstr (Shm.destination_floor shm)) <= 3)%nat ->
  CarNet.status_message shm
  = lit "STATUS " ++ cstr (Shm.status shm) ++ lit " "
    ++ cstr (Shm.current_floor shm) ++ lit " "
    ++ cstr (Shm.destination_floor shm)
  /\ cstr (CarNet.status_message shm) = CarNet.status_message shm.
Proof.
  intros Hs Hc Hd. unfold CarNet.status_message.
  destruct Hs as (Hs1 & Hs2 & Hs3).
  rewrite firstn_all2
    by (rewrite !length_app; change (length (lit "STATUS ")) with 7%nat;
        change (length (lit " ")) with 1%nat;
        unfold CarNet.CAR_MESSAGE_MAX_LEN; lia).
  split; [reflexivity|].
  assert (Hnn : forall s, Forall (fun c => is_nul c = false) (cstr s))
    by apply cstr_no_nul.
  rewrite <- (app_nil_r (cstr (Shm.destination_floor shm))) at 1.
  rewrite !cstr_app_text; try apply Hnn; try (repeat constructor).
  cbn [cstr]. now rewrite app_nil_r.
Qed.

Lemma status_prefix (tail : list ascii) :
  cstr (lit "STATUS " ++ tail) = lit "STATUS " ++ tail ->
  (strncmp (lit "STATUS " ++ tail) (lit "STATUS ") 7 =? 0) = true
  /\ scanf_lit (lit "STATUS") (cstr (lit "STATUS " ++ tail))
     = Some (" "%char :: tail).
Proof.
  intros H. split.
  - apply Z.eqb_eq, strncmp_zero_iff. now rewrite H.
  - now rewrite H.
Qed.

(** The three fields of a status message are read back. *)
Lemma sscanf_status_message (shm : car_shared_mem) :
  Shape.word 7 (cstr (Shm.status shm)) ->
  Shape.word 3 (cstr (Shm.current_floor shm)) ->
  Shape.word 3 (cstr (Shm.destination_floor shm)) ->
  (strncmp (CarNet.status_message shm) (lit "STATUS ") 7 =? 0) = true
  /\ Dispatcher.sscanf_status (CarNet.status_message shm)
     = Some (cstr (Shm.status shm), cstr (Shm.current_floor shm),
             cstr (Shm.destination_floor shm)).
Proof.
  intros Hs Hc Hd.
  destruct (status_message_text shm Hs) as [Htext Hcstr];
    [apply Hc|apply Hd|].
  unfold Dispatcher.sscanf_status. rewrite Htext in *.
  destruct (status_prefix _ Hcstr) as [H0 Hlit].
  split; [exact H0|]. rewrite Hlit.
  change (lit " ") with [" "%char]. cbn [app].
  rewrite (scanf_s_word 7) by (try exact Hs; reflexivity).
  rewrite (scanf_s_word 3) by (try exact Hc; reflexivity).
  rewrite <- (app_nil_r (cstr (Shm.destination_floor shm))).
  rewrite (scanf_s_word 3) by (try exact Hd; exact I).
  now rewrite app_nil_r.
Qed.

(** A status message that lacks a floor is not read. *)
Lemma sscanf_status_message_short (shm : car_shared_mem) :
  Shape.word 7 (cstr (Shm.status shm)) ->
  (length (cstr (Shm.current_floor shm)) <= 3)%nat ->
  (length (cstr (Shm.destination_floor shm)) <= 3)%nat ->
  Forall (fun c => isspace c = false) (cstr (Shm.current_floor shm)) ->
  Forall (fun c => isspace c = false) (cstr (Shm.destination_floor shm)) ->
  cstr (Shm.current_floor shm) = [] \/ cstr (Shm.destination_floor shm) = [] ->
  Dispatcher.sscanf_status (CarNet.status_message shm) = None.
Proof.
  intros Hs Hc Hd Hcs Hds Hempty.
  destruct (status_message_text shm Hs Hc Hd) as [Htext Hcstr].
  unfold Dispatcher.sscanf_status. rewrite Htext in *.
  destruct (status_prefix _ Hcstr) as [_ Hlit]. rewrite Hlit.
  change (lit " ") with [" "%char]. cbn [app].
  rewrite (scanf_s_word 7) by (try exact Hs; reflexivity).
  assert (Hword : forall w, w <> [] -> (length w <= 3)%nat ->
            Forall (fun c => isspace c = false) w ->
            Forall (fun c => is_nul c = false) w -> Shape.word 3 w).
  { intros w H1 H2 H3 H4. split; [exact H1|]. split; [exact H2|].
    apply Forall_forall. intros c Hin. rewrite Forall_forall in H3, H4.
    split; auto. }
  destruct (cstr (Shm.current_floor shm)) as [|c cur] eqn:Ecur.
  - cbn [app]. unfold scanf_s at 1. cbn [skip_spaces].
    change (isspace " ") with true. cbv iota.
    destruct (cstr (Shm.destination_floor shm)) as [|d dst] eqn:Edst;
      [reflexivity|].
    inversion Hds as [|? ? Hd0 Hds']; subst.
    cbn [skip_spaces]. rewrite Hd0.
    rewrite <- (app_nil_r (d :: dst)).
    rewrite scan_word_word; [reflexivity|exact Hds|exact Hd|now right].
  - destruct Hempty as [Hempty|Hempty]; [discriminate|]. rewrite Hempty.
    rewrite (scanf_s_word 3).
    + reflexivity.
    + apply Hword; [discriminate|exact Hc|exact Hcs|].
      rewrite <- Ecur. apply cstr_no_nul.
    + reflexivity.
Qed.

End StatusReports.

Section Arrival.

Import Controller.

Lemma cstr_safe_copy_short (s : list ascii) (size : nat) :
  (length (cstr s) <= size - 1)%nat -> cstr (safe_copy (cstr s) size) = cstr s.
Proof.
  intros H. rewrite cstr_safe_copy, cstr_idem. now apply firstn_all2.
Qed.

(** The test that makes [handle_car_message] pop the queue. *)
Lemma arrival_condition (st cur front : list ascii) :
  (length (cstr st) <= 7)%nat -> (length (cstr cur) <= 3)%nat ->
  ((strncmp (safe_copy (cstr st) MAX_STATUS_LEN) (lit "Opening") MAX_STATUS_LEN =? 0)
   && (strncmp (safe_copy (cstr cur) MAX_FLOOR_LEN) front MAX_FLOOR_LEN =? 0))%bool
  = true
  <-> cstr st = lit "Opening"
      /\ firstn MAX_FLOOR_LEN (cstr front) = cstr cur.
Proof.
  intros Hs Hc.
  rewrite andb_true_iff, !Z.eqb_eq, !strncmp_zero_iff.
  rewrite !cstr_safe_copy_short by (unfold MAX_STATUS_LEN, MAX_FLOOR_LEN; simpl; lia).
  rewrite (firstn_all2 (n := MAX_STATUS_LEN) (cstr st))
    by (unfold MAX_STATUS_LEN; lia).
  rewrite (firstn_all2 (n := MAX_FLOOR_LEN) (cstr cur))
    by (unfold MAX_FLOOR_LEN; lia).
  change (firstn MAX_STATUS_LEN (cstr (lit "Opening"))) with (lit "Opening").
  split; intros [H1 H2]; split; congruence.
Qed.

End Arrival.

(** X25.  What a car reports is what the dispatcher records.  For a car
    whose status and two floor fields are words (not empty, no white
    space), the status message built from the shared record is read back by
    the dispatcher field for field: the record then holds the same three
    strings, and keeps its name, range, connection and descriptor.  The
    queue is touched in one case only: when the car reports [Opening] at
    the floor at the head of its queue, that node is removed and the next
    one, if there is one, is sent to the car as [FLOOR <next>]. *)
Theorem status_report_is_recorded
    (car : Controller.car_info) (shm : car_shared_mem) :
  Shape.word 7 (cstr (Shm.status shm)) ->
  Shape.word 3 (cstr (Shm.current_floor shm)) ->
  Shape.word 3 (cstr (Shm.destination_floor shm)) ->
  let result := Dispatcher.handle_car_message car (CarNet.status_message shm) in
  let car' := fst result in
  let arrived :=
    exists front,
      Controller.get_queue_front car = Some front
      /\ cstr (Shm.status shm) = lit "Opening"
      /\ firstn MAX_FLOOR_LEN (cstr front) = cstr (Shm.current_floor shm) in
  cstr (Controller.status car') = cstr (Shm.status shm)
  /\ cstr (Controller.current_floor car') = cstr (Shm.current_floor shm)
  /\ cstr (Controller.destination_floor car') = cstr (Shm.destination_floor shm)
  /\ Controller.name car' = Controller.name car
  /\ Controller.lowest car' = Controller.lowest car
  /\ Controller.highest car' = Controller.highest car
  /\ Controller.connected car' = Controller.connected car
  /\ Controller.fd car' = Controller.fd car
  /\ (arrived ->
      Controller.queue car' = tl (Controller.queue car)
      /\ snd result
         = match tl (Controller.queue car) with
           | [] => []
           | next :: _ =>
               [(Controller.fd car, firstn 63 (lit "FLOOR " ++ cstr next))]
           end)
  /\ (~ arrived ->
      Controller.queue car' = Controller.queue car /\ snd result = []).
Proof.
  intros Hs Hc Hd result car' arrived. subst result car' arrived.
  destruct (sscanf_status_message shm Hs Hc Hd) as [H0 Hscan].
  unfold Dispatcher.handle_car_message. rewrite H0, Hscan.
  pose proof Hs as (_ & Hsl & _). pose proof Hc as (_ & Hcl & _).
  pose proof Hd as (_ & Hdl & _).
  assert (E1 : cstr (safe_copy (cstr (Shm.status shm)) MAX_STATUS_LEN)
               = cstr (Shm.status shm))
    by (apply cstr_safe_copy_short; unfold MAX_STATUS_LEN; simpl; lia).
  assert (E2 : cstr (safe_copy (cstr (Shm.current_floor shm)) MAX_FLOOR_LEN)
               = cstr (Shm.current_floor shm))
    by (apply cstr_safe_copy_short; unfold MAX_FLOOR_LEN; simpl; lia).
  assert (E3 : cstr (safe_copy (cstr (Shm.destination_floor shm)) MAX_FLOOR_LEN)
               = cstr (Shm.destination_floor shm))
    by (apply cstr_safe_copy_short; unfold MAX_FLOOR_LEN; simpl; lia).
  unfold Controller.get_queue_front, Dispatcher.pop_queue,
    Dispatcher.store_status.
  cbn [Controller.queue Controller.status Controller.current_floor].
  destruct (Controller.queue car) as [|front rest] eqn:Eq.
  - cbn [fst snd Controller.status Controller.current_floor
         Controller.destination_floor Controller.name Controller.lowest
         Controller.highest Controller.connected Controller.fd
         Controller.queue tl].
    repeat (split; [assumption || reflexivity|]).
    split; [intros (front & Hf & _); discriminate|]. intros _. now split.
  - pose proof (arrival_condition (Shm.status shm) (Shm.current_floor shm)
                  front Hsl Hcl) as Harr.
    destruct ((strncmp (safe_copy (cstr (Shm.status shm)) MAX_STATUS_LEN)
                 (lit "Opening") MAX_STATUS_LEN =? 0)
              && (strncmp (safe_copy (cstr (Shm.current_floor shm)) MAX_FLOOR_LEN)
                    front MAX_FLOOR_LEN =? 0))%bool eqn:Econd.
    + cbn [Controller.set_queue Controller.queue].
      assert (Hyes : cstr (Shm.status shm) = lit "Opening"
                     /\ firstn MAX_FLOOR_LEN (cstr front)
                        = cstr (Shm.current_floor shm))
        by (now apply Harr).
      destruct rest as [|next rest];
        cbn [fst snd Controller.status Controller.current_floor
             Controller.destination_floor Controller.name Controller.lowest
             Controller.highest Controller.connected Controller.fd
             Controller.queue Controller.set_queue tl];
        repeat (split; [assumption || reflexivity|]);
        (split; [intros _; now split|]);
        intros Hno; exfalso; apply Hno; exists front;
        (split; [reflexivity|exact Hyes]).
    + cbn [fst snd Controller.status Controller.current_floor
           Controller.destination_floor Controller.name Controller.lowest
           Controller.highest Controller.connected Controller.fd
           Controller.queue tl].
      repeat (split; [assumption || reflexivity|]).
      split; [|intros _; now split].
      intros (front' & Hf & Hyes). injection Hf as <-.
      apply Harr in Hyes. discriminate.
Qed.

Lemma status_report_is_recorded_witness :
  cstr (Controller.current_floor
          (fst (Dispatcher.handle_car_message rising_car
                  (CarNet.status_message moving_car))))
  = lit "1"
  /\ cstr (Controller.destination_floor
             (fst (Dispatcher.handle_car_message rising_car
                     (CarNet.status_message moving_car))))
     = lit "3".
Proof.
  assert (Hw : forall width s,
             s <> [] -> (length s <= width)%nat ->
             forallb (fun c => negb (isspace c) && negb (is_nul c))%bool s = true ->
             Shape.word width s).
  { intros width s H1 H2 H3. split; [exact H1|]. split; [exact H2|].
    apply Forall_forall. intros c Hin.
    rewrite forallb_forall in H3. specialize (H3 c Hin).
    apply andb_true_iff in H3. destruct H3 as [Ha Hb].
    now apply negb_true_iff in Ha, Hb. }
  destruct (status_report_is_recorded rising_car moving_car)
    as (_ & Hc & Hd & _).
  - apply Hw; [discriminate|vm_compute; lia|reflexivity].
  - apply Hw; [discriminate|vm_compute; lia|reflexivity].
  - apply Hw; [discriminate|vm_compute; lia|reflexivity].
  - split; [exact Hc|exact Hd].
Defined.

(** X26.  A report without a floor is not heard.  When the current floor or
    the destination of a car is the empty string, its status message has
    fewer than three fields; the dispatcher then records nothing and sends
    nothing, so that its record of the car stays as it was. *)
Theorem report_without_a_floor_is_ignored
    (car : Controller.car_info) (shm : car_shared_mem) :
  Shape.word 7 (cstr (Shm.status shm)) ->
  cstr (Shm.current_floor shm) = [] \/ Shape.word 3 (cstr (Shm.current_floor shm)) ->
  cstr (Shm.destination_floor shm) = []
  \/ Shape.word 3 (cstr (Shm.destination_floor shm)) ->
  cstr (Shm.current_floor shm) = [] \/ cstr (Shm.destination_floor shm) = [] ->
  Dispatcher.handle_car_message car (CarNet.status_message shm) = (car, []).
Proof.
  intros Hs Hc Hd Hempty.
  assert (Hfield : forall s, s = [] \/ Shape.word 3 s ->
            (length s <= 3)%nat /\ Forall (fun c => isspace c = false) s).
  { intros s [->|(_ & Hl & Hw)]; [split; [simpl; lia|constructor]|].
    split; [exact Hl|]. eapply Forall_impl; [|exact Hw]. now intros c [H _]. }
  destruct (Hfield _ Hc) as [Hcl Hcs]. destruct (Hfield _ Hd) as [Hdl Hds].
  destruct (status_message_text shm Hs Hcl Hdl) as [Htext Hcstr].
  unfold Dispatcher.handle_car_message.
  rewrite (sscanf_status_message_short shm Hs Hcl Hdl Hcs Hds Hempty).
  rewrite Htext in *. destruct (status_prefix _ Hcstr) as [H0 _].
  now rewrite H0.
Qed.

Lemma report_without_a_floor_is_ignored_witness :
  Dispatcher.handle_car_message rising_car
    (CarNet.status_message (set_current_floor [NUL; NUL; NUL; NUL] moving_car))
  = (rising_car, []).
Proof.
  apply report_without_a_floor_is_ignored.
  - split; [discriminate|]. split; [vm_compute; lia|]. repeat constructor.
  - left. reflexivity.
  - right. split; [discriminate|]. split; [vm_compute; lia|]. repeat constructor.
  - left. reflexivity.
Defined.

(** ** The dispatcher: the car table *)

Section CarTable.

Import Controller.






End CarTable.



(** ** The dispatcher: answering a call *)

Section CallAnswer.

Import Controller.

Lemma add_to_queue_only_queue (car : car_info) (floor : list ascii) :
  add_to_queue car floor = set_queue (queue (add_to_queue car floor)) car.
Proof.
  destruct (ok (parse_floor floor)) eqn:Hok.
  2: { rewrite add_to_queue_skips by (right; exact Hok). now destruct car. }
  destruct (existsb (fun node => strncmp node floor MAX_FLOOR_LEN =? 0)
              (queue car)) eqn:Ex.
  - apply queued_test in Ex.
    rewrite add_to_queue_skips by (left; exact Ex). now destruct car.
  - assert (Hq : ~ Shape.queued floor car).
    { intros H. apply queued_test in H. congruence. }
    destruct (add_to_queue_shape car floor Hq Hok) as (before & after & _ & H2).
    rewrite H2. reflexivity.
Qed.

(** After [add_to_queue] with a floor, the queue is not empty. *)
Lemma add_to_queue_nonempty (car : car_info) (floor : list ascii) :
  ok (parse_floor floor) = true -> queue (add_to_queue car floor) <> [].
Proof.
  intros Hok.
  destruct (existsb (fun node => strncmp node floor MAX_FLOOR_LEN =? 0)
              (queue car)) eqn:Ex.
  - apply queued_test in Ex.
    rewrite add_to_queue_skips by (left; exact Ex).
    destruct Ex as (node & Hin & _). intros E. now rewrite E in Hin.
  - assert (Hq : ~ Shape.queued floor car).
    { intros H. apply queued_test in H. congruence. }
    destruct (add_to_queue_shape car floor Hq Hok) as (before & after & _ & H2).
    rewrite H2. cbn [set_queue queue]. now destruct before.
Qed.

Lemma valid_label_nonempty (f : list ascii) :
  ok (parse_floor f) = true -> cstr f <> [].
Proof.
  intros Hok E.
  rewrite (parse_floor_same_text f []) in Hok by exact E. discriminate.
Qed.

(** The test that decides whether the car is sent a [FLOOR] message. *)
Lemma front_changed (old new : list ascii) :
  ok (parse_floor old) = true -> ok (parse_floor new) = true ->
  (is_nul (hd NUL (cstr (safe_copy old MAX_FLOOR_LEN)))
   || negb (strncmp (cstr (safe_copy old MAX_FLOOR_LEN)) new MAX_FLOOR_LEN =? 0))%bool
  = true
  <-> cstr old <> cstr new.
Proof.
  intros Ho Hn.
  rewrite cstr_safe_copy_label by exact Ho.
  pose proof (valid_label_nonempty _ Ho) as Hne.
  pose proof (valid_label_length _ Ho) as Hlo.
  pose proof (valid_label_length _ Hn) as Hln.
  pose proof (cstr_no_nul old) as Hnn.
  destruct (cstr old) as [|c r] eqn:E; [contradiction Hne; reflexivity|].
  inversion Hnn as [|? ? Hc _]; subst. cbn [hd]. rewrite Hc. cbn [orb].
  rewrite negb_true_iff, Z.eqb_neq, strncmp_zero_iff.
  rewrite <- E, cstr_idem.
  rewrite !firstn_all2 by (unfold MAX_FLOOR_LEN; rewrite ?E; lia).
  reflexivity.
Qed.

End CallAnswer.

(** X28.  A call that gets a car: the source and then the destination are
    added to the queue of the selected car and to no other record, the
    client is answered [CAR <name>] last, and the car is sent
    [FLOOR <head of its queue>] exactly when that head is not the floor
    that was at the head before; with an unchanged head nothing is sent to
    the car. *)
Theorem call_tells_the_car_its_next_stop
    (cars : list Controller.car_info) (client_fd : Z) (message : list ascii)
    (source destination : list ascii) (i : nat) (car : Controller.car_info) :
  Controller.sscanf_call message = Some (source, destination) ->
  Controller.find_best_car cars source destination = Some i ->
  nth_error cars i = Some car ->
  Shape.queue_ok car ->
  let car' :=
    Controller.add_to_queue (Controller.add_to_queue car source) destination in
  let reply := (client_fd, firstn 63 (lit "CAR " ++ cstr (Controller.name car))) in
  exists new_front,
    Controller.get_queue_front car' = Some new_front
    /\ fst (Controller.handle_call_request cars client_fd message)
       = Controller.replace_nth i car' cars
    /\ (option_map cstr (Controller.get_queue_front car) = Some (cstr new_front) ->
        snd (Controller.handle_call_request cars client_fd message) = [reply])
    /\ (option_map cstr (Controller.get_queue_front car) <> Some (cstr new_front) ->
        snd (Controller.handle_call_request cars client_fd message)
        = [(Controller.fd car, firstn 63 (lit "FLOOR " ++ cstr new_front)); reply]).
Proof.
  intros Hscan Hsel Hn Hok car' reply.
  pose proof (find_best_car_selected _ _ _ _ Hsel) as (Hs & Hd & _).
  assert (Hok' : Shape.queue_ok car')
    by (subst car'; now apply queue_ok_add_to_queue, queue_ok_add_to_queue).
  assert (Hne : Controller.queue car' <> [])
    by (subst car'; now apply add_to_queue_nonempty).
  assert (Hsame : car' = Controller.set_queue (Controller.queue car') car).
  { assert (Hq : forall q, Controller.set_queue q (Controller.add_to_queue car source)
                            = Controller.set_queue q car).
    { intros q. rewrite (add_to_queue_only_queue car source). reflexivity. }
    subst car'. rewrite <- Hq. apply add_to_queue_only_queue. }
  unfold Controller.handle_call_request. rewrite Hscan, Hsel, Hn.
  fold car'. cbn [fst snd].
  unfold Controller.get_queue_front in *.
  destruct (Controller.queue car') as [|new_front rest] eqn:Eq;
    [contradiction Hne; reflexivity|].
  exists new_front. split; [reflexivity|]. split; [reflexivity|].
  assert (Hfd : Controller.fd car' = Controller.fd car)
    by (rewrite Hsame; reflexivity).
  assert (Hname : Controller.name car' = Controller.name car)
    by (rewrite Hsame; reflexivity).
  rewrite Hfd, Hname. fold reply.
  assert (Hnew : ok (parse_floor new_front) = true).
  { destruct Hok' as [_ Hall]. rewrite Eq in Hall. now inversion Hall. }
  destruct (Controller.queue car) as [|old_front rest0] eqn:Eq0.
  - cbn [option_map hd]. replace (is_nul NUL) with true by reflexivity.
    cbn [orb app]. split; [discriminate|reflexivity].
  - assert (Hold : ok (parse_floor old_front) = true).
    { destruct Hok as [_ Hall]. rewrite Eq0 in Hall. now inversion Hall. }
    pose proof (front_changed old_front new_front Hold Hnew) as Hch.
    cbn [option_map].
    destruct (is_nul (hd NUL (cstr (safe_copy old_front MAX_FLOOR_LEN)))
              || negb (strncmp (cstr (safe_copy old_front MAX_FLOOR_LEN))
                         new_front MAX_FLOOR_LEN =? 0))%bool.
    + assert (Hdiff : cstr old_front <> cstr new_front) by (now apply Hch).
      split; [intros E; injection E as E; contradiction|reflexivity].
    + split; [reflexivity|].
      intros Hdiff. exfalso.
      assert (Hyes : cstr old_front <> cstr new_front)
        by (intros E; apply Hdiff; now rewrite E).
      apply Hch in Hyes. discriminate.
Qed.

Lemma call_tells_the_car_its_next_stop_witness :
  snd (Controller.handle_call_request two_cars 7 (lit "CALL 6 8"))
  = [(5, lit "FLOOR 6"); (7, lit "CAR B")].
Proof.
  destruct (call_tells_the_car_its_next_stop two_cars 7 (lit "CALL 6 8")
              (lit "6") (lit "8") 1 (idle_car "B" "1" "10" "5" 5)
              eq_refl eq_refl eq_refl)
    as (new_front & Hf & _ & _ & Hsend).
  - split; constructor.
  - vm_compute in Hf. injection Hf as <-.
    rewrite Hsend; [reflexivity|]. vm_compute. discriminate.
Defined.

(** ** Floor fields that hold no floor *)




(** ** The hall-call client on any arguments *)


